(** * The Monday.com mapping engine of pipedream-libs, embedded in Rocq

    Source: [packages/monday/index.js].  The development follows the file
    top-down: the JavaScript values the code manipulates, the string and
    regular-expression primitives it calls, the value sanitizers, the API
    client (the Gateway), the dynamic mapper with its schema cache, and the
    error logger.  The definitions are followed by the properties proved of
    them, C1 to C10. *)

From Stdlib Require Import ZArith Ascii String List Lia Bool DecimalString DecimalN DecimalPos
  SpecFloat.
From stdpp Require Import base tactics option list gmap strings.

Local Set Warnings "-register-all".
Local Open Scope string_scope.
Local Open Scope list_scope.
Local Open Scope Z_scope.

(** ** JavaScript values *)

(** Numbers are doubles.  A finite double is a binary fraction and so a
    decimal one: [Dec m e] is [m * 10^-e], written in lowest form ([e = 0] or
    [m] not a multiple of ten) by the operations below.  A [Dec m e] that is
    no double stands for the double nearest to it, as a numeric literal does.
    The two zeros are not told apart: nothing in the code does. *)
Inductive number :=
| NaN
| Inf (negative : bool)
| Dec (m : Z) (e : nat).

Inductive value :=
| VUndef
| VNull
| VBool (b : bool)
| VNum (n : number)
| VStr (s : string)
| VArr (xs : list value)
| VObj (props : list (string * value)).

(** An Error object: a class, a message and the extra properties the code
    attaches ([code], [status], [data], ...). *)
Inductive error_class := ErrorC | TypeErrorC | SyntaxErrorC.

Record exn := mkExn {
  e_class : error_class;
  e_message : string;
  e_props : list (string * value)
}.

Definition TypeError (msg : string) : exn := mkExn TypeErrorC msg [].
Definition SyntaxError (msg : string) : exn := mkExn SyntaxErrorC msg [].
Definition Error (msg : string) : exn := mkExn ErrorC msg [].

(** What a [throw] or a rejected promise carries: an Error object, as
    everything this code throws is, or any other value, which a caller's
    object may reject with. *)
Inductive thrown :=
| ErrorObject (e : exn)
| OtherValue (v : value).
Coercion ErrorObject : exn >-> thrown.

(** The outcome of a computation.  [Outside] is the outcome of a run that
    reads, at a key computed at run time, a property the value does not have
    of its own and its prototype may have: a function or an object of the
    engine, which is no data.  The model says nothing about such a run; no
    handler catches it. *)
Inductive result (A : Type) :=
| Return (a : A)
| Throw (e : thrown)
| Outside.
Arguments Return {A} a.
Arguments Throw {A} e.
Arguments Outside {A}.

Definition rbind {A B} (r : result A) (k : A → result B) : result B :=
  match r with
  | Return a => k a
  | Throw e => Throw e
  | Outside => Outside
  end.

Notation "'let?' x := r 'in' k" := (rbind r (fun x => k))
  (at level 10, x pattern, r at level 100, k at level 200).

Fixpoint rmap_list {A B} (f : A → result B) (l : list A) : result (list B) :=
  match l with
  | [] => Return []
  | x :: l' => let? y := f x in let? ys := rmap_list f l' in Return (y :: ys)
  end.

(** ** Characters *)

Definition code (c : ascii) : N := N_of_ascii c.

Definition is_digit (c : ascii) : bool := ((48 <=? code c) && (code c <=? 57))%N.

(** White space of [\s] and [trim] within Latin-1: tab, line feed, vertical
    tab, form feed, carriage return, space, no-break space. *)
Definition is_space (c : ascii) : bool :=
  (((9 <=? code c) && (code c <=? 13)) || (code c =? 32) || (code c =? 160))%N.

Definition lower_char (c : ascii) : ascii :=
  let n := code c in
  if (((65 <=? n) && (n <=? 90)) ||
      ((192 <=? n) && (n <=? 222) && negb (n =? 215)))%N
  then ascii_of_N (n + 32) else c.

Definition is_char (a c : ascii) : bool := Ascii.eqb a c.
Definition not_in (cls : list (ascii → bool)) (c : ascii) : bool :=
  negb (existsb (fun p => p c) cls).

(** ** Strings

    A string is a sequence of Latin-1 characters, one [ascii] each. *)

Fixpoint string_filter (p : ascii → bool) (s : string) : string :=
  match s with
  | EmptyString => EmptyString
  | String c s' => if p c then String c (string_filter p s') else string_filter p s'
  end.

Fixpoint string_forallb (p : ascii → bool) (s : string) : bool :=
  match s with
  | EmptyString => true
  | String c s' => p c && string_forallb p s'
  end.

Fixpoint string_map (f : ascii → ascii) (s : string) : string :=
  match s with
  | EmptyString => EmptyString
  | String c s' => String (f c) (string_map f s')
  end.

Fixpoint string_rev_onto (s acc : string) : string :=
  match s with
  | EmptyString => acc
  | String c s' => string_rev_onto s' (String c acc)
  end.
Definition string_rev (s : string) : string := string_rev_onto s EmptyString.

Fixpoint trimStart (s : string) : string :=
  match s with
  | String c s' => if is_space c then trimStart s' else s
  | EmptyString => EmptyString
  end.

(** [String.prototype.trim] *)
Definition trim (s : string) : string :=
  string_rev (trimStart (string_rev (trimStart s))).

(** [String.prototype.toLowerCase] *)
Definition toLowerCase (s : string) : string := string_map lower_char s.

(** [s.startsWith(p)] *)
Definition startsWith (p s : string) : bool := String.prefix p s.

(** [s.includes(c)] for a one-character needle *)
Fixpoint includes_char (a : ascii) (s : string) : bool :=
  match s with
  | EmptyString => false
  | String c s' => Ascii.eqb a c || includes_char a s'
  end.

(** [s.includes(p)] *)
Fixpoint includes (p s : string) : bool :=
  String.prefix p s ||
  match s with
  | EmptyString => false
  | String _ s' => includes p s'
  end.

(** [s.split(sep)] for a one-character separator: never empty. *)
Fixpoint split_on (sep : ascii) (s : string) : list string :=
  match s with
  | EmptyString => [EmptyString]
  | String c s' =>
      if Ascii.eqb sep c then EmptyString :: split_on sep s'
      else match split_on sep s' with
           | p :: ps => String c p :: ps
           | [] => [String c EmptyString]
           end
  end.

(** [parts.join(sep)] on strings *)
Fixpoint join (sep : string) (parts : list string) : string :=
  match parts with
  | [] => EmptyString
  | [p] => p
  | p :: ps => p +:+ sep +:+ join sep ps
  end.

(** ** Regular expressions

    The literals of the source are sequences of one-character classes, greedy
    [+] repetitions of such classes and the anchors [^] and [$], joined by
    [|].  [match_seq] is the backtracking matcher: a greedy repetition takes
    as many characters as it can and gives them back one at a time when the
    rest of the pattern fails. *)
Inductive atom :=
| AChar (p : ascii → bool)
| APlus (p : ascii → bool)
| ABol
| AEol.

Definition regex := list (list atom).

Fixpoint plus_k (p : ascii → bool) (k : string → option string) (s : string) : option string :=
  match s with
  | EmptyString => None
  | String c s' =>
      if p c then
        match plus_k p k s' with
        | Some r => Some r
        | None => k s'
        end
      else None
  end.

(** The result is the input left after the match. *)
Fixpoint match_seq (atoms : list atom) (bol : bool) (s : string) : option string :=
  match atoms with
  | [] => Some s
  | AChar p :: r =>
      match s with
      | String c s' => if p c then match_seq r false s' else None
      | EmptyString => None
      end
  | APlus p :: r => plus_k p (match_seq r false) s
  | ABol :: r => if bol then match_seq r bol s else None
  | AEol :: r =>
      match s with
      | EmptyString => match_seq r bol s
      | String _ _ => None
      end
  end.

Fixpoint exec_at (re : regex) (bol : bool) (s : string) : option string :=
  match re with
  | [] => None
  | alt :: re' =>
      match match_seq alt bol s with
      | Some rest => Some rest
      | None => exec_at re' bol s
      end
  end.

(** A scan of the whole input with the [g] flag: the characters outside the
    matches and the matched texts, in order.  [skip] counts the characters of
    the current match still to be passed over. *)
Inductive seg :=
| Lit (c : ascii)
| Mat (m : string).

Fixpoint scan (re : regex) (bol : bool) (skip : nat) (s : string) : list seg :=
  match s with
  | EmptyString =>
      match skip, exec_at re bol EmptyString with
      | O, Some _ => [Mat EmptyString]
      | _, _ => []
      end
  | String c s' =>
      match skip with
      | S k => scan re false k s'
      | O =>
          match exec_at re bol s with
          | Some rest =>
              match (String.length s - String.length rest)%nat with
              | O => Mat EmptyString :: Lit c :: scan re false O s'
              | S k => Mat (substring 0 (S k) s) :: scan re false k s'
              end
          | None => Lit c :: scan re false O s'
          end
      end
  end.

Definition matches_of (segs : list seg) : list string :=
  omap (fun sg => match sg with Mat m => Some m | Lit _ => None end) segs.

(** [s.match(re)] with the [g] flag: [None] is JavaScript's [null]. *)
Definition js_match_g (re : regex) (s : string) : option (list string) :=
  match matches_of (scan re true O s) with
  | [] => None
  | ms => Some ms
  end.

(** [s.replace(re, rep)] with the [g] flag *)
Definition js_replace_g (re : regex) (rep : string) (s : string) : string :=
  fold_right (fun sg acc =>
                match sg with
                | Lit c => String c acc
                | Mat _ => rep +:+ acc
                end) EmptyString (scan re true O s).

(** [re.test(s)] *)
Definition js_test (re : regex) (s : string) : bool :=
  match matches_of (scan re true O s) with
  | [] => false
  | _ => true
  end.

(** ** Numbers *)

Definition digit_value (c : ascii) : Z := Z.of_N (code c) - 48.

Fixpoint digits_value_from (acc : Z) (ds : string) : Z :=
  match ds with
  | EmptyString => acc
  | String c ds' => digits_value_from (acc * 10 + digit_value c) ds'
  end.
Definition digits_value (ds : string) : Z := digits_value_from 0 ds.

(** The longest prefix of digits, and what follows it. *)
Fixpoint take_digits (s : string) : string * string :=
  match s with
  | String c s' =>
      if is_digit c then let '(ds, r) := take_digits s' in (String c ds, r)
      else (EmptyString, s)
  | EmptyString => (EmptyString, EmptyString)
  end.

Fixpoint normalize (m : Z) (e : nat) : number :=
  match e with
  | O => Dec m O
  | S e' => if m mod 10 =? 0 then normalize (m / 10) e' else Dec m e
  end.

(** The binary fraction [m * 2^e] as a decimal one. *)
Definition of_binary (m e : Z) : number :=
  match e with
  | Zneg k => normalize (m * 5 ^ Zpos k) (Pos.to_nat k)
  | _ => Dec (m * 2 ^ e) O
  end.

(** The double nearest to [p / q], for [q] positive; a tie goes to the even
    significand.  Beyond the range of the doubles it is an infinity, and a
    quotient too small for the least double is 0.  This is the rounding of
    the digits read by [parseInt], [parseFloat] and the conversion of a
    string to a number, every digit counting, as V8 does it; the language
    lets an engine ignore the digits after the twentieth. *)
Definition nearest_double (p q : Z) : number :=
  match p with
  | Z0 => Dec 0 O
  | Zpos p' | Zneg p' =>
      match SFdiv 53 1024 (S754_finite (p <? 0) p' 0) (S754_finite false (Z.to_pos q) 0) with
      | S754_finite negative m e => of_binary (if negative then Zneg m else Zpos m) e
      | S754_infinity negative => Inf negative
      | _ => Dec 0 O
      end
  end.

(** The double nearest to [m * 10^x]. *)
Definition nearest_decimal (m x : Z) : number :=
  match x with
  | Zneg k => nearest_double m (10 ^ Zpos k)
  | _ => nearest_double (m * 10 ^ x) 1
  end.

Definition double_of (m : Z) (e : nat) : number := nearest_decimal m (- Z.of_nat e).

Definition isNaN (n : number) : bool :=
  match n with
  | NaN => true
  | _ => false
  end.

Definition negate (n : number) : number :=
  match n with
  | NaN => NaN
  | Inf negative => Inf (negb negative)
  | Dec m e => Dec (- m) e
  end.

Definition nat_digits (n : Z) : string :=
  DecimalString.NilZero.string_of_uint (N.to_uint (Z.to_N n)).

Fixpoint zeros (n : nat) : string :=
  match n with
  | O => EmptyString
  | S n' => String "0" (zeros n')
  end.

Fixpoint strip_zeros_rev (s : string) : string :=
  match s with
  | String "0" s' => strip_zeros_rev s'
  | _ => s
  end.
(** A digit string without its trailing zeros. *)
Definition strip_zeros (s : string) : string := string_rev (strip_zeros_rev (string_rev s)).

(** The shortest digits that denote the double [x = m / 10^e], [m] positive:
    the least [k] for which one of the two [k]-digit decimals next to [x]
    rounds to [x], and of those the one nearer to [x] (the even one on a
    tie).  [d] is the number of digits of [m]; the result is the integer [s]
    and the power of ten it is scaled by. *)
Fixpoint shortest (x : number) (m : Z) (e : nat) (d : Z) (k : Z) (fuel : nat) : Z * Z :=
  match fuel with
  | O => (m, - Z.of_nat e)
  | S fuel' =>
      if d <=? k then (m, - Z.of_nat e)
      else
        let unit := 10 ^ (d - k) in
        let below := m / unit in
        let rest := m mod unit in
        let scale := d - k - Z.of_nat e in
        let fits s := match x, nearest_decimal s scale with
                      | Dec a i, Dec b j => (a =? b) && (i =? j)%nat
                      | _, _ => false
                      end in
        let lower := fits below in
        let upper := fits (below + 1) in
        let nearer_below :=
          (2 * rest <? unit) || ((2 * rest =? unit) && Z.even below) in
        if lower && (nearer_below || negb upper) then (below, scale)
        else if upper then (below + 1, scale)
        else shortest x m e d (k + 1) fuel'
  end.

(** [Number.prototype.toString] in radix 10 for a positive double. *)
Definition positive_to_string (m : Z) (e : nat) : string :=
  let x := double_of m e in
  let '(s, scale) := shortest x m e (Z.of_nat (String.length (nat_digits m))) 1 17 in
  let all := nat_digits s in
  let n := Z.of_nat (String.length all) + scale in
  let ds := strip_zeros all in
  let k := Z.of_nat (String.length ds) in
  if (k <=? n) && (n <=? 21) then ds +:+ zeros (Z.to_nat (n - k))
  else if (0 <? n) && (n <=? 21)
  then substring 0 (Z.to_nat n) ds +:+ "." +:+ substring (Z.to_nat n) (Z.to_nat (k - n)) ds
  else if (-6 <? n) && (n <=? 0) then "0." +:+ zeros (Z.to_nat (- n)) +:+ ds
  else
    let exponent := (if n - 1 <? 0 then "-" else "+") +:+ nat_digits (Z.abs (n - 1)) in
    if k =? 1 then ds +:+ "e" +:+ exponent
    else substring 0 1 ds +:+ "." +:+ substring 1 (Z.to_nat (k - 1)) ds +:+ "e" +:+ exponent.

(** The double a number stands for. *)
Definition canonical (n : number) : number :=
  match n with
  | Dec m e => double_of m e
  | _ => n
  end.

Definition number_to_string (n : number) : string :=
  match canonical n with
  | NaN => "NaN"
  | Inf negative => if negative then "-Infinity" else "Infinity"
  | Dec 0 _ => "0"
  | Dec (Zneg p) e => "-" +:+ positive_to_string (Zpos p) e
  | Dec m e => positive_to_string m e
  end.

Definition signed (s : string) : bool * string :=
  match s with
  | String "-" s' => (true, s')
  | String "+" s' => (false, s')
  | _ => (false, s)
  end.

(** The double nearest to [m * 10^x] for an exponent of any size: beyond
    400 digits either way the result is settled, an infinity or 0. *)
Definition nearest_scientific (m x : Z) : number :=
  let d := Z.of_nat (String.length (nat_digits (Z.abs m))) in
  nearest_decimal m (Z.max (- (400 + d)) (Z.min 400 x)).

(** The longest prefix that is a decimal literal, [digits], [digits.],
    [digits.digits] or [.digits], each with an optional exponent: the digits
    before and after the dot, the exponent, and what follows the literal. *)
Definition scan_decimal (s : string) : option (string * string * option Z * string) :=
  let '(ip, r1) := take_digits s in
  let '(fp, r2) :=
    match r1 with
    | String "." r => take_digits r
    | _ => (EmptyString, r1)
    end in
  match ip +:+ fp with
  | EmptyString => None
  | _ =>
      match r2 with
      | String c r =>
          if Ascii.eqb c "e" || Ascii.eqb c "E" then
            let '(negative, r') := signed r in
            match take_digits r' with
            | (EmptyString, _) => Some (ip, fp, None, r2)
            | (es, r3) =>
                Some (ip, fp, Some (if negative then - digits_value es else digits_value es), r3)
            end
          else Some (ip, fp, None, r2)
      | EmptyString => Some (ip, fp, None, r2)
      end
  end.

(** The double a decimal literal denotes. *)
Definition decimal_value (ip fp : string) (exponent : option Z) : number :=
  match exponent with
  | None => double_of (digits_value (ip +:+ fp)) (String.length fp)
  | Some x => nearest_scientific (digits_value (ip +:+ fp)) (x - Z.of_nat (String.length fp))
  end.

(** [parseInt(s, 10)]: leading white space, a sign, then the longest run of
    digits; [NaN] when there is no digit. *)
Definition parseInt (s : string) : number :=
  let '(neg, body) := signed (trimStart s) in
  let '(ds, _) := take_digits body in
  match ds with
  | EmptyString => NaN
  | _ =>
      let n := double_of (digits_value ds) O in
      if neg then negate n else n
  end.

(** [parseFloat(s)]: leading white space, a sign, then [Infinity] or the
    longest decimal literal; [NaN] when there is none. *)
Definition parseFloat (s : string) : number :=
  let '(neg, body) := signed (trimStart s) in
  if String.prefix "Infinity" body then Inf neg
  else
    match scan_decimal body with
    | Some (ip, fp, exponent, _) =>
        let n := decimal_value ip fp exponent in
        if neg then negate n else n
    | None => NaN
    end.

Definition digit_of (radix : Z) (c : ascii) : option Z :=
  let n := Z.of_N (code c) in
  let v := if (48 <=? n) && (n <=? 57) then n - 48
           else if (97 <=? n) && (n <=? 102) then n - 87
           else if (65 <=? n) && (n <=? 70) then n - 55
           else radix in
  if v <? radix then Some v else None.

Fixpoint radix_value (radix : Z) (acc : Z) (s : string) : option Z :=
  match s with
  | EmptyString => Some acc
  | String c s' =>
      match digit_of radix c with
      | Some v => radix_value radix (acc * radix + v) s'
      | None => None
      end
  end.

(** [0x], [0o] and [0b] literals *)
Definition scan_radix (s : string) : option (option Z) :=
  match s with
  | String "0" (String c (String d ds)) =>
      let radix := if Ascii.eqb c "x" || Ascii.eqb c "X" then Some 16
                   else if Ascii.eqb c "o" || Ascii.eqb c "O" then Some 8
                   else if Ascii.eqb c "b" || Ascii.eqb c "B" then Some 2
                   else None in
      match radix with
      | Some r => Some (radix_value r 0 (String d ds))
      | None => None
      end
  | _ => None
  end.

(** The number a string converts to ([Number(s)], and the operand of a
    comparison with a number). *)
Definition StringToNumber (s : string) : number :=
  let t := trim s in
  match t with
  | EmptyString => Dec 0 O
  | _ =>
      match scan_radix t with
      | Some (Some v) => nearest_double v 1
      | Some None => NaN
      | None =>
          let '(neg, body) := signed t in
          if String.eqb body "Infinity" then Inf neg
          else
            match scan_decimal body with
            | Some (ip, fp, exponent, EmptyString) =>
                let n := decimal_value ip fp exponent in
                if neg then negate n else n
            | _ => NaN
            end
      end
  end.

(** ** Primitive operations on values *)

(** [Boolean(v)] *)
Definition truthy (v : value) : bool :=
  match v with
  | VUndef | VNull => false
  | VBool b => b
  | VNum NaN => false
  | VNum (Inf _) => true
  | VNum (Dec m _) => negb (m =? 0)
  | VStr s => negb (String.eqb s EmptyString)
  | VArr _ | VObj _ => true
  end.

Definition is_undefined (v : value) : bool :=
  match v with VUndef => true | _ => false end.
Definition is_null (v : value) : bool :=
  match v with VNull => true | _ => false end.
Definition nullish (v : value) : bool := is_null v || is_undefined v.

(** [v === s] for a string literal [s] *)
Definition is_str (s : string) (v : value) : bool :=
  match v with VStr s' => String.eqb s s' | _ => false end.

(** [v === 0] *)
Definition is_zero (v : value) : bool :=
  match v with VNum (Dec 0 _) => true | _ => false end.

(** [typeof v] *)
Definition typeof (v : value) : string :=
  match v with
  | VUndef => "undefined"
  | VBool _ => "boolean"
  | VNum _ => "number"
  | VStr _ => "string"
  | VNull | VArr _ | VObj _ => "object"
  end.

Definition isArray (v : value) : bool :=
  match v with VArr _ => true | _ => false end.

(** Own properties of an object, in enumeration order. *)
Fixpoint own (props : list (string * value)) (k : string) : option value :=
  match props with
  | [] => None
  | (k', v) :: ps => if String.eqb k' k then Some v else own ps k
  end.

(** [obj[k] = v]: in place when the key exists, appended otherwise.  (An
    integer-like key is enumerated before the others; nothing below depends on
    the order of the properties of an object built this way.) *)
Fixpoint obj_set (props : list (string * value)) (k : string) (v : value)
  : list (string * value) :=
  match props with
  | [] => [(k, v)]
  | (k', v') :: ps =>
      if String.eqb k' k then (k, v) :: ps else (k', v') :: obj_set ps k v
  end.

(** An array index as a property key: decimal digits without leading zero. *)
Definition parse_index (k : string) : option nat :=
  match k with
  | EmptyString => None
  | String c k' =>
      if string_forallb is_digit k && (negb (Ascii.eqb c "0") || String.eqb k' EmptyString)
      then Some (Z.to_nat (digits_value k)) else None
  end.

(** [v[k]] on a value that is neither [null] nor [undefined]: the data
    properties of objects, arrays and strings.  Inherited methods are
    functions, which are no data values. *)
Definition get_prop (v : value) (k : string) : value :=
  match v with
  | VObj props => default VUndef (own props k)
  | VArr xs =>
      if String.eqb k "length" then VNum (Dec (Z.of_nat (length xs)) O)
      else match parse_index k with
           | Some i => default VUndef (xs !! i)
           | None => VUndef
           end
  | VStr s =>
      if String.eqb k "length" then VNum (Dec (Z.of_nat (String.length s)) O)
      else match parse_index k with
           | Some i => match String.get i s with
                       | Some c => VStr (String c EmptyString)
                       | None => VUndef
                       end
           | None => VUndef
           end
  | _ => VUndef
  end.

(** [v.k]: a [TypeError] on [null] and [undefined]. *)
Definition member (v : value) (k : string) : result value :=
  if nullish v
  then Throw (TypeError ("Cannot read properties of " +:+
                         (if is_null v then "null" else "undefined") +:+
                         " (reading '" +:+ k +:+ "')"))
  else Return (get_prop v k).

(** [v?.k] *)
Definition opt_member (v : value) (k : string) : value :=
  if nullish v then VUndef else get_prop v k.

(** [String(v)] and template-literal interpolation.  An object whose own
    [toString] property shadows the inherited method has no string
    conversion. *)
Fixpoint to_String (v : value) : result string :=
  match v with
  | VUndef => Return "undefined"
  | VNull => Return "null"
  | VBool true => Return "true"
  | VBool false => Return "false"
  | VNum n => Return (number_to_string n)
  | VStr s => Return s
  | VArr xs =>
      let? parts :=
        rmap_list (fun x => if nullish x then Return EmptyString else to_String x) xs in
      Return (join "," parts)
  | VObj props =>
      match own props "toString" with
      | Some _ => Throw (TypeError "Cannot convert object to primitive value")
      | None => Return "[object Object]"
      end
  end.

(** [v.toString()] *)
Definition toString (v : value) : result string :=
  match v with
  | VUndef => Throw (TypeError "Cannot read properties of undefined (reading 'toString')")
  | VNull => Throw (TypeError "Cannot read properties of null (reading 'toString')")
  | VObj props =>
      match own props "toString" with
      | Some _ => Throw (TypeError "value.toString is not a function")
      | None => Return "[object Object]"
      end
  | _ => to_String v
  end.

(** [v > 0]: the value is converted to a primitive, an object or a list
    through its text, and that to a number. *)
Definition gt_zero (v : value) : result bool :=
  let? primitive :=
    match v with
    | VArr _ | VObj _ => let? s := to_String v in Return (VStr s)
    | _ => Return v
    end in
  let n :=
    match primitive with
    | VNull => Dec 0 O
    | VBool b => if b then Dec 1 O else Dec 0 O
    | VNum n => n
    | VStr s => StringToNumber s
    | _ => NaN
    end in
  Return match n with
         | Dec m _ => 0 <? m
         | Inf negative => negb negative
         | NaN => false
         end.

(** [JSON.parse(JSON.stringify(v))] on data: properties holding [undefined]
    are dropped; [undefined], [NaN] and the infinities become [null]. *)
Fixpoint json_data (v : value) : value :=
  match v with
  | VUndef => VNull
  | VNum NaN => VNull
  | VNum (Inf _) => VNull
  | VArr xs => VArr (map json_data xs)
  | VObj props =>
      VObj ((fix fields (ps : list (string * value)) : list (string * value) :=
               match ps with
               | [] => []
               | (k, VUndef) :: ps' => fields ps'
               | (k, x) :: ps' => (k, json_data x) :: fields ps'
               end) props)
  | _ => v
  end.

(** [JSON.stringify(undefined)] is [undefined], which [JSON.parse] rejects. *)
Definition json_clone (v : value) : result value :=
  match v with
  | VUndef => Throw (SyntaxError "undefined is not valid JSON")
  | _ => Return (json_data v)
  end.

(** [a || b] *)
Definition js_or (a b : value) : value := if truthy a then a else b.

(** [error.message] on a caught value *)
Definition message_of (error : thrown) : result value :=
  match error with
  | ErrorObject e => Return (VStr (e_message e))
  | OtherValue v => member v "message"
  end.

(** [`${error.message}`] *)
Definition message_text (error : thrown) : result string :=
  let? message := message_of error in
  to_String message.

(** No data value is a [Date] object. *)
Definition instanceof_Date (v : value) : bool := false.

(** ** The runtime services the code calls

    [JSON_parse] is [None] where [JSON.parse] throws its [SyntaxError];
    [Date_new v] is the outcome of [new Date(v)] read through [getTime] and
    [toISOString().split('T')[0]]: [None] for an invalid date, the
    [YYYY-MM-DD] part otherwise. *)
Class Runtime := {
  JSON_parse : string → option value;
  JSON_stringify : value → string;
  Date_new : value → result (option string)
}.

(** ** State and exceptions

    An asynchronous method is a function from the state it can reach to its
    outcome and the new state; [await] is sequencing. *)
Definition M (S A : Type) : Type := S → result A * S.

Definition ret {S A} (a : A) : M S A := fun s => (Return a, s).
Definition throw {S A} (e : thrown) : M S A := fun s => (Throw e, s).
Definition lift {S A} (r : result A) : M S A := fun s => (r, s).
Definition bind {S A B} (m : M S A) (k : A → M S B) : M S B :=
  fun s =>
    match m s with
    | (Return a, s') => k a s'
    | (Throw e, s') => (Throw e, s')
    | (Outside, s') => (Outside, s')
    end.
(** [try { m } catch (error) { h error }] *)
Definition try_catch {S A} (m : M S A) (h : thrown → M S A) : M S A :=
  fun s =>
    match m s with
    | (Return a, s') => (Return a, s')
    | (Throw e, s') => h e s'
    | (Outside, s') => (Outside, s')
    end.
Definition get {S} : M S S := fun s => (Return s, s).
Definition modify {S} (f : S → S) : M S unit := fun s => (Return tt, f s).

Notation "'await' x ← m ; k" := (bind m (fun x => k))
  (at level 10, x pattern, m at level 100, k at level 200,
   format "'[v' 'await'  x  ←  m ; '/' k ']'").
Notation "m ;; k" := (bind m (fun _ => k))
  (at level 100, k at level 200, right associativity).

(** ** The remote endpoint *)

(** What [fetch] posts: the url, the [Authorization] header and the payload
    that is serialised into the body. *)
Record request := {
  req_url : string;
  req_authorization : string;
  req_payload : value
}.

(** The outcome of [response.json()]: the value the body denotes, whatever
    JSON text it is, or the error of a body that is none. *)
Inductive parsed :=
| Parsed (body : value)
| Unparsable (error : exn).

(** A response: [text] is [None] when [response.text()] rejects. *)
Record response := {
  ok : bool;
  status : Z;
  statusText : string;
  text : option string;
  json : parsed
}.

Inductive fetch_outcome :=
| Rejected (error : exn)
| Resolved (r : response).

(** The client: its fields, and as ghost state the requests posted so far
    and the milliseconds slept. *)
Record MondayApiClient := {
  apiKey : string;
  baseUrl : string;
  board_columns : gmap N value;
  posted : list request;
  slept : Z
}.

(** [new MondayApiClient(apiKey)] *)
Definition new_MondayApiClient (key : string) : MondayApiClient :=
  {| apiKey := key; baseUrl := "https://api.monday.com/v2";
     board_columns := ∅; posted := []; slept := 0 |}.

Definition sleep (ms : Z) : M MondayApiClient unit :=
  modify (fun c => {| apiKey := apiKey c; baseUrl := baseUrl c;
                      board_columns := board_columns c; posted := posted c;
                      slept := slept c + ms |}).

Definition set_board_columns (boardId : N) (columns : value) : M MondayApiClient unit :=
  modify (fun c => {| apiKey := apiKey c; baseUrl := baseUrl c;
                      board_columns := <[boardId := columns]> (board_columns c);
                      posted := posted c; slept := slept c |}).

Section Source.
Context {rt : Runtime}.

(** ** Column sanitizers (index.js, lines 333-490) *)

Definition sanitizeText (v : value) : result value :=
  if is_null v || is_undefined v then Return VNull
  else
    let? s := toString v in
    Return (VStr (trim s)).

(** [/^[^\s@]+@[^\s@]+\.[^\s@]+$/] *)
Definition emailRegex : regex :=
  [[ABol; APlus (not_in [is_space; is_char "@"]); AChar (is_char "@");
    APlus (not_in [is_space; is_char "@"]); AChar (is_char ".");
    APlus (not_in [is_space; is_char "@"]); AEol]].

Definition sanitizeEmail (v : value) : result value :=
  if is_null v || is_undefined v then Return VNull
  else if negb (truthy v) || negb (String.eqb (typeof v) "string")
  then Return (VObj [("email", VStr ""); ("text", VStr "")])
  else
    let sanitizedEmail :=
      toLowerCase (trim (match v with VStr s => s | _ => EmptyString end)) in
    Return (VObj [("email", VStr (if js_test emailRegex sanitizedEmail
                                  then sanitizedEmail else ""));
                  ("text", VStr sanitizedEmail)]).

(** [/\D/g] *)
Definition nonDigit : regex := [[AChar (fun c => negb (is_digit c))]].

Definition sanitizePhone (v : value) : result value :=
  if is_null v || is_undefined v then Return VNull
  else if negb (truthy v)
  then Return (VObj [("phone", VStr ""); ("countryShortName", VStr "US")])
  else
    let? s := toString v in
    let digitsOnly := js_replace_g nonDigit "" s in
    Return (VObj [("phone", VStr digitsOnly); ("countryShortName", VStr "US")]).

(** [/[^\d.]/g] *)
Definition nonNumeric : regex := [[AChar (not_in [is_digit; is_char "."])]].

Definition sanitizeNumbers (v : value) : result value :=
  if is_null v || is_undefined v then Return VNull
  else if is_str "" v then Return VNull
  else if String.eqb (typeof v) "object" && negb (isArray v) && negb (instanceof_Date v)
  then Return VNull
  else
    let? strValue := to_String v in
    let isNegative := startsWith "-" (trim strValue) in
    let strValue := js_replace_g nonNumeric "" strValue in
    if String.eqb strValue "" then Return VNull
    else
      let parts := split_on "." strValue in
      let strValue :=
        if (2 <? length parts)%nat
        then hd "" parts +:+ "." +:+ join "" (tl parts)
        else strValue in
      let numValue :=
        if includes_char "." strValue then parseFloat strValue
        else parseInt strValue in
      if isNaN numValue then Return VNull
      else Return (VNum (if isNegative then negate numValue else numValue)).

Definition sanitizeDate (v : value) : result value :=
  if is_null v || is_undefined v then Return VNull
  else if negb (truthy v) then Return (VObj [("date", VNull)])
  else
    let? date := Date_new v in
    match date with
    | None => Return (VObj [("date", VNull)])
    | Some day => Return (VObj [("date", VStr day)])
    end.

Definition sanitizeStatus (v : value) : result value :=
  if is_null v || is_undefined v then Return VNull
  else if negb (truthy v) then Return (VObj [("label", VStr "")])
  else
    let? s := toString v in
    Return (VObj [("label", VStr (trim s))]).

Definition nonEmptyLabel (v : value) : bool := negb (is_str "" v).

Definition sanitizeDropdown (v : value) : result value :=
  if is_null v || is_undefined v then Return VNull
  else if negb (truthy v) then Return (VObj [("labels", VArr [])])
  else
    match v with
    | VArr xs =>
        let? labels := rmap_list (fun x => let? s := toString x in Return (VStr (trim s))) xs in
        Return (VObj [("labels", VArr (filter (fun l => nonEmptyLabel l = true) labels))])
    | VStr s =>
        let labels := map (fun p => VStr (trim p)) (split_on "," s) in
        Return (VObj [("labels", VArr (filter (fun l => nonEmptyLabel l = true) labels))])
    | _ =>
        let? s := toString v in
        Return (VObj [("labels", VArr [VStr (trim s)])])
    end.

Definition sanitizeCheckbox (v : value) : result value :=
  if is_null v || is_undefined v then Return VNull
  else Return (VObj [("checked", VBool (truthy v))]).

Definition sanitizeLocation (v : value) : result value :=
  if is_null v || is_undefined v then Return VNull
  else
    let parsed :=
      match v with
      | VStr s =>
          match JSON_parse s with
          | Some v' => inl v'
          | None => inr (VObj [("address", v)])
          end
      | _ => inl v
      end in
    match parsed with
    | inr address => Return address
    | inl v =>
        if String.eqb (typeof v) "object" then
          let? lat := member v "lat" in
          let? lat := (if truthy lat then Return lat else member v "latitude") in
          if truthy lat then
            let? lng := member v "lng" in
            let? lng := (if truthy lng then Return lng else member v "longitude") in
            if truthy lng then
              let? lat_s := toString lat in
              let? lng_s := toString lng in
              Return (VObj [("lat", VStr lat_s); ("lng", VStr lng_s);
                            ("address", js_or (get_prop v "address") (VStr ""))])
            else Return VNull
          else Return VNull
        else Return VNull
    end.

Definition sanitizeBoardRelation (v : value) : result value :=
  if is_null v || is_undefined v then Return VNull
  else if truthy v && truthy (get_prop v "item_ids") then
    match get_prop v "item_ids" with
    | VArr ids =>
        let? item_ids := rmap_list (fun id => let? s := toString id in Return (VStr s)) ids in
        Return (VObj [("item_ids", VArr item_ids)])
    | _ => Throw (TypeError "value.item_ids.map is not a function")
    end
  else Return VNull.


(** The remote system: the outcome of a request, given the requests before
    it. *)
Variable remote : list request → request → fetch_outcome.

(** The request [fetch(this.baseUrl, ...)] posts for a payload. *)
Definition request_of (c : MondayApiClient) (payload : value) : request :=
  {| req_url := baseUrl c; req_authorization := apiKey c; req_payload := payload |}.

Definition fetch (payload : value) : M MondayApiClient fetch_outcome :=
  fun c =>
    (Return (remote (posted c) (request_of c payload)),
     {| apiKey := apiKey c; baseUrl := baseUrl c; board_columns := board_columns c;
        posted := posted c ++ [request_of c payload]; slept := slept c |}).

(** ** withRetry (lines 90-133): the loop is commented out; the message of
    a failure is read for the log, the failure is waited on and dropped, and
    the call resolves to [undefined]. *)
Definition withRetry (fn : M MondayApiClient value) : M MondayApiClient value :=
  try_catch fn
    (fun error =>
       lift (message_of error) ;;
       sleep 45000 ;;
       ret VUndef).

(** ** MondayApiClient (lines 139-327) *)

(** [{ query }], with [variables] when there are any. *)
Definition query_payload (query : string) (variables : list (string * value)) : value :=
  if (0 <? length variables)%nat
  then VObj [("query", VStr query); ("variables", VObj variables)]
  else VObj [("query", VStr query)].

(** The error thrown for a response with GraphQL errors: [shown] is the
    first error's message as interpolated, [errorMsg] its lower-case form.
    [code] is set for a complexity or rate-limit error; the response data and
    the errors are attached. *)
Definition graphqlError (result : value) (shown errorMsg : string) : exn :=
  mkExn ErrorC ("Monday GraphQL error: " +:+ shown)
    ((if includes "complexity" errorMsg || includes "rate limit" errorMsg
      then [("code", VStr "COMPLEXITY_ERROR")] else []) ++
     [("data", get_prop result "data");
      ("errors", get_prop result "errors");
      ("response", VObj [("data", get_prop result "data");
                         ("errors", get_prop result "errors");
                         ("extensions", get_prop result "extensions")])]).

(** The function [query] hands to [withRetry]. *)
Definition query_attempt (query : string) (variables : list (string * value))
  : M MondayApiClient value :=
  await outcome ← fetch (query_payload query variables);
  match outcome with
  | Rejected error =>
      throw (mkExn ErrorC ("Network error: " +:+ e_message error)
                   [("code", default VUndef (own (e_props error) "code"))])
  | Resolved response =>
      if negb (ok response) then
        let errorText := default "Unknown error" (text response) in
        throw (mkExn ErrorC
                 ("Monday API HTTP error: " +:+ number_to_string (Dec (status response) O)
                  +:+ " " +:+ statusText response +:+ " - " +:+ errorText)
                 [("status", VNum (Dec (status response) O));
                  ("response", VObj [("ok", VBool false);
                                     ("status", VNum (Dec (status response) O));
                                     ("statusText", VStr (statusText response))])])
      else
        match json response with
        | Unparsable error =>
            throw (Error ("Failed to parse Monday API response: " +:+ e_message error))
        | Parsed result =>
            await errors ← lift (member result "errors");
            await listed ← lift (if truthy errors then gt_zero (get_prop errors "length")
                                 else Return false);
            if listed then
                await message ← lift (member (get_prop errors "0") "message");
                await shown ← lift (to_String message);
                await errorMsg ←
                  lift (match message with
                        | VStr m => Return (toLowerCase m)
                        | VUndef =>
                            Throw (TypeError "Cannot read properties of undefined (reading 'toLowerCase')")
                        | VNull =>
                            Throw (TypeError "Cannot read properties of null (reading 'toLowerCase')")
                        | _ =>
                            Throw (TypeError "result.errors[0].message.toLowerCase is not a function")
                        end);
                throw (graphqlError result shown errorMsg)
            else ret result
        end
  end.

Definition query (q : string) (variables : list (string * value)) : M MondayApiClient value :=
  withRetry (query_attempt q variables).

(** The GraphQL documents, their white space condensed. *)
Definition CreateItem : string :=
  "mutation CreateItem($boardId: ID!, $itemName: String!, $columnValues: JSON!, $createLabels: Boolean!) { create_item( board_id: $boardId item_name: $itemName column_values: $columnValues create_labels_if_missing: $createLabels ) { id name } }".

Definition UpdateItem : string :=
  "mutation UpdateItem($itemId: ID!, $boardId: ID!, $columnValues: JSON!) { change_multiple_column_values( item_id: $itemId board_id: $boardId column_values: $columnValues ) { id name } }".

Definition GetBoardColumns : string :=
  "query GetBoardColumns($boardId: ID!) { boards(ids: [$boardId]) { columns { id title type description settings_str } } }".

(** [boardId.toString()] on a numeric board id *)
Definition board_key (boardId : N) : string := nat_digits (Z.of_N boardId).

Definition createItem (boardId : N) (itemName : string) (columnValues : value)
    (createLabels : bool) : M MondayApiClient value :=
  query CreateItem
    [("boardId", VStr (board_key boardId));
     ("itemName", VStr itemName);
     ("columnValues", VStr (JSON_stringify columnValues));
     ("createLabels", VBool createLabels)].

Definition updateItem (itemId : value) (boardId : N) (columnValues : value)
  : M MondayApiClient value :=
  await itemId_s ← lift (toString itemId);
  query UpdateItem
    [("itemId", VStr itemId_s);
     ("boardId", VStr (board_key boardId));
     ("columnValues", VStr (JSON_stringify columnValues))].

(** [this.board_columns] is the object the constructor made, so the
    not-initialised guard at the head of the method never fires. *)
Definition getBoardColumns (boardId : N) : M MondayApiClient value :=
  await this ← get;
  match board_columns this !! boardId with
  | Some columns => ret columns
  | None =>
      await response ← query GetBoardColumns [("boardId", VStr (board_key boardId))];
      await data ← lift (member response "data");
      let columns :=
        js_or (opt_member (opt_member (opt_member data "boards") "0") "columns") (VArr []) in
      set_board_columns boardId columns ;;
      ret columns
  end.

(** ** The Gateway as the mapper and the logger see it

    [this.mondayApiClient] is whatever object the constructor was given; the
    methods called on it are the interface.  The ghost field [calls] records
    every method invoked on it. *)
Class Gateway (G : Type) := {
  gw_getBoardColumns : N → M G value;
  gw_createItem : N → string → value → option bool → M G value;
  gw_updateItem : value → N → value → M G value
}.

#[local] Instance MondayApiClient_Gateway : Gateway MondayApiClient := {
  gw_getBoardColumns := getBoardColumns;
  gw_createItem := fun boardId itemName columnValues createLabels =>
                     createItem boardId itemName columnValues (default true createLabels);
  gw_updateItem := updateItem
}.

Inductive call :=
| GetBoardColumnsCall (boardId : N)
| CreateItemCall (boardId : N) (itemName : string) (columnValues : value)
    (createLabels : option bool)
| UpdateItemCall (itemId : value) (boardId : N) (columnValues : value).

Section Services.
Context {G : Type} {gw : Gateway G}.

Record service := {
  mondayApiClient : G;
  calls : list call
}.

Definition invoke {A} (c : call) (m : M G A) : M service A :=
  fun s =>
    let '(r, g) := m (mondayApiClient s) in
    (r, {| mondayApiClient := g; calls := calls s ++ [c] |}).

(** ** MondayDynamicMapper (lines 528-722)

    [objects] is the store of the Field Rule objects: a mapping configuration
    holds references into it. *)
Record MondayDynamicMapper := {
  gateway : service;
  columnSettingsCache : gmap string (gmap string value);
  objects : list (list (string * value))
}.

(** [new MondayDynamicMapper(client)], over a store of objects *)
Definition new_MondayDynamicMapper (client : G) (store : list (list (string * value)))
  : MondayDynamicMapper :=
  {| gateway := {| mondayApiClient := client; calls := [] |};
     columnSettingsCache := ∅; objects := store |}.

Definition on_gateway {A} (m : M service A) : M MondayDynamicMapper A :=
  fun this =>
    let '(r, g) := m (gateway this) in
    (r, {| gateway := g; columnSettingsCache := columnSettingsCache this;
           objects := objects this |}).

Definition on_objects {A} (m : M (list (list (string * value))) A) : M MondayDynamicMapper A :=
  fun this =>
    let '(r, h) := m (objects this) in
    (r, {| gateway := gateway this; columnSettingsCache := columnSettingsCache this;
           objects := h |}).

Definition on_cache (f : gmap string (gmap string value) → gmap string (gmap string value))
  : M MondayDynamicMapper unit :=
  modify (fun this => {| gateway := gateway this;
                         columnSettingsCache := f (columnSettingsCache this);
                         objects := objects this |}).

(** [/\{+([^{}]+)\}+/g] *)
Definition tagRegex : regex :=
  [[APlus (is_char "{"); APlus (not_in [is_char "{"; is_char "}"]); APlus (is_char "}")]].

(** [/^\{+|\}+$/g] *)
Definition outerBraces : regex :=
  [[ABol; APlus (is_char "{")]; [APlus (is_char "}"); AEol]].

(** The tags of one description: every match, its braces removed. *)
Definition extract_tags (description : string) : list string :=
  match js_match_g tagRegex description with
  | Some tagMatches => map (js_replace_g outerBraces "") tagMatches
  | None => []
  end.

Definition descriptor (column : value) : value :=
  VObj [("id", get_prop column "id");
        ("title", get_prop column "title");
        ("type", get_prop column "type");
        ("settings_str", get_prop column "settings_str")].

(** The body of [columns.forEach]. *)
Definition add_column (columnMap : gmap string value) (column : value)
  : result (gmap string value) :=
  let? d := member column "description" in
  match js_or d (VStr "") with
  | VStr description =>
      Return (foldl (fun m tag => <[tag := descriptor column]> m) columnMap
                    (extract_tags description))
  | _ => Throw (TypeError "description.match is not a function")
  end.

Fixpoint forEach_column (columns : list value) (columnMap : gmap string value)
  : result (gmap string value) :=
  match columns with
  | [] => Return columnMap
  | column :: rest =>
      let? columnMap := add_column columnMap column in
      forEach_column rest columnMap
  end.

Definition build_columnMap (columns : value) : result (gmap string value) :=
  match columns with
  | VArr cols => forEach_column cols ∅
  | VUndef => Throw (TypeError "Cannot read properties of undefined (reading 'forEach')")
  | VNull => Throw (TypeError "Cannot read properties of null (reading 'forEach')")
  | _ => Throw (TypeError "columns.forEach is not a function")
  end.

Definition cacheKey (boardId : N) : string := "board_" +:+ board_key boardId.

Definition fetchBoardColumnSettings (boardId : N)
  : M MondayDynamicMapper (gmap string value) :=
  await this ← get;
  match columnSettingsCache this !! cacheKey boardId with
  | Some columnMap => ret columnMap
  | None =>
      try_catch
        (await columns ← on_gateway (invoke (GetBoardColumnsCall boardId)
                                            (gw_getBoardColumns boardId));
         await columnMap ← lift (build_columnMap columns);
         on_cache (insert (cacheKey boardId) columnMap) ;;
         ret columnMap)
        (fun error =>
           await message ← lift (message_text error);
           throw (Error ("Failed to fetch column settings for board " +:+
                         board_key boardId +:+ ": " +:+ message)))
  end.

Definition sanitizeValueForColumnType (v columnType : value) : result value :=
  if is_str "text" columnType then sanitizeText v
  else if is_str "long_text" columnType then sanitizeText v
  else if is_str "email" columnType then sanitizeEmail v
  else if is_str "phone" columnType then sanitizePhone v
  else if is_str "numbers" columnType then sanitizeNumbers v
  else if is_str "date" columnType then sanitizeDate v
  else if is_str "status" columnType then sanitizeStatus v
  else if is_str "dropdown" columnType then sanitizeDropdown v
  else if is_str "checkbox" columnType then sanitizeCheckbox v
  else if is_str "location" columnType then sanitizeLocation v
  else if is_str "board_relation" columnType then sanitizeBoardRelation v
  else Return v.

(** The names every value inherits from [Object.prototype]. *)
Definition object_prototype : list string :=
  ["constructor"; "hasOwnProperty"; "isPrototypeOf"; "propertyIsEnumerable";
   "toLocaleString"; "toString"; "valueOf"; "__proto__"; "__defineGetter__";
   "__defineSetter__"; "__lookupGetter__"; "__lookupSetter__"].

(** [current[key]] for a key computed at run time.  What an object, a list
    or a string has of its own is data.  What is inherited is a function or
    an object of the engine: the run is [Outside].  A plain object inherits
    the names of [Object.prototype]; which names a list, a string, a number
    or a boolean inherits depends on the engine, so every name they do not
    have of their own is left outside as well. *)
Definition computed_member (current : value) (key : string) : result value :=
  match current with
  | VUndef | VNull => member current key
  | VObj props =>
      match own props key with
      | Some v => Return v
      | None => if existsb (String.eqb key) object_prototype then Outside else Return VUndef
      end
  | VArr _ | VStr _ =>
      if String.eqb key "length" then Return (get_prop current key)
      else match parse_index key with
           | Some _ => Return (get_prop current key)
           | None => Outside
           end
  | VNum _ | VBool _ => Outside
  end.

(** The callback of the reduction in [getNestedValue]. *)
Definition nested_step (current : result value) (key : string) : result value :=
  let? current := current in
  if truthy current then
    let? v := computed_member current key in
    if negb (is_undefined v) then computed_member current key else Return VUndef
  else Return VUndef.

Definition getNestedValue (obj path : value) : result value :=
  match path with
  | VStr p => fold_left nested_step (split_on "." p) (Return obj)
  | VUndef | VNull => Throw (TypeError "Cannot read properties of undefined (reading 'split')")
  | _ => Throw (TypeError "path.split is not a function")
  end.

(** [{...o}] for the object at [l]: a new object with the same properties. *)
Definition spread (l : nat) : M (list (list (string * value))) nat :=
  fun h => (Return (length h), h ++ [default [] (h !! l)]).

(** [o.k = v] for the object at [l] *)
Definition store_set (l : nat) (k : string) (v : value) : M (list (list (string * value))) unit :=
  modify (fun h => match h !! l with
                   | Some props => <[l := obj_set props k v]> h
                   | None => h
                   end).

(** An entry of a mapping configuration: its key and the reference it holds. *)
Fixpoint entry_set (config : list (string * nat)) (k : string) (l : nat) : list (string * nat) :=
  match config with
  | [] => [(k, l)]
  | (k', l') :: rest =>
      if String.eqb k' k then (k, l) :: rest else (k', l') :: entry_set rest k l
  end.

Fixpoint entry_get (config : list (string * nat)) (k : string) : option nat :=
  match config with
  | [] => None
  | (k', l) :: rest => if String.eqb k' k then Some l else entry_get rest k
  end.

(** The body of the loop of [populateConfigValues], for one entry of
    [Object.entries(mappingConfig)]. *)
Definition populate_entry (externalData : value) (populatedConfig : list (string * nat))
    (entry : string * nat) : M (list (list (string * value))) (list (string * nat)) :=
  let '(configKey, l) := entry in
  await h ← get;
  await copy ← spread l;
  let populatedConfig := entry_set populatedConfig configKey copy in
  match h !! l with
  | None => throw (TypeError "Cannot read properties of undefined (reading 'in_remote')")
  | Some configData =>
      (if truthy (get_prop (VObj configData) "in_remote") &&
          truthy (get_prop (VObj configData) "remote_key")
       then
         await remoteValue ← lift (getNestedValue externalData
                                     (get_prop (VObj configData) "remote_key"));
         if negb (is_undefined remoteValue)
         then match entry_get populatedConfig configKey with
              | Some target => store_set target "value" remoteValue
              | None => throw (TypeError "Cannot set properties of undefined (setting 'value')")
              end
         else ret tt
       else ret tt) ;;
      ret populatedConfig
  end.

Fixpoint populate_entries (entries : list (string * nat)) (externalData : value)
    (populatedConfig : list (string * nat)) : M (list (list (string * value))) (list (string * nat)) :=
  match entries with
  | [] => ret populatedConfig
  | entry :: rest =>
      await populatedConfig ← populate_entry externalData populatedConfig entry;
      populate_entries rest externalData populatedConfig
  end.

Definition populateConfigValues (mappingConfig : list (string * nat)) (externalData : value)
  : M (list (list (string * value))) (list (string * nat)) :=
  populate_entries mappingConfig externalData [].

(** The loop of [processMapping] over [Object.entries(populatedConfig)]. *)
Fixpoint build_columnValues (h : list (list (string * value))) (columnMap : gmap string value)
    (entries : list (string * nat)) (columnValues : list (string * value))
  : result (list (string * value)) :=
  match entries with
  | [] => Return columnValues
  | (configKey, l) :: rest =>
      match h !! l with
      | None => Throw (TypeError "Cannot read properties of undefined (reading 'in_monday')")
      | Some configData =>
          if negb (truthy (get_prop (VObj configData) "in_monday"))
          then build_columnValues h columnMap rest columnValues
          else
            match columnMap !! configKey with
            | Some columnInfo =>
                let? sanitizedValue :=
                  sanitizeValueForColumnType (get_prop (VObj configData) "value")
                                             (get_prop columnInfo "type") in
                if negb (is_null sanitizedValue) then
                  let? id := to_String (get_prop columnInfo "id") in
                  build_columnValues h columnMap rest (obj_set columnValues id sanitizedValue)
                else build_columnValues h columnMap rest columnValues
            | None => build_columnValues h columnMap rest columnValues
            end
      end
  end.

Definition processMapping (mappingConfig : list (string * nat)) (externalData : value)
    (boardId : N) : M MondayDynamicMapper value :=
  await populatedConfig ← on_objects (populateConfigValues mappingConfig externalData);
  await columnMap ← fetchBoardColumnSettings boardId;
  await this ← get;
  await columnValues ← lift (build_columnValues (objects this) columnMap populatedConfig []);
  ret (VObj columnValues).

Definition createOrUpdateItem (boardId : N) (mappingConfig : list (string * nat))
    (externalData : value) (itemName : string) (itemId : value)
  : M MondayDynamicMapper value :=
  await columnValues ← processMapping mappingConfig externalData boardId;
  if truthy itemId
  then on_gateway (invoke (UpdateItemCall itemId boardId columnValues)
                          (gw_updateItem itemId boardId columnValues))
  else on_gateway (invoke (CreateItemCall boardId itemName columnValues None)
                          (gw_createItem boardId itemName columnValues None)).

(** [clearColumnCache(boardId = null)]: [None] is the absent argument; the
    board id [0] is falsy as well. *)
Definition clearColumnCache (boardId : option N) : M MondayDynamicMapper unit :=
  match boardId with
  | Some (Npos p) => on_cache (delete (cacheKey (Npos p)))
  | _ => on_cache (fun _ => ∅)
  end.

(** ** MondayErrorLogger (lines 728-837) *)

Record errorData := {
  projectName : value;
  clientName : value;
  workflow : value;
  error : value;
  description : value;
  errorType : value;
  clientWarnEmail : value;
  payload : value
}.

(** ["À configurer"], the accented capital being character 192. *)
Definition a_configurer : string := String "192"%char " configurer".

(** [workingColumns.k.value = x].  A class body is strict code, so the
    assignment throws on a primitive as it does on [null] and [undefined].
    An array takes the property, which nothing reads back: the loop below
    skips a column without [monday_id]. *)
Definition assign_value (workingColumns : value) (k : string) (x : value) : result value :=
  let? column := member workingColumns k in
  match column with
  | VUndef => Throw (TypeError ("Cannot set properties of undefined (setting 'value')"))
  | VNull => Throw (TypeError ("Cannot set properties of null (setting 'value')"))
  | VObj props =>
      match workingColumns with
      | VObj columns => Return (VObj (obj_set columns k (VObj (obj_set props "value" x))))
      | _ => Return workingColumns
      end
  | VArr _ => Return workingColumns
  | _ => Throw (TypeError ("Cannot create property 'value' on a primitive"))
  end.

(** The loop [for (const key in workingColumns)]. *)
Fixpoint collect_columnValues (columns : list (string * value))
    (columnValues : list (string * value)) : result (list (string * value)) :=
  match columns with
  | [] => Return columnValues
  | (key, column) :: rest =>
      let? monday_id := member column "monday_id" in
      let mondayColId := js_or monday_id (VStr "") in
      let mondayColType := js_or (get_prop column "monday_type") (VStr "") in
      let mondayVal := js_or (get_prop column "value") (VStr "") in
      if negb (truthy mondayColId) then collect_columnValues rest columnValues
      else if is_str "mirror" mondayColType then collect_columnValues rest columnValues
      else
        let? mondayVal :=
          (if is_str "numbers" mondayColType then sanitizeNumbers mondayVal
           else Return mondayVal) in
        if negb (truthy mondayVal) && negb (is_zero mondayVal)
        then collect_columnValues rest columnValues
        else
          let? id := to_String mondayColId in
          collect_columnValues rest (obj_set columnValues id mondayVal)
  end.

Definition own_properties (v : value) : list (string * value) :=
  match v with
  | VObj props => props
  | _ => []
  end.

(** [`${projectName} - ${clientName} - ${workflow} - ${error}`] *)
Definition error_name (data : errorData) : result string :=
  let? p := to_String (projectName data) in
  let? c := to_String (clientName data) in
  let? w := to_String (workflow data) in
  let? e := to_String (error data) in
  Return (p +:+ " - " +:+ c +:+ " - " +:+ w +:+ " - " +:+ e).

(** The eight assignments [workingColumns.k.value = ...], in order. *)
Definition assignments (data : errorData) (errorName : string) : list (string * value) :=
  [("client", js_or (clientName data) (VStr a_configurer));
   ("client_warn_email", js_or (clientWarnEmail data) (VStr ""));
   ("description", js_or (description data) (VStr errorName));
   ("erreur", VStr errorName);
   ("payload", if String.eqb (typeof (payload data)) "string" then payload data
               else VStr (JSON_stringify (js_or (payload data) (VObj []))));
   ("workflow", workflow data);
   ("projet", js_or (projectName data) (VStr a_configurer));
   ("error_type", if is_undefined (errorType data) then VStr "dev" else errorType data)].

Fixpoint assign_values (workingColumns : value) (todo : list (string * value)) : result value :=
  match todo with
  | [] => Return workingColumns
  | (k, x) :: rest =>
      let? workingColumns := assign_value workingColumns k x in
      assign_values workingColumns rest
  end.

(** Everything [logError] does before its [try]: the column values of the
    item to create. *)
Definition error_columnValues (columns : value) (data : errorData) (errorName : string)
  : result (list (string * value)) :=
  let? workingColumns := json_clone columns in
  let? workingColumns := assign_values workingColumns (assignments data errorName) in
  collect_columnValues (own_properties workingColumns) [].

Definition logError (boardId : N) (columns : value) (data : errorData) : M service value :=
  await errorName ← lift (error_name data);
  await columnValues ← lift (error_columnValues columns data errorName);
  try_catch
    (await response ← invoke (CreateItemCall boardId errorName (VObj columnValues) (Some true))
                             (gw_createItem boardId errorName (VObj columnValues) (Some true));
     await data' ← lift (member response "data");
     let mondayId := js_or (opt_member (opt_member data' "create_item") "id") (VNum (Dec 0 O)) in
     let finalErrorName :=
       if negb (truthy mondayId) then "***NOT SAVED IN MONDAY - " +:+ errorName
       else errorName in
     ret (VObj [("monday_id", mondayId);
                ("error", VStr finalErrorName);
                ("description", js_or (description data) (VStr errorName))]))
    (fun error =>
       await message ← lift (message_text error);
       ret (VObj [("monday_id", VNum (Dec 0 O));
                  ("error", VStr ("***ERROR SAVING TO MONDAY - " +:+ errorName));
                  ("description", VStr ("Failed to save: " +:+ message))])).

End Services.

(** ** RetryConfig (lines 12-25)

    [new RetryConfig(options)]: the properties of the new object.  The
    default [{}] stands in for [undefined] only, so reading the options of
    [null] throws. *)
Definition default_retryableErrors : value :=
  VArr [VStr "NETWORK_ERROR"; VStr "TIMEOUT_ERROR"; VStr "SERVER_ERROR";
        VStr "RATE_LIMIT_ERROR"; VStr "TEMPORARY_ERROR"].

Definition RetryConfig (options : value) : result (list (string * value)) :=
  let options := if is_undefined options then VObj [] else options in
  let? maxRetries := member options "maxRetries" in
  let? delays := member options "delays" in
  let? retryableErrors := member options "retryableErrors" in
  let? columns := member options "columns" in
  Return [("maxRetries", js_or maxRetries (VNum (Dec 1 O)));
          ("delays", js_or delays (VArr [VNum (Dec 30000 O)]));
          ("retryableErrors", js_or retryableErrors default_retryableErrors);
          ("board_columns", js_or columns (VObj []))].

(** ** isRetryableError (lines 33-72)

    [statusCode] is [None] for the default [null]. *)
Definition retryablePatterns : list string :=
  ["timeout"; "rate limit"; "server error"; "internal error"; "service unavailable";
   "temporarily unavailable"; "complexity budget"; "too many requests"].

Definition isRetryableError (error : exn) (statusCode : option Z) : bool :=
  let code := default VUndef (own (e_props error) "code") in
  if is_str "ECONNRESET" code || is_str "ENOTFOUND" code ||
     is_str "ECONNREFUSED" code || is_str "ETIMEDOUT" code
  then true
  else if match statusCode with
          | Some statusCode =>
              if negb (statusCode =? 0) then
                if (500 <=? statusCode) && (statusCode <? 600) then true
                else if statusCode =? 429 then true
                else if (statusCode =? 502) || (statusCode =? 503) || (statusCode =? 504)
                then true
                else false
              else false
          | None => false
          end
  then true
  else
    let errorMessage := toLowerCase (e_message error) in
    existsb (fun pattern => includes pattern errorMessage) retryablePatterns.





(** ** The legacy functions (lines 847-890) *)
Record errorConfig := {
  mondayApiKey : string;
  boardId : N;
  columns : value;
  retryConfig : value
}.

Definition createErrorConfig (mondayApiKey : string) (boardId : N) (columns retryConfig : value)
  : errorConfig :=
  {| mondayApiKey := mondayApiKey; boardId := boardId; columns := columns;
     retryConfig := retryConfig |}.

(** The client takes the retry configuration and hands it to [withRetry],
    which does not read it. *)
Definition logErrorToMonday (config : errorConfig) (data : errorData)
  : result value * @service MondayApiClient :=
  logError (gw := MondayApiClient_Gateway) (boardId config) (columns config) data
    {| mondayApiClient := new_MondayApiClient (mondayApiKey config); calls := [] |}.

Definition fetchMonday (apiKey : string) (q : string) : result value * MondayApiClient :=
  query q [] (new_MondayApiClient apiKey).

Definition cleanNumbers (v : value) : result value :=
  let? r := sanitizeNumbers v in
  Return (if is_null r then VNum (Dec 0 O) else r).

End Source.

(** * Specification-side definitions *)

(** The characters [sanitizeNumbers] keeps. *)
Definition numeric (c : ascii) : bool := is_digit c || Ascii.eqb "." c.

Definition not_dot (c : ascii) : bool := negb (Ascii.eqb "." c).

(** "Collapses multiple dots into one": the first dot stays, the later ones
    go. *)
Fixpoint keep_first_dot (s : string) : string :=
  match s with
  | EmptyString => EmptyString
  | String c s' =>
      if Ascii.eqb "." c then String "." (string_filter not_dot s')
      else String c (keep_first_dot s')
  end.

(** The digits of a string before its first dot. *)
Fixpoint integer_digits (s : string) : string :=
  match s with
  | EmptyString => EmptyString
  | String c s' =>
      if Ascii.eqb "." c then EmptyString
      else if is_digit c then String c (integer_digits s') else integer_digits s'
  end.

(** The digits of a string after its first dot. *)
Fixpoint fraction_digits (s : string) : string :=
  match s with
  | EmptyString => EmptyString
  | String c s' => if Ascii.eqb "." c then string_filter is_digit s' else fraction_digits s'
  end.

(** What the specification says of a string: everything but digits and dots
    is stripped, the first dot is the decimal point and the later ones are
    dropped, a minus sign at the head of the trimmed string is kept; [null]
    when no digit remains.  The number is the double nearest to the decimal
    so written. *)
Definition sanitized_number (s : string) : value :=
  match integer_digits s +:+ fraction_digits s with
  | EmptyString => VNull
  | ds =>
      let n := double_of (digits_value ds) (String.length (fraction_digits s)) in
      VNum (if startsWith "-" (trim s) then negate n else n)
  end.

(** "Preserves a leading minus sign": the sign applied to a number. *)
Definition with_sign (neg : bool) (r : result value) : result value :=
  match r with
  | Return (VNum n) => Return (VNum (if neg then negate n else n))
  | _ => r
  end.

(** [n] copies of a character: a run of braces. *)
Fixpoint braces (c : ascii) (n : nat) : string :=
  match n with
  | O => EmptyString
  | S n' => String c (braces c n')
  end.

Definition no_brace (c : ascii) : bool := not_in [is_char "{"; is_char "}"] c.
Definition no_open_brace (c : ascii) : bool := negb (is_char "{" c).

Definition starts_with_char (c : ascii) (s : string) : bool :=
  match s with
  | String c' _ => Ascii.eqb c c'
  | EmptyString => false
  end.

(** The next character, if any, is outside the class [p]. *)
Definition head_fails (p : ascii → bool) (s : string) : Prop :=
  match s with
  | String c _ => p c = false
  | EmptyString => True
  end.

Fixpoint lits (s : string) : list seg :=
  match s with
  | EmptyString => []
  | String c s' => Lit c :: lits s'
  end.

(** A board column as the [GetBoardColumns] query returns it. *)
Definition board_column (id title type description settings_str : value) : value :=
  VObj [("id", id); ("title", title); ("type", type);
        ("description", description); ("settings_str", settings_str)].

(** "Each path segment exists and is non-undefined at every level", as the
    specification words the resolution of a dotted path. *)
Fixpoint resolve_path (current : value) (segments : list string) : option value :=
  match segments with
  | [] => Some current
  | key :: rest =>
      if is_undefined (get_prop current key) then None
      else resolve_path (get_prop current key) rest
  end.

(** The same walk when, in addition, every value passed through has to be
    truthy. *)
Fixpoint resolve_truthy (current : value) (segments : list string) : option value :=
  match segments with
  | [] => Some current
  | key :: rest =>
      if truthy current && negb (is_undefined (get_prop current key))
      then resolve_truthy (get_prop current key) rest
      else None
  end.

(** A Field Rule after the populate step. *)
Definition populated (externalData : value) (rule : list (string * value)) : list (string * value) :=
  if truthy (get_prop (VObj rule) "in_remote") && truthy (get_prop (VObj rule) "remote_key")
  then match getNestedValue externalData (get_prop (VObj rule) "remote_key") with
       | Return v => if is_undefined v then rule else obj_set rule "value" v
       | _ => rule
       end
  else rule.

(** * Sample data *)

(** The Field Rule and the external record of the specification's
    [processMapping] example. *)
Definition client_rule : list (string * value) :=
  [("remote_key", VStr "Customer.Id"); ("in_remote", VBool true); ("in_monday", VBool true)].

Definition customer_data : value := VObj [("Customer", VObj [("Id", VStr "42")])].



(** The mapper with another store of objects. *)
Definition with_objects {G : Type} (h : list (list (string * value)))
    (this : @MondayDynamicMapper G) : @MondayDynamicMapper G :=
  {| gateway := gateway this; columnSettingsCache := columnSettingsCache this; objects := h |}.

(** A runtime for the closed examples, none of which parses JSON or a date:
    it accepts no JSON text and no date. *)
Definition plain_runtime : Runtime :=
  {| JSON_parse := fun _ => None;
     JSON_stringify := fun _ => "{}";
     Date_new := fun _ => Return None |}.

(** A board with one text column, tagged [client_id], and a remote system
    that answers every request with it. *)
Definition sample_columns : value :=
  VArr [board_column (VStr "col1") (VStr "Client") (VStr "text")
                     (VStr "Customer number {{client_id}}") (VStr "{}")].

Definition sample_response : response :=
  {| ok := true; status := 200; statusText := "OK"; text := Some "";
     json := Parsed (VObj [("data",
                             VObj [("boards", VArr [VObj [("columns", sample_columns)]])])]) |}.

Definition sample_remote : list request → request → fetch_outcome :=
  fun _ _ => Resolved sample_response.

(** A mapper on a new client of that remote system, over a store that holds
    the example's Field Rule. *)
Definition sample_mapper : @MondayDynamicMapper MondayApiClient :=
  new_MondayDynamicMapper (new_MondayApiClient "key") [client_rule].

Definition sample_gateway : Gateway MondayApiClient :=
  @MondayApiClient_Gateway plain_runtime sample_remote.

(** The client after posting one more request. *)
Definition after_post (c : MondayApiClient) (payload : value) : MondayApiClient :=
  {| apiKey := apiKey c; baseUrl := baseUrl c; board_columns := board_columns c;
     posted := posted c ++ [request_of c payload]; slept := slept c |}.

(** The client after waiting. *)
Definition after_sleep (ms : Z) (c : MondayApiClient) : MondayApiClient :=
  {| apiKey := apiKey c; baseUrl := baseUrl c; board_columns := board_columns c;
     posted := posted c; slept := slept c + ms |}.

(** A remote system that rejects every query for its complexity. *)
Definition complexity_result : value :=
  VObj [("data", VNull);
        ("errors", VArr [VObj [("message", VStr "Complexity budget exhausted")]])].

Definition complexity_remote : list request → request → fetch_outcome :=
  fun _ _ => Resolved {| ok := true; status := 200; statusText := "OK"; text := Some "";
                         json := Parsed complexity_result |}.

(** A substitute Gateway every call of which rejects with [null]. *)
Definition rejecting_gateway : Gateway unit :=
  {| gw_getBoardColumns := fun _ => throw (OtherValue VNull);
     gw_createItem := fun _ _ _ _ => throw (OtherValue VNull);
     gw_updateItem := fun _ _ _ => throw (OtherValue VNull) |}.

(** A substitute Gateway without state, every call of which fails. *)
Definition failing_gateway : Gateway unit :=
  {| gw_getBoardColumns := fun _ => throw (Error "connect ECONNREFUSED");
     gw_createItem := fun _ _ _ _ => throw (Error "connect ECONNREFUSED");
     gw_updateItem := fun _ _ _ => throw (Error "connect ECONNREFUSED") |}.

(** The column configuration of an error board, and an error to log. *)
Definition error_columns : value :=
  VObj [("client", VObj [("monday_id", VStr "text1"); ("monday_type", VStr "text")]);
        ("client_warn_email", VObj [("monday_id", VStr "email1"); ("monday_type", VStr "text")]);
        ("description", VObj [("monday_id", VStr "long1"); ("monday_type", VStr "long_text")]);
        ("erreur", VObj [("monday_id", VStr "text2"); ("monday_type", VStr "text")]);
        ("payload", VObj [("monday_id", VStr "long2"); ("monday_type", VStr "long_text")]);
        ("workflow", VObj [("monday_id", VStr "text3"); ("monday_type", VStr "text")]);
        ("projet", VObj [("monday_id", VStr "text4"); ("monday_type", VStr "text")]);
        ("error_type", VObj [("monday_id", VStr "status1"); ("monday_type", VStr "status")])].

Definition sample_error : errorData :=
  {| projectName := VStr "Sync"; clientName := VStr "Acme"; workflow := VStr "invoices";
     error := VStr "boom"; description := VUndef; errorType := VUndef;
     clientWarnEmail := VUndef; payload := VStr "{}" |}.

(** What is thrown is a [TypeError]. *)
Definition type_error (t : thrown) : Prop :=
  ∃ e : exn, t = ErrorObject e ∧ e_class e = TypeErrorC.

(** The keys [logError] assigns on the column configuration. *)
Definition required_columns : list string :=
  ["client"; "client_warn_email"; "description"; "erreur"; "payload"; "workflow";
   "projet"; "error_type"].

(** A Field Rule whose [remote_key], where it is used, resolves within the
    data: the walk reads own properties, list indices and lengths only. *)
Definition within_data (externalData : value) (rule : list (string * value)) : Prop :=
  truthy (get_prop (VObj rule) "in_remote") && truthy (get_prop (VObj rule) "remote_key") = true →
  ∃ v, getNestedValue externalData (get_prop (VObj rule) "remote_key") = Return v.

(** [result.errors && result.errors.length > 0] on a response body: [None]
    when the test throws, as it does on the body [null]. *)
Definition lists_errors (body : value) : option bool :=
  match member body "errors" with
  | Return errors =>
      if truthy errors then
        match gt_zero (get_prop errors "length") with
        | Return listed => Some listed
        | _ => None
        end
      else Some false
  | _ => None
  end.

(** The body [query] hands back, if any: the response has a success status,
    its body parses, is not [null] and lists no error. *)
Definition accepted (outcome : fetch_outcome) : option value :=
  match outcome with
  | Rejected _ => None
  | Resolved r =>
      if ok r then
        match json r with
        | Parsed body =>
            match lists_errors body with
            | Some false => Some body
            | _ => None
            end
        | Unparsable _ => None
        end
      else None
  end.

(** The client once it remembers the columns of a board. *)
Definition remembering (boardId : N) (columns : value) (c : MondayApiClient) : MondayApiClient :=
  {| apiKey := apiKey c; baseUrl := baseUrl c;
     board_columns := <[boardId := columns]> (board_columns c);
     posted := posted c; slept := slept c |}.

(** A remote system that is down. *)
Definition dead_remote : list request → request → fetch_outcome :=
  fun _ _ => Rejected (mkExn ErrorC "fetch failed" [("code", VStr "ECONNREFUSED")]).

(** The column types [sanitizeValueForColumnType] knows. *)
Definition column_types : list string :=
  ["text"; "long_text"; "email"; "phone"; "numbers"; "date"; "status"; "dropdown";
   "checkbox"; "location"; "board_relation"].

Definition known_type (columnType : value) : bool :=
  existsb (fun t => is_str t columnType) column_types.

(** A part of an e-mail address: not empty, without white space and [@]. *)
Definition email_part (s : string) : Prop :=
  s ≠ "" ∧ string_forallb (not_in [is_space; is_char "@"]) s = true.

(** [local@domain.tld] *)
Definition well_formed_email (s : string) : Prop :=
  ∃ local domain tld,
    s = local +:+ "@" +:+ domain +:+ "." +:+ tld ∧
    email_part local ∧ email_part domain ∧ email_part tld.

(** A value in whose text [sanitizeNumbers] finds no digit. *)
Definition digitless (v : value) : bool :=
  match v with
  | VStr s => string_forallb (fun c => negb (is_digit c)) s
  | VNum n => isNaN n
  | VArr _ => false
  | _ => true
  end.

(** * Properties *)

(** A get of the schema cache, laid open down to the state it passes along. *)
Ltac unfold_fetch :=
  unfold fetchBoardColumnSettings, bind, get, try_catch, on_gateway, invoke, lift,
    on_cache, modify, ret, throw.

(** ** Strings and regular expressions *)

Lemma length_tail_sub (c : ascii) (s : string) :
  (String.length (String c s) - String.length s)%nat = 1%nat.
Proof. simpl. lia. Qed.

(** Replacing every match of a one-character class by nothing keeps the
    characters outside the class. *)
Lemma replace_class_filter (p : ascii → bool) (s : string) :
  js_replace_g [[AChar p]] "" s = string_filter (fun c => negb (p c)) s.
Proof.
  unfold js_replace_g. generalize true.
  induction s as [|c s IH]; intros bol; [reflexivity|].
  cbn [scan exec_at match_seq].
  destruct (p c) eqn:Hp; cbn [negb string_filter].
  - rewrite length_tail_sub. cbn [fold_right]. simpl. rewrite Hp. apply IH.
  - cbn [fold_right]. rewrite Hp. simpl. f_equal. apply IH.
Qed.

Lemma nonNumeric_filter (s : string) :
  js_replace_g nonNumeric "" s = string_filter numeric s.
Proof.
  unfold nonNumeric. rewrite replace_class_filter.
  induction s as [|c s IH]; [reflexivity|].
  cbn [string_filter]. rewrite IH.
  replace (negb (not_in [is_digit; is_char "."] c)) with (numeric c); [done|].
  unfold not_in, numeric, is_char. cbn [existsb]. rewrite orb_false_r, negb_involutive. done.
Qed.

Lemma string_rev_onto_twice (s a b : string) :
  string_rev_onto (string_rev_onto s a) b = string_rev_onto a (s +:+ b).
Proof.
  revert a b. induction s as [|c s IH]; intros a b; [reflexivity|].
  cbn [string_rev_onto]. rewrite IH. reflexivity.
Qed.

Lemma string_app_cons (c : ascii) (s t : string) :
  String c s +:+ t = String c (s +:+ t).
Proof. reflexivity. Qed.

Lemma string_app_empty_r (s : string) : s +:+ "" = s.
Proof. induction s as [|c s IH]; [reflexivity|]. by rewrite string_app_cons, IH. Qed.

Lemma string_app_assoc (s t u : string) : (s +:+ t) +:+ u = s +:+ t +:+ u.
Proof. induction s as [|c s IH]; [reflexivity|]. by rewrite !string_app_cons, IH. Qed.

Lemma string_rev_involutive (s : string) : string_rev (string_rev s) = s.
Proof.
  unfold string_rev. rewrite string_rev_onto_twice.
  cbn [string_rev_onto]. apply string_app_empty_r.
Qed.

Lemma forallb_rev_onto (p : ascii → bool) (s a : string) :
  string_forallb p (string_rev_onto s a) = string_forallb p s && string_forallb p a.
Proof.
  revert a. induction s as [|c s IH]; intros a; [reflexivity|].
  cbn [string_rev_onto string_forallb]. rewrite IH. cbn [string_forallb].
  destruct (p c), (string_forallb p s); reflexivity.
Qed.

Lemma trimStart_id (p : ascii → bool) (s : string) :
  (∀ c, p c = true → is_space c = false) →
  string_forallb p s = true → trimStart s = s.
Proof.
  intros Hp. destruct s as [|c s]; [reflexivity|].
  cbn [string_forallb trimStart]. intros [Hc _]%andb_true_iff.
  by rewrite (Hp c Hc).
Qed.

Lemma trim_id (p : ascii → bool) (s : string) :
  (∀ c, p c = true → is_space c = false) →
  string_forallb p s = true → trim s = s.
Proof.
  intros Hp Hs. unfold trim.
  rewrite (trimStart_id p s Hp Hs).
  rewrite (trimStart_id p (string_rev s) Hp).
  - apply string_rev_involutive.
  - unfold string_rev. rewrite forallb_rev_onto, Hs. reflexivity.
Qed.

Lemma forallb_filter (p : ascii → bool) (s : string) :
  string_forallb p (string_filter p s) = true.
Proof.
  induction s as [|c s IH]; [reflexivity|].
  cbn [string_filter]. destruct (p c) eqn:Hc; [|done].
  cbn [string_forallb]. by rewrite Hc.
Qed.

Lemma filter_id (p : ascii → bool) (s : string) :
  string_forallb p s = true → string_filter p s = s.
Proof.
  induction s as [|c s IH]; [reflexivity|].
  cbn [string_forallb string_filter]. intros [Hc Hs]%andb_true_iff.
  rewrite Hc. by rewrite IH.
Qed.

Lemma numeric_not_space (c : ascii) : numeric c = true → is_space c = false.
Proof.
  unfold numeric, is_digit, is_space, code.
  destruct c as [[] [] [] [] [] [] [] []]; vm_compute; intros; congruence.
Qed.

Lemma numeric_not_minus (s : string) :
  string_forallb numeric s = true → startsWith "-" s = false.
Proof.
  destruct s as [|c s]; [reflexivity|].
  cbn [string_forallb]. intros [Hc _]%andb_true_iff.
  unfold startsWith. cbn [String.prefix].
  destruct (ascii_dec "-" c) as [<-|Hne]; [by vm_compute in Hc|done].
Qed.

Lemma sanitizeNumbers_filter (s : string) :
  sanitizeNumbers (VStr s) =
  with_sign (startsWith "-" (trim s)) (sanitizeNumbers (VStr (string_filter numeric s))).
Proof.
  unfold sanitizeNumbers.
  cbn [is_null is_undefined orb typeof isArray to_String rbind is_str].
  pose proof (forallb_filter numeric s) as Ht.
  rewrite !nonNumeric_filter, (filter_id numeric (string_filter numeric s) Ht).
  rewrite (trim_id numeric _ numeric_not_space Ht), (numeric_not_minus _ Ht).
  replace (String.eqb "string" "object") with false by reflexivity.
  cbn [andb]. set (t := string_filter numeric s) in *.
  destruct (String.eqb "" s) eqn:Hs.
  { apply String.eqb_eq in Hs. subst s. reflexivity. }
  destruct (String.eqb t "") eqn:Ht0.
  { apply String.eqb_eq in Ht0. rewrite Ht0. reflexivity. }
  rewrite String.eqb_sym, Ht0.
  cbv zeta. destruct (isNaN _); reflexivity.
Qed.

Lemma split_on_cons (sep : ascii) (s : string) :
  ∃ p ps, split_on sep s = p :: ps.
Proof.
  destruct s as [|c s]; [by eexists _, _|].
  cbn [split_on]. destruct (Ascii.eqb sep c); [by eexists _, _|].
  destruct (split_on sep s); by eexists _, _.
Qed.

Lemma join_empty_cons (p : string) (ps : list string) :
  join "" (p :: ps) = p +:+ join "" ps.
Proof.
  destruct ps as [|q ps]; [by rewrite string_app_empty_r|reflexivity].
Qed.

Lemma join_split_filter (s : string) :
  join "" (split_on "." s) = string_filter not_dot s.
Proof.
  induction s as [|c s IH]; [reflexivity|].
  cbn [split_on string_filter]. unfold not_dot at 1.
  destruct (Ascii.eqb "." c) eqn:Hc; cbn [negb].
  - rewrite join_empty_cons. exact IH.
  - destruct (split_on_cons "." s) as (p & ps & Hs). rewrite Hs in *.
    rewrite join_empty_cons in *. rewrite string_app_cons. by rewrite IH.
Qed.

Lemma split_single (s p : string) : split_on "." s = [p] → string_filter not_dot s = s.
Proof.
  revert p. induction s as [|c s IH]; intros p; [reflexivity|].
  cbn [split_on string_filter]. unfold not_dot at 1.
  destruct (Ascii.eqb "." c) eqn:Hc; cbn [negb].
  - destruct (split_on_cons "." s) as (q & qs & Hs). rewrite Hs. discriminate.
  - destruct (split_on_cons "." s) as (q & qs & Hs). rewrite Hs in *.
    intros [= _ ->]. by rewrite (IH q).
Qed.

Lemma collapse_dots (s : string) :
  (if (2 <? length (split_on "." s))%nat
   then hd "" (split_on "." s) +:+ "." +:+ join "" (tl (split_on "." s))
   else s) = keep_first_dot s.
Proof.
  induction s as [|c s IH]; [reflexivity|].
  cbn [split_on keep_first_dot].
  destruct (Ascii.eqb "." c) eqn:Hc.
  - apply Ascii.eqb_eq in Hc as <-.
    destruct (split_on_cons "." s) as (p & ps & Hs).
    cbn [hd tl]. rewrite join_split_filter.
    destruct ps as [|q ps]; rewrite Hs; cbn [length Nat.ltb Nat.leb].
    + by rewrite (split_single s p Hs).
    + reflexivity.
  - destruct (split_on_cons "." s) as (p & ps & Hs). rewrite Hs in *.
    cbn [hd tl length] in *. revert IH.
    destruct (2 <? S (length ps))%nat; intros IH.
    + rewrite string_app_cons. by rewrite IH.
    + congruence.
Qed.

Lemma filter_filter_not_dot (s : string) :
  string_filter not_dot (string_filter not_dot s) = string_filter not_dot s.
Proof. apply filter_id, forallb_filter. Qed.

Lemma keep_first_dot_idem (s : string) : keep_first_dot (keep_first_dot s) = keep_first_dot s.
Proof.
  induction s as [|c s IH]; [reflexivity|].
  cbn [keep_first_dot]. destruct (Ascii.eqb "." c) eqn:Hc.
  - cbn [keep_first_dot]. replace (Ascii.eqb "." ".") with true by reflexivity.
    by rewrite filter_filter_not_dot.
  - cbn [keep_first_dot]. by rewrite Hc, IH.
Qed.

Lemma forallb_filter_other (p q : ascii → bool) (s : string) :
  string_forallb p s = true → string_forallb p (string_filter q s) = true.
Proof.
  induction s as [|c s IH]; [reflexivity|].
  cbn [string_forallb string_filter]. intros [Hc Hs]%andb_true_iff.
  destruct (q c); [cbn [string_forallb]; rewrite Hc|]; auto.
Qed.

Lemma keep_first_dot_numeric (s : string) :
  string_forallb numeric s = true → string_forallb numeric (keep_first_dot s) = true.
Proof.
  induction s as [|c s IH]; [reflexivity|].
  cbn [string_forallb keep_first_dot]. intros [Hc Hs]%andb_true_iff.
  destruct (Ascii.eqb "." c); cbn [string_forallb].
  - by apply forallb_filter_other.
  - rewrite Hc. auto.
Qed.

Lemma keep_first_dot_empty (s : string) :
  String.eqb (keep_first_dot s) "" = String.eqb s "".
Proof. destruct s as [|c s]; [reflexivity|]. cbn [keep_first_dot]. by destruct (Ascii.eqb "." c). Qed.

Lemma sanitizeNumbers_collapse (t : string) :
  string_forallb numeric t = true →
  sanitizeNumbers (VStr t) = sanitizeNumbers (VStr (keep_first_dot t)).
Proof.
  intros Ht. pose proof (keep_first_dot_numeric t Ht) as Hk.
  unfold sanitizeNumbers.
  cbn [is_null is_undefined orb typeof isArray to_String rbind is_str].
  rewrite !nonNumeric_filter, (filter_id numeric t Ht), (filter_id numeric _ Hk).
  rewrite (trim_id numeric _ numeric_not_space Ht), (numeric_not_minus _ Ht).
  rewrite (trim_id numeric _ numeric_not_space Hk), (numeric_not_minus _ Hk).
  rewrite !collapse_dots, keep_first_dot_idem, keep_first_dot_empty.
  rewrite (String.eqb_sym "" (keep_first_dot t)), keep_first_dot_empty, (String.eqb_sym t "").
  reflexivity.
Qed.

Lemma no_digit_dots (s : string) :
  string_forallb (fun c => negb (is_digit c)) s = true →
  string_forallb (Ascii.eqb ".") (string_filter numeric s) = true.
Proof.
  induction s as [|c s IH]; [reflexivity|].
  cbn [string_forallb string_filter]. intros [Hc Hs]%andb_true_iff.
  unfold numeric at 1. apply negb_true_iff in Hc. rewrite Hc. cbn [orb].
  destruct (Ascii.eqb "." c) eqn:Hd; [cbn [string_forallb]; rewrite Hd|]; auto.
Qed.

Lemma filter_not_dot_dots (s : string) :
  string_forallb (Ascii.eqb ".") s = true → string_filter not_dot s = "".
Proof.
  induction s as [|c s IH]; [reflexivity|].
  cbn [string_forallb string_filter]. intros [Hc Hs]%andb_true_iff.
  unfold not_dot at 1. rewrite Hc. auto.
Qed.

Lemma dots_numeric (s : string) :
  string_forallb (Ascii.eqb ".") s = true → string_forallb numeric s = true.
Proof.
  induction s as [|c s IH]; [reflexivity|].
  cbn [string_forallb]. intros [Hc Hs]%andb_true_iff.
  unfold numeric at 1. rewrite Hc, orb_true_r. auto.
Qed.

Lemma sanitizeNumbers_dots (t : string) :
  string_forallb (Ascii.eqb ".") t = true → sanitizeNumbers (VStr t) = Return VNull.
Proof.
  intros Hd. rewrite (sanitizeNumbers_collapse t (dots_numeric t Hd)).
  destruct t as [|c t]; [reflexivity|].
  cbn [string_forallb] in Hd. apply andb_true_iff in Hd as [Hc Hd].
  cbn [keep_first_dot]. rewrite Hc, (filter_not_dot_dots t Hd). reflexivity.
Qed.

(** ** The number a string denotes *)

Lemma normalize_number (m : Z) (e : nat) : isNaN (normalize m e) = false.
Proof.
  revert m. induction e as [|e IH]; intros m; [reflexivity|].
  cbn [normalize]. destruct (m mod 10 =? 0); [apply IH|reflexivity].
Qed.

Lemma nearest_double_number (p q : Z) : isNaN (nearest_double p q) = false.
Proof.
  unfold nearest_double.
  destruct p as [|p|p]; [reflexivity| |];
    (destruct (SFdiv _ _ _ _) as [| | |negative m e]; try reflexivity;
     unfold of_binary; destruct e; try reflexivity; apply normalize_number).
Qed.

(** Rounding to a double gives a number. *)
Lemma double_of_number (m : Z) (e : nat) : isNaN (double_of m e) = false.
Proof.
  unfold double_of, nearest_decimal. destruct (- Z.of_nat e); apply nearest_double_number.
Qed.

Lemma take_digits_app (ds r : string) :
  string_forallb is_digit ds = true → head_fails is_digit r →
  take_digits (ds +:+ r) = (ds, r).
Proof.
  intros Hds Hr. induction ds as [|c ds IH].
  - change ("" +:+ r) with r. destruct r as [|c r]; [reflexivity|].
    cbn [take_digits]. cbn in Hr. by rewrite Hr.
  - cbn [string_forallb] in Hds. apply andb_true_iff in Hds as [Hc Hds].
    rewrite string_app_cons. cbn [take_digits]. by rewrite Hc, (IH Hds).
Qed.

Lemma filter_numeric_digits (s : string) :
  string_filter not_dot (string_filter numeric s) = string_filter is_digit s.
Proof.
  induction s as [|c s IH]; [reflexivity|].
  cbn [string_filter]. unfold numeric at 1.
  destruct (Ascii.eqb "." c) eqn:Hdot.
  - rewrite orb_true_r. cbn [string_filter]. unfold not_dot at 1. rewrite Hdot. cbn [negb].
    apply Ascii.eqb_eq in Hdot as <-. exact IH.
  - rewrite orb_false_r. destruct (is_digit c); [|exact IH].
    cbn [string_filter]. unfold not_dot at 1. rewrite Hdot. cbn [negb]. by rewrite IH.
Qed.

(** What is left of a string once it is filtered and its dots collapsed. *)
Lemma keep_first_dot_digits (s : string) :
  keep_first_dot (string_filter numeric s) =
  if includes_char "." s then integer_digits s +:+ "." +:+ fraction_digits s
  else integer_digits s.
Proof.
  induction s as [|c s IH]; [reflexivity|].
  cbn [string_filter includes_char integer_digits fraction_digits]. unfold numeric at 1.
  destruct (Ascii.eqb "." c) eqn:Hdot.
  - rewrite orb_true_r. cbn [keep_first_dot orb]. rewrite Hdot.
    apply Ascii.eqb_eq in Hdot as <-. by rewrite filter_numeric_digits.
  - rewrite orb_false_r. cbn [orb]. destruct (is_digit c).
    + cbn [keep_first_dot]. rewrite Hdot, IH. by destruct (includes_char "." s).
    + exact IH.
Qed.

Lemma integer_digits_digits (s : string) : string_forallb is_digit (integer_digits s) = true.
Proof.
  induction s as [|c s IH]; [reflexivity|].
  cbn [integer_digits]. destruct (Ascii.eqb "." c); [reflexivity|].
  destruct (is_digit c) eqn:Hc; [|exact IH]. cbn [string_forallb]. by rewrite Hc.
Qed.

Lemma fraction_digits_digits (s : string) : string_forallb is_digit (fraction_digits s) = true.
Proof.
  induction s as [|c s IH]; [reflexivity|].
  cbn [fraction_digits]. destruct (Ascii.eqb "." c); [apply forallb_filter|exact IH].
Qed.

Lemma digits_numeric (ds : string) :
  string_forallb is_digit ds = true → string_forallb numeric ds = true.
Proof.
  induction ds as [|c ds IH]; [reflexivity|].
  cbn [string_forallb]. intros [Hc Hds]%andb_true_iff.
  unfold numeric at 1. rewrite Hc. cbn [orb andb]. auto.
Qed.

Lemma digits_no_dot (ds : string) :
  string_forallb is_digit ds = true → includes_char "." ds = false.
Proof.
  induction ds as [|c ds IH]; [reflexivity|].
  cbn [string_forallb includes_char]. intros [Hc Hds]%andb_true_iff.
  rewrite (IH Hds), orb_false_r.
  destruct (Ascii.eqb "." c) eqn:Hdot; [|reflexivity].
  apply Ascii.eqb_eq in Hdot as <-. by vm_compute in Hc.
Qed.

Lemma includes_char_app (a : ascii) (s t : string) :
  includes_char a (s +:+ t) = includes_char a s || includes_char a t.
Proof.
  induction s as [|c s IH]; [reflexivity|].
  rewrite string_app_cons. cbn [includes_char]. by rewrite IH, orb_assoc.
Qed.

Lemma forallb_app (p : ascii → bool) (s t : string) :
  string_forallb p (s +:+ t) = string_forallb p s && string_forallb p t.
Proof.
  induction s as [|c s IH]; [reflexivity|].
  rewrite string_app_cons. cbn [string_forallb]. by rewrite IH, andb_assoc.
Qed.

Lemma signed_numeric (u : string) :
  string_forallb numeric u = true → signed u = (false, u).
Proof.
  destruct u as [|c u]; [reflexivity|].
  cbn [string_forallb]. intros [Hc _]%andb_true_iff. unfold signed.
  destruct (ascii_dec c "-") as [->|Hminus]; [by vm_compute in Hc|].
  destruct (ascii_dec c "+") as [->|Hplus]; [by vm_compute in Hc|].
  destruct c as [[] [] [] [] [] [] [] []]; try reflexivity; congruence.
Qed.

Lemma prefix_numeric (u : string) :
  string_forallb numeric u = true → String.prefix "Infinity" u = false.
Proof.
  destruct u as [|c u]; [reflexivity|].
  cbn [string_forallb]. intros [Hc _]%andb_true_iff. cbn [String.prefix].
  destruct (ascii_dec "I" c) as [<-|Hne]; [by vm_compute in Hc|reflexivity].
Qed.

(** [parseInt] on a run of digits. *)
Lemma parseInt_digits (ds : string) :
  string_forallb is_digit ds = true → ds ≠ "" →
  parseInt ds = double_of (digits_value ds) O.
Proof.
  intros Hds Hne. unfold parseInt.
  rewrite (trimStart_id numeric ds numeric_not_space (digits_numeric ds Hds)).
  rewrite (signed_numeric ds (digits_numeric ds Hds)).
  pose proof (take_digits_app ds "" Hds I) as Htake.
  rewrite string_app_empty_r in Htake. rewrite Htake. by destruct ds.
Qed.

(** [parseFloat] on digits, a dot and digits. *)
Lemma parseFloat_digits (ip fp : string) :
  string_forallb is_digit ip = true → string_forallb is_digit fp = true →
  parseFloat (ip +:+ "." +:+ fp) =
  match ip +:+ fp with
  | EmptyString => NaN
  | ds => double_of (digits_value ds) (String.length fp)
  end.
Proof.
  intros Hip Hfp.
  assert (string_forallb numeric (ip +:+ "." +:+ fp) = true) as Hnumeric.
  { rewrite !forallb_app, (digits_numeric ip Hip), (digits_numeric fp Hfp). reflexivity. }
  unfold parseFloat.
  rewrite (trimStart_id numeric _ numeric_not_space Hnumeric), (signed_numeric _ Hnumeric).
  rewrite (prefix_numeric _ Hnumeric). unfold scan_decimal.
  rewrite (take_digits_app ip ("." +:+ fp) Hip eq_refl).
  change ("." +:+ fp) with (String "." fp). cbv beta iota zeta.
  pose proof (take_digits_app fp "" Hfp I) as Htake.
  rewrite string_app_empty_r in Htake. rewrite Htake.
  destruct (ip +:+ fp) as [|c ds] eqn:Hds; [reflexivity|].
  unfold decimal_value. by rewrite Hds.
Qed.

(** [sanitizeNumbers] on a string of digits and dots with one dot at most. *)
Lemma sanitizeNumbers_parse (u : string) :
  string_forallb numeric u = true → keep_first_dot u = u →
  sanitizeNumbers (VStr u) =
  Return (if String.eqb u "" then VNull
          else let n := if includes_char "." u then parseFloat u else parseInt u in
               if isNaN n then VNull else VNum n).
Proof.
  intros Hu Hone. unfold sanitizeNumbers.
  cbn [is_null is_undefined orb typeof isArray to_String rbind is_str].
  rewrite !nonNumeric_filter, (filter_id numeric u Hu).
  rewrite (trim_id numeric _ numeric_not_space Hu), (numeric_not_minus _ Hu).
  rewrite collapse_dots, Hone.
  replace (String.eqb "string" "object") with false by reflexivity. cbn [andb].
  rewrite (String.eqb_sym "" u).
  destruct (String.eqb u ""); [reflexivity|]. cbv zeta.
  by destruct (isNaN _).
Qed.

Lemma includes_dot (ip fp : string) : includes_char "." (ip +:+ "." +:+ fp) = true.
Proof.
  rewrite includes_char_app. change ("." +:+ fp) with (String "." fp).
  cbn [includes_char]. by rewrite Ascii.eqb_refl, orb_true_r.
Qed.

(** The number [sanitizeNumbers] reads from a string. *)
Lemma sanitizeNumbers_value (s : string) :
  sanitizeNumbers (VStr s) = Return (sanitized_number s).
Proof.
  rewrite sanitizeNumbers_filter.
  rewrite (sanitizeNumbers_collapse _ (forallb_filter numeric s)).
  rewrite sanitizeNumbers_parse;
    [|apply keep_first_dot_numeric, forallb_filter|apply keep_first_dot_idem].
  rewrite keep_first_dot_digits. unfold sanitized_number.
  pose proof (integer_digits_digits s) as Hip. pose proof (fraction_digits_digits s) as Hfp.
  destruct (includes_char "." s) eqn:Hdot.
  - rewrite includes_dot, (parseFloat_digits _ _ Hip Hfp).
    assert (String.eqb (integer_digits s +:+ "." +:+ fraction_digits s) "" = false) as ->.
    { destruct (integer_digits s); reflexivity. }
    destruct (integer_digits s +:+ fraction_digits s) as [|c ds] eqn:Hds; [reflexivity|].
    rewrite double_of_number. reflexivity.
  - assert (fraction_digits s = "") as Hnone.
    { clear -Hdot. induction s as [|c s IH]; [reflexivity|].
      cbn [includes_char fraction_digits] in *. apply orb_false_iff in Hdot as [Hc Hs].
      rewrite Hc. by apply IH. }
    rewrite Hnone, string_app_empty_r in *.
    rewrite (digits_no_dot _ Hip).
    destruct (integer_digits s) as [|c ds] eqn:Hds; [reflexivity|].
    rewrite <- Hds in *. rewrite parseInt_digits; [|done|by rewrite Hds].
    replace (String.eqb (integer_digits s) "") with false by (by rewrite Hds).
    rewrite double_of_number. cbn [String.length]. by rewrite Hds.
Qed.

(** ** The sanitizers *)

(** C5.  [sanitizeNumbers("-$1,234.56")] is -1234.56, [sanitizeNumbers("abc")]
    is [null] and [sanitizeNumbers("1.2.3")] is 1.23, the numbers being the
    doubles these literals denote (their exact values are given), which print
    as such.  In general, on every
    string: the result is the number written by the digits of the string with
    its first dot as the decimal point, rounded to a double, negated when the
    trimmed string starts with a minus sign, and [null] when the string has no
    digit.  So the result depends on the digits and dots of the input alone,
    of which only the first dot counts, and a string without any digit gives
    [null]. *)
Theorem sanitizeNumbers_strings (s : string) :
  sanitizeNumbers (VStr "-$1,234.56") = Return (VNum (double_of (-123456) 2)) ∧
  sanitizeNumbers (VStr "abc") = Return VNull ∧
  sanitizeNumbers (VStr "1.2.3") = Return (VNum (double_of 123 2)) ∧
  double_of (-123456) 2 = Dec (-123455999999999994543031789362430572509765625) 41 ∧
  double_of 123 2 = Dec 1229999999999999982236431605997495353221893310546875 51 ∧
  number_to_string (double_of (-123456) 2) = "-1234.56" ∧
  number_to_string (double_of 123 2) = "1.23" ∧
  sanitizeNumbers (VStr s) = Return (sanitized_number s) ∧
  sanitizeNumbers (VStr s) =
    with_sign (startsWith "-" (trim s))
              (sanitizeNumbers (VStr (keep_first_dot (string_filter numeric s)))) ∧
  sanitizeNumbers (VStr (string_filter (fun c => negb (is_digit c)) s)) = Return VNull.
Proof.
  split; [by vm_compute|]. split; [by vm_compute|]. split; [by vm_compute|].
  split; [by vm_compute|]. split; [by vm_compute|].
  split; [by vm_compute|]. split; [by vm_compute|].
  split; [apply sanitizeNumbers_value|]. split.
  - rewrite sanitizeNumbers_filter. f_equal.
    apply sanitizeNumbers_collapse, forallb_filter.
  - rewrite sanitizeNumbers_filter.
    rewrite sanitizeNumbers_dots; [reflexivity|].
    apply no_digit_dots, forallb_filter.
Qed.

(** C6.  The sanitizers are not total: [sanitizeDropdown([null])] throws the
    [TypeError] of [null.toString()], and so does every array that starts
    with [null] or [undefined]; [sanitizeText] throws on an object whose
    [toString] is not callable, [sanitizeBoardRelation] on an [item_ids] that
    is no array. *)
Theorem sanitizers_throw (rest : list value) :
  sanitizeDropdown (VArr [VNull]) =
    Throw (TypeError "Cannot read properties of null (reading 'toString')") ∧
  sanitizeDropdown (VArr (VNull :: rest)) =
    Throw (TypeError "Cannot read properties of null (reading 'toString')") ∧
  sanitizeDropdown (VArr (VUndef :: rest)) =
    Throw (TypeError "Cannot read properties of undefined (reading 'toString')") ∧
  sanitizeText (VObj [("toString", VNull)]) =
    Throw (TypeError "value.toString is not a function") ∧
  sanitizeBoardRelation (VObj [("item_ids", VStr "12")]) =
    Throw (TypeError "value.item_ids.map is not a function").
Proof. repeat split; reflexivity. Qed.

(** ** Greedy repetition and scanning *)

Lemma plus_k_greedy (p : ascii → bool) (k : string → option string) (run t r : string) :
  string_forallb p run = true → run ≠ "" → head_fails p t → k t = Some r →
  plus_k p k (run +:+ t) = Some r.
Proof.
  intros Hrun Hne Ht Hk. induction run as [|c run IH]; [done|].
  cbn [string_forallb] in Hrun. apply andb_true_iff in Hrun as [Hc Hrun].
  rewrite string_app_cons. cbn [plus_k]. rewrite Hc.
  destruct run as [|c' run].
  - change ("" +:+ t) with t.
    replace (plus_k p k t) with (@None string); [done|].
    destruct t as [|c' t]; [reflexivity|]. cbn [plus_k]. cbn in Ht. by rewrite Ht.
  - by rewrite IH.
Qed.

Lemma braces_forallb (c : ascii) (n : nat) : string_forallb (is_char c) (braces c n) = true.
Proof.
  induction n as [|n IH]; [reflexivity|].
  cbn [braces string_forallb]. rewrite IH. unfold is_char. by rewrite Ascii.eqb_refl.
Qed.

Lemma string_length_app (s t : string) :
  String.length (s +:+ t) = (String.length s + String.length t)%nat.
Proof. induction s as [|c s IH]; [reflexivity|]. rewrite string_app_cons. cbn [String.length]. by rewrite IH. Qed.

Lemma substring_app (m t : string) : substring 0 (String.length m) (m +:+ t) = m.
Proof.
  induction m as [|c m IH].
  - destruct t; reflexivity.
  - rewrite string_app_cons. cbn [String.length substring]. by rewrite IH.
Qed.

Lemma scan_skip (re : regex) (m rest : string) :
  scan re false (String.length m) (m +:+ rest) = scan re false O rest.
Proof.
  induction m as [|c m IH]; [reflexivity|].
  rewrite string_app_cons. cbn [String.length scan]. exact IH.
Qed.

Lemma scan_match (re : regex) (bol : bool) (c : ascii) (m post : string) :
  exec_at re bol (String c m +:+ post) = Some post →
  scan re bol O (String c m +:+ post) = Mat (String c m) :: scan re false O post.
Proof.
  intros Hexec. rewrite string_app_cons in *. cbn [scan]. rewrite Hexec.
  replace (String.length (String c (m +:+ post)) - String.length post)%nat
    with (S (String.length m)) by (cbn [String.length]; rewrite string_length_app; lia).
  rewrite <- string_app_cons.
  change (S (String.length m)) with (String.length (String c m)).
  rewrite substring_app. f_equal. apply scan_skip.
Qed.

Lemma matches_of_app (xs ys : list seg) :
  matches_of (xs ++ ys) = matches_of xs ++ matches_of ys.
Proof. unfold matches_of. apply omap_app. Qed.

Lemma matches_of_mat (m : string) (xs : list seg) :
  matches_of (Mat m :: xs) = m :: matches_of xs.
Proof. reflexivity. Qed.

Lemma matches_of_lits (s : string) : matches_of (lits s) = [].
Proof. induction s as [|c s IH]; [reflexivity|]. exact IH. Qed.

Lemma replace_lits (rep s acc : string) :
  fold_right (fun sg acc => match sg with Lit c => String c acc | Mat _ => rep +:+ acc end)
             acc (lits s) = s +:+ acc.
Proof. induction s as [|c s IH]; [reflexivity|]. cbn [lits fold_right]. by rewrite IH. Qed.

(** ** Tag extraction *)

Lemma scan_tag_bol (bol : bool) (k : nat) (s : string) :
  scan tagRegex bol k s = scan tagRegex false k s.
Proof. destruct s, k; reflexivity. Qed.

Lemma scan_tag_outside (pre rest : string) :
  string_forallb no_open_brace pre = true →
  scan tagRegex false O (pre +:+ rest) = lits pre ++ scan tagRegex false O rest.
Proof.
  induction pre as [|c pre IH]; [reflexivity|].
  cbn [string_forallb]. intros [Hc Hpre]%andb_true_iff.
  rewrite string_app_cons. cbn [scan exec_at tagRegex match_seq plus_k].
  unfold no_open_brace in Hc. apply negb_true_iff in Hc. rewrite Hc.
  cbn [lits app]. f_equal. by apply IH.
Qed.

Lemma no_brace_split (c : ascii) :
  no_brace c = true → is_char "{" c = false ∧ is_char "}" c = false.
Proof.
  unfold no_brace, not_in. cbn [existsb]. rewrite orb_false_r.
  intros [? ?]%negb_true_iff%orb_false_iff. done.
Qed.

Lemma exec_tag (bol : bool) (a b : nat) (body post : string) :
  body ≠ "" → string_forallb no_brace body = true → starts_with_char "}" post = false →
  exec_at tagRegex bol (braces "{" (S a) +:+ body +:+ braces "}" (S b) +:+ post) = Some post.
Proof.
  intros Hne Hbody Hpost. cbn [exec_at tagRegex match_seq].
  rewrite (plus_k_greedy _ _ (braces "{" (S a)) _ post); [done|apply braces_forallb|done| |].
  - destruct body as [|c body]; [done|]. cbn [string_forallb] in Hbody.
    apply andb_true_iff in Hbody as [Hc _]. rewrite string_app_cons. cbn.
    by apply no_brace_split in Hc as [? ?].
  - apply plus_k_greedy; [done|done|reflexivity|].
    apply plus_k_greedy; [apply braces_forallb|done| |reflexivity].
    destruct post as [|c post]; [done|]. cbn in *. unfold is_char. done.
Qed.

Lemma extract_tags_scan (s : string) :
  extract_tags s = map (js_replace_g outerBraces "") (matches_of (scan tagRegex false O s)).
Proof.
  unfold extract_tags, js_match_g. rewrite scan_tag_bol.
  by destruct (matches_of _).
Qed.

Lemma scan_outer_body (body rest : string) :
  string_forallb no_brace body = true →
  scan outerBraces false O (body +:+ rest) = lits body ++ scan outerBraces false O rest.
Proof.
  induction body as [|c body IH]; [reflexivity|].
  cbn [string_forallb]. intros [Hc Hbody]%andb_true_iff.
  apply no_brace_split in Hc as [_ Hc].
  rewrite string_app_cons. cbn [scan exec_at outerBraces match_seq plus_k].
  rewrite Hc. cbn [lits app]. f_equal. by apply IH.
Qed.

(** Stripping the brace runs around a match leaves the tag. *)
Lemma strip_braces (a b : nat) (body : string) :
  body ≠ "" → string_forallb no_brace body = true →
  js_replace_g outerBraces "" (braces "{" (S a) +:+ body +:+ braces "}" (S b)) = body.
Proof.
  intros Hne Hbody. unfold js_replace_g.
  change (braces "{" (S a)) with (String "{" (braces "{" a)).
  rewrite scan_match.
  - rewrite (scan_outer_body _ _ Hbody).
    rewrite <- (string_app_empty_r (braces "}" (S b))).
    change (braces "}" (S b)) with (String "}" (braces "}" b)).
    rewrite scan_match.
    + cbn [fold_right]. rewrite fold_right_app. cbn [scan exec_at outerBraces match_seq plus_k fold_right].
      change ("" +:+ "") with "". rewrite replace_lits. by rewrite string_app_empty_r.
    + cbn [exec_at outerBraces match_seq].
      rewrite (plus_k_greedy _ _ (String "}" (braces "}" b)) "" "");
        [done|apply (braces_forallb "}" (S b))|done|done|reflexivity].
  - cbn [exec_at outerBraces match_seq].
    rewrite (plus_k_greedy _ _ (String "{" (braces "{" a)) _ (body +:+ braces "}" (S b)));
      [done|apply (braces_forallb "{" (S a))|done| |reflexivity].
    destruct body as [|c body]; [done|]. cbn [string_forallb] in Hbody.
    apply andb_true_iff in Hbody as [Hc _]. rewrite string_app_cons. cbn.
    by apply no_brace_split in Hc as [? ?].
Qed.

(** One tag in its surroundings: the text before it holds no opening brace,
    the text after it does not go on with a closing brace. *)
Lemma extract_tags_step (pre body post : string) (a b : nat) :
  string_forallb no_open_brace pre = true →
  body ≠ "" → string_forallb no_brace body = true →
  starts_with_char "}" post = false →
  extract_tags (pre +:+ braces "{" (S a) +:+ body +:+ braces "}" (S b) +:+ post) =
  body :: extract_tags post.
Proof.
  intros Hpre Hne Hbody Hpost. rewrite !extract_tags_scan.
  rewrite (scan_tag_outside _ _ Hpre), matches_of_app, matches_of_lits. cbn [app].
  pose proof (exec_tag false a b body post Hne Hbody Hpost) as Hexec.
  assert (braces "{" (S a) +:+ body +:+ braces "}" (S b) +:+ post =
          (braces "{" (S a) +:+ body +:+ braces "}" (S b)) +:+ post) as Hassoc.
  { by rewrite !string_app_assoc. }
  rewrite Hassoc in *.
  change (braces "{" (S a) +:+ body +:+ braces "}" (S b))
    with (String "{" (braces "{" a +:+ body +:+ braces "}" (S b))) in *.
  rewrite (scan_match _ _ _ _ _ Hexec).
  rewrite matches_of_mat. cbn [map]. f_equal.
  apply (strip_braces a b body Hne Hbody).
Qed.

(** Conversely, what a greedy repetition matched is a non-empty run of the
    class, and the rest of the pattern matched what follows the run. *)
Lemma plus_k_inv (p : ascii → bool) (k : string → option string) (s r : string) :
  plus_k p k s = Some r →
  ∃ run t, s = run +:+ t ∧ run ≠ "" ∧ string_forallb p run = true ∧ k t = Some r.
Proof.
  revert r. induction s as [|c s IH]; intros r; [done|].
  cbn [plus_k]. destruct (p c) eqn:Hc; [|done].
  destruct (plus_k p k s) as [r0|] eqn:Hmore.
  - intros [= <-]. destruct (IH r0 eq_refl) as (run & t & -> & _ & Hrun & Hk).
    exists (String c run), t. cbn [string_forallb]. by rewrite Hc, Hrun.
  - intros Hk. exists (String c ""), s. cbn [string_forallb]. by rewrite Hc.
Qed.

Lemma run_braces (c : ascii) (run : string) :
  string_forallb (is_char c) run = true → run = braces c (String.length run).
Proof.
  induction run as [|c' run IH]; [done|].
  cbn [string_forallb String.length braces]. intros [Hc Hrun]%andb_true_iff.
  apply Ascii.eqb_eq in Hc as <-. by rewrite <- IH.
Qed.

Lemma nonempty_run (c : ascii) (run : string) :
  run ≠ "" → string_forallb (is_char c) run = true → ∃ n, run = braces c (S n).
Proof.
  intros Hne Hrun. rewrite (run_braces c run Hrun).
  destruct run as [|c' run]; [done|]. by eexists.
Qed.

Lemma exec_tag_inv (bol : bool) (s rest : string) :
  exec_at tagRegex bol s = Some rest →
  ∃ a b body, s = braces "{" (S a) +:+ body +:+ braces "}" (S b) +:+ rest ∧
              body ≠ "" ∧ string_forallb no_brace body = true.
Proof.
  cbn [exec_at tagRegex match_seq].
  destruct (plus_k (is_char "{") _ s) as [r|] eqn:Hopen; [|done]. intros [= ->].
  apply plus_k_inv in Hopen as (opening & t1 & -> & Hne1 & Hrun1 & Hbody).
  apply plus_k_inv in Hbody as (body & t2 & -> & Hne2 & Hrun2 & Hclose).
  apply plus_k_inv in Hclose as (closing & t3 & -> & Hne3 & Hrun3 & [= ->]).
  destruct (nonempty_run _ _ Hne1 Hrun1) as [a ->].
  destruct (nonempty_run _ _ Hne3 Hrun3) as [b ->].
  by exists a, b, body.
Qed.

(** Every match of the tag pattern is a brace run, a non-empty text without
    braces and a closing brace run. *)
Lemma scan_tag_matches (s : string) (skip : nat) :
  Forall (fun m => ∃ a b body, m = braces "{" (S a) +:+ body +:+ braces "}" (S b) ∧
                               body ≠ "" ∧ string_forallb no_brace body = true)
         (matches_of (scan tagRegex false skip s)).
Proof.
  revert skip. induction s as [|c s IH]; intros skip.
  - destruct skip; constructor.
  - destruct skip as [|skip]; [|apply IH].
    cbn [scan]. destruct (exec_at tagRegex false (String c s)) as [rest|] eqn:Hexec;
      [|apply IH].
    destruct (exec_tag_inv _ _ _ Hexec) as (a & b & body & Hs & Hne & Hbody).
    set (inner := braces "{" a +:+ body +:+ braces "}" (S b)).
    assert (String c s = String "{" (inner +:+ rest)) as Hinner.
    { rewrite Hs. unfold inner. cbn [braces]. by rewrite !string_app_cons, !string_app_assoc. }
    injection Hinner as -> ->.
    replace (String.length (String "{" (inner +:+ rest)) - String.length rest)%nat
      with (S (String.length inner)) by (cbn [String.length]; rewrite string_length_app; lia).
    cbn [substring]. rewrite substring_app, matches_of_mat.
    constructor; [by exists a, b, body|apply IH].
Qed.

(** Every match is a brace run, a non-empty text without braces and a closing
    brace run; stripped of the runs it is that text. *)
Lemma matches_plain (s : string) :
  Forall (fun m => ∃ a b tag, m = braces "{" (S a) +:+ tag +:+ braces "}" (S b) ∧
                              js_replace_g outerBraces "" m = tag ∧
                              tag ≠ "" ∧ string_forallb no_brace tag = true)
         (default [] (js_match_g tagRegex s)).
Proof.
  assert (default [] (js_match_g tagRegex s) = matches_of (scan tagRegex false O s)) as ->.
  { unfold js_match_g. rewrite scan_tag_bol. by destruct (matches_of _). }
  eapply Forall_impl; [apply scan_tag_matches|].
  intros m (a & b & body & -> & Hne & Hbody).
  exists a, b, body. by rewrite (strip_braces a b body Hne Hbody).
Qed.

Lemma foldl_insert_lookup (d : value) (tags : list string) (m : gmap string value) (t : string) :
  foldl (fun m tag => <[tag := d]> m) m tags !! t =
  if decide (t ∈ tags) then Some d else m !! t.
Proof.
  revert m. induction tags as [|tag tags IH]; intros m; [reflexivity|].
  cbn [foldl]. rewrite IH.
  destruct (decide (t ∈ tags)) as [Hin|Hnin].
  - rewrite decide_True; [done|by right].
  - destruct (decide (t = tag)) as [->|Hne].
    + rewrite decide_True; [|by left]. apply lookup_insert_eq.
    + rewrite decide_False; [by apply lookup_insert_ne|].
      by intros [?|?]%elem_of_cons.
Qed.

Lemma forEach_column_app (xs ys : list value) (m : gmap string value) :
  forEach_column (xs ++ ys) m = (let? m' := forEach_column xs m in forEach_column ys m').
Proof.
  revert m. induction xs as [|x xs IH]; intros m; [reflexivity|].
  cbn [app forEach_column]. destruct (add_column m x); [apply IH|reflexivity..].
Qed.

Lemma add_board_column (m : gmap string value) (id title type settings_str : value) (d : string) :
  add_column m (board_column id title type (VStr d) settings_str) =
  Return (foldl (fun m tag => <[tag := VObj [("id", id); ("title", title); ("type", type);
                                            ("settings_str", settings_str)]]> m)
                m (extract_tags d)).
Proof. unfold add_column. by destruct d. Qed.

(** C3.  A column described as ["Client {{{client_id}}} info {email}"] gives
    a Schema Map of exactly the tags [client_id] and [email], both bound to
    the column's descriptor.  In general a tag written between a run of
    opening braces and a run of closing braces, after text without an opening
    brace, is found and the scan goes on behind it; every match is such a run
    of opening braces, non-empty text without braces and run of closing
    braces, and stripping the runs leaves the text as the tag; the tags of a
    column are bound to its descriptor over whatever the earlier columns bound
    them to. *)
Theorem tag_extraction (id title type settings_str : value) (d pre body post : string)
    (a b : nat) (earlier : list value) (m : gmap string value) :
  string_forallb no_open_brace pre = true →
  body ≠ "" →
  string_forallb no_brace body = true →
  starts_with_char "}" post = false →
  forEach_column earlier ∅ = Return m →
  build_columnMap
    (VArr [board_column id title type (VStr "Client {{{client_id}}} info {email}") settings_str]) =
    Return (<["email" := VObj [("id", id); ("title", title); ("type", type);
                               ("settings_str", settings_str)]]>
            (<["client_id" := VObj [("id", id); ("title", title); ("type", type);
                                    ("settings_str", settings_str)]]> ∅)) ∧
  extract_tags (pre +:+ braces "{" (S a) +:+ body +:+ braces "}" (S b) +:+ post) =
    body :: extract_tags post ∧
  Forall (fun m => ∃ a b tag, m = braces "{" (S a) +:+ tag +:+ braces "}" (S b) ∧
                              js_replace_g outerBraces "" m = tag ∧
                              tag ≠ "" ∧ string_forallb no_brace tag = true)
         (default [] (js_match_g tagRegex d)) ∧
  ∃ m', build_columnMap (VArr (earlier ++ [board_column id title type (VStr d) settings_str])) =
          Return m' ∧
        ∀ tag, m' !! tag =
               if decide (tag ∈ extract_tags d)
               then Some (VObj [("id", id); ("title", title); ("type", type);
                                ("settings_str", settings_str)])
               else m !! tag.
Proof.
  intros Hpre Hne Hbody Hpost Hearlier. split; [|split; [|split]].
  - cbn [build_columnMap forEach_column]. rewrite add_board_column.
    replace (extract_tags "Client {{{client_id}}} info {email}")
      with ["client_id"; "email"] by (vm_compute; reflexivity).
    reflexivity.
  - by apply extract_tags_step.
  - apply matches_plain.
  - cbn [build_columnMap]. rewrite forEach_column_app, Hearlier.
    cbn [rbind forEach_column]. rewrite add_board_column. cbn [rbind].
    eexists. split; [reflexivity|]. intros tag. apply foldl_insert_lookup.
Qed.

Lemma tag_extraction_witness :
  extract_tags "Client {{{client_id}}} info {email}" = "client_id" :: extract_tags " info {email}".
Proof.
  apply (tag_extraction VNull VNull VNull VNull "" "Client " "client_id" " info {email}"
           2 2 [] ∅); try reflexivity; done.
Defined.

(** ** The populate step *)

Lemma entry_get_set (config : list (string * nat)) (k k' : string) (l : nat) :
  entry_get (entry_set config k l) k' =
  if String.eqb k k' then Some l else entry_get config k'.
Proof.
  induction config as [|[k0 l0] config IH].
  - cbn [entry_set entry_get]. by destruct (String.eqb k k').
  - cbn [entry_set]. destruct (String.eqb k0 k) eqn:Hk0.
    + apply String.eqb_eq in Hk0 as ->. cbn [entry_get]. by destruct (String.eqb k k').
    + cbn [entry_get]. destruct (String.eqb k0 k') eqn:Hk0'; [|apply IH].
      apply String.eqb_eq in Hk0' as ->. by rewrite String.eqb_sym, Hk0.
Qed.

Lemma insert_fresh {A} (h : list A) (x y : A) : <[length h := y]> (h ++ [x]) = h ++ [y].
Proof. rewrite insert_app_r_alt by lia. by rewrite Nat.sub_diag. Qed.

(** What one pass of the loop does to the store and to [populatedConfig]. *)
Lemma populate_entry_spec (externalData : value) (pc : list (string * nat)) (k : string)
    (l : nat) (h : list (list (string * value))) (rule : list (string * value)) :
  h !! l = Some rule →
  populate_entry externalData pc (k, l) h =
  match (if truthy (get_prop (VObj rule) "in_remote") && truthy (get_prop (VObj rule) "remote_key")
         then getNestedValue externalData (get_prop (VObj rule) "remote_key")
         else Return VUndef) with
  | Return _ => (Return (entry_set pc k (length h)), h ++ [populated externalData rule])
  | Throw e => (Throw e, h ++ [rule])
  | Outside => (Outside, h ++ [rule])
  end.
Proof.
  intros Hl. unfold populate_entry, populated, bind, get, spread, lift, ret, store_set, modify.
  rewrite Hl. cbn [default].
  destruct (truthy (get_prop (VObj rule) "in_remote") && truthy (get_prop (VObj rule) "remote_key"));
    [|reflexivity].
  destruct (getNestedValue _ _) as [v|e|]; [|reflexivity..].
  destruct (is_undefined v); cbn [negb]; [reflexivity|].
  rewrite entry_get_set, String.eqb_refl.
  rewrite lookup_app_r by lia. rewrite Nat.sub_diag. cbn [lookup list_lookup].
  by rewrite insert_fresh.
Qed.

Lemma populate_entry_frame (externalData : value) (pc : list (string * nat))
    (entry : string * nat) (h : list (list (string * value))) :
  h `prefix_of` (populate_entry externalData pc entry h).2.
Proof.
  destruct entry as [k l]. destruct (h !! l) as [rule|] eqn:Hl.
  - rewrite (populate_entry_spec _ _ _ _ _ _ Hl).
    repeat case_match; by apply prefix_app_r.
  - unfold populate_entry, bind, get, spread, throw. rewrite Hl. by apply prefix_app_r.
Qed.

Lemma populate_entries_frame (externalData : value) (entries pc : list (string * nat))
    (h : list (list (string * value))) :
  h `prefix_of` (populate_entries entries externalData pc h).2.
Proof.
  revert pc h. induction entries as [|entry rest IH]; intros pc h; [done|].
  cbn [populate_entries]. unfold bind.
  pose proof (populate_entry_frame externalData pc entry h) as Hhead.
  destruct (populate_entry externalData pc entry h) as [[pc1|e|] h1]; cbn [snd] in *; [|done..].
  etrans; [exact Hhead|apply IH].
Qed.


(** It throws on [null] and [undefined] only. *)
Lemma computed_member_throws (current : value) (key : string) (e : thrown) :
  computed_member current key = Throw e → truthy current = false.
Proof.
  unfold computed_member.
  destruct current as [| |b|n|s|xs|props]; try done.
  - by destruct (String.eqb key "length"), (parse_index key).
  - by destruct (String.eqb key "length"), (parse_index key).
  - destruct (own props key); [done|]. by destruct (existsb _ _).
Qed.

Lemma nested_step_return (obj : value) (key : string) :
  nested_step (Return obj) key =
  if truthy obj then
    let? v := computed_member obj key in
    if negb (is_undefined v) then computed_member obj key else Return VUndef
  else Return VUndef.
Proof. reflexivity. Qed.

Lemma fold_undefined (segments : list string) :
  fold_left nested_step segments (Return VUndef) = Return VUndef.
Proof. induction segments as [|key rest IH]; [reflexivity|exact IH]. Qed.

Lemma fold_stopped (segments : list string) (r : result value) :
  (∀ v, r ≠ Return v) → fold_left nested_step segments r = r.
Proof.
  intros Hr. induction segments as [|key rest IH]; [reflexivity|].
  cbn [fold_left]. destruct r as [v|e|]; [by destruct (Hr v)|exact IH..].
Qed.



(** On a string path it does not throw. *)
Lemma getNestedValue_no_throw (obj : value) (p : string) (e : thrown) :
  getNestedValue obj (VStr p) ≠ Throw e.
Proof.
  unfold getNestedValue.
  generalize (split_on "." p) as segments. intros segments. revert obj.
  induction segments as [|key rest IH]; intros obj; [done|].
  cbn [fold_left]. rewrite nested_step_return.
  destruct (truthy obj) eqn:Hobj.
  - destruct (computed_member obj key) as [w|e'|] eqn:Hread; cbn [rbind].
    + destruct (is_undefined w); cbn [negb]; [by rewrite fold_undefined|].
      apply IH.
    + apply computed_member_throws in Hread. congruence.
    + by rewrite fold_stopped.
  - by rewrite fold_undefined.
Qed.


(** A walk that passes through truthy values only is a walk in the sense of
    the specification. *)
Lemma resolve_truthy_path (current v : value) (segments : list string) :
  resolve_truthy current segments = Some v → resolve_path current segments = Some v.
Proof.
  revert current. induction segments as [|key rest IH]; intros current; [done|].
  cbn [resolve_truthy resolve_path].
  destruct (truthy current && negb (is_undefined (get_prop current key))) eqn:Hstep; [|done].
  apply andb_true_iff in Hstep as [_ Hdef%negb_true_iff]. rewrite Hdef. apply IH.
Qed.






(** The populate step returns when every entry refers to an object and the
    paths it has to resolve are strings that stay within the data. *)
Lemma populate_entries_returns (externalData : value) (entries pc : list (string * nat))
    (h : list (list (string * value))) :
  Forall (fun entry => ∃ rule, h !! entry.2 = Some rule ∧ within_data externalData rule) entries →
  ∃ pc' h', populate_entries entries externalData pc h = (Return pc', h').
Proof.
  revert pc h. induction entries as [|[k l] rest IH]; intros pc h Hall; [by eexists _, _|].
  apply Forall_cons in Hall as [(rule & Hl & Hkey) Hrest]. cbn [snd] in Hl.
  cbn [populate_entries]. unfold bind. rewrite (populate_entry_spec _ _ _ _ _ _ Hl).
  assert (∃ v, (if truthy (get_prop (VObj rule) "in_remote") &&
                   truthy (get_prop (VObj rule) "remote_key")
                then getNestedValue externalData (get_prop (VObj rule) "remote_key")
                else Return VUndef) = Return v) as [v ->].
  { destruct (truthy _ && truthy _) eqn:Huse; [|by eexists]. by apply Hkey. }
  apply IH. eapply Forall_impl; [exact Hrest|].
  intros entry (rule' & Hl' & Hkey'). exists rule'. split; [|done].
  by apply lookup_app_l_Some.
Qed.


(** A path that leaves the data: [constructor] is no property the customer
    has of its own, and the run is outside the model. *)
Lemma populate_inherited_path :
  getNestedValue customer_data (VStr "Customer.constructor.name") = Outside ∧
  (populateConfigValues [("client_id", O)] customer_data
     [obj_set client_rule "remote_key" (VStr "Customer.constructor.name")]).1 = Outside.
Proof. split; reflexivity. Qed.



Section MapperProperties.
Context {rt : Runtime} {G : Type} {gw : Gateway G}.

Lemma fetchBoardColumnSettings_objects (boardId : N) (this : MondayDynamicMapper) :
  objects (fetchBoardColumnSettings boardId this).2 = objects this.
Proof.
  unfold_fetch.
  destruct (columnSettingsCache this !! cacheKey boardId); [reflexivity|].
  destruct (gw_getBoardColumns boardId (mondayApiClient (gateway this))) as [[columns|e|] g];
    [|by destruct (message_text e)|reflexivity].
  cbn [gateway mondayApiClient].
  destruct (build_columnMap columns) as [columnMap|e|]; [reflexivity| |reflexivity].
  by destruct (message_text e).
Qed.

Lemma processMapping_objects (mappingConfig : list (string * nat)) (externalData : value)
    (boardId : N) (this : MondayDynamicMapper) :
  objects (processMapping mappingConfig externalData boardId this).2 =
  (populateConfigValues mappingConfig externalData (objects this)).2.
Proof.
  unfold processMapping, bind, on_objects, get, lift, ret.
  destruct (populateConfigValues mappingConfig externalData (objects this)) as [[pc|e|] h];
    [|reflexivity..].
  match goal with |- context [fetchBoardColumnSettings boardId ?s] =>
    pose proof (fetchBoardColumnSettings_objects boardId s) as Hfetch;
    destruct (fetchBoardColumnSettings boardId s) as [[columnMap|e|] s1] end;
    cbn [snd objects] in *; [|done..].
  destruct (build_columnValues _ _ _ _); done.
Qed.

Lemma fetchBoardColumnSettings_with_objects (boardId : N) (h : list (list (string * value)))
    (this : MondayDynamicMapper) :
  fetchBoardColumnSettings boardId (with_objects h this) =
  (let '(r, this') := fetchBoardColumnSettings boardId this in (r, with_objects h this')).
Proof.
  unfold_fetch. unfold with_objects.
  cbn [columnSettingsCache gateway objects].
  destruct (columnSettingsCache this !! cacheKey boardId); [reflexivity|].
  cbn [columnSettingsCache gateway objects mondayApiClient].
  destruct (gw_getBoardColumns boardId (mondayApiClient (gateway this))) as [[columns|e|] g];
    [|by destruct (message_text e)|reflexivity].
  destruct (build_columnMap columns) as [columnMap|e|]; [reflexivity| |reflexivity].
  by destruct (message_text e).
Qed.

(** [processMapping] in its three steps. *)
Lemma processMapping_steps (mappingConfig populatedConfig : list (string * nat))
    (externalData : value) (boardId : N) (this this' : MondayDynamicMapper)
    (h : list (list (string * value))) (columnMap : gmap string value) :
  populateConfigValues mappingConfig externalData (objects this) = (Return populatedConfig, h) →
  fetchBoardColumnSettings boardId this = (Return columnMap, this') →
  processMapping mappingConfig externalData boardId this =
  ((let? columnValues := build_columnValues h columnMap populatedConfig [] in
    Return (VObj columnValues)), with_objects h this').
Proof.
  intros Hpopulate Hfetch. unfold processMapping, bind at 1, on_objects. rewrite Hpopulate.
  unfold bind at 1. fold (with_objects h this).
  rewrite fetchBoardColumnSettings_with_objects, Hfetch.
  unfold bind, get, lift, ret. cbn [objects with_objects].
  by destruct (build_columnValues _ _ _ _).
Qed.

(** An entry without a schema match, or with [in_monday] false, adds nothing
    to the payload and raises nothing. *)
Lemma build_columnValues_dropped (h : list (list (string * value)))
    (columnMap : gmap string value) (k : string) (l : nat) (rule : list (string * value))
    (rest : list (string * nat)) (columnValues : list (string * value)) :
  h !! l = Some rule →
  columnMap !! k = None ∨ truthy (get_prop (VObj rule) "in_monday") = false →
  build_columnValues h columnMap ((k, l) :: rest) columnValues =
  build_columnValues h columnMap rest columnValues.
Proof.
  intros Hl Hdrop. cbn [build_columnValues]. rewrite Hl.
  destruct (truthy (get_prop (VObj rule) "in_monday")); cbn [negb]; [|done].
  by destruct Hdrop as [->|?].
Qed.

(** C1.  With [mappingConfig = {client_id: {remote_key: "Customer.Id",
    in_remote: true, in_monday: true}}], [externalData = {Customer: {Id:
    "42"}}] and a Schema Map that binds [client_id] to a column of id [col1]
    and type [text], [processMapping] returns exactly [{col1: "42"}]; with a
    Schema Map that has no [client_id] tag it returns exactly [{}].  In
    general an entry without a schema match or with [in_monday] false is
    passed over without an error. *)
Theorem processMapping_example (boardId : N) (this this' : MondayDynamicMapper)
    (columnMap : gmap string value) (found : option value) (l : nat)
    (h : list (list (string * value))) (k : string) (l0 : nat)
    (rule : list (string * value)) (rest : list (string * nat))
    (columnValues : list (string * value)) :
  objects this !! l = Some client_rule →
  fetchBoardColumnSettings boardId this = (Return columnMap, this') →
  columnMap !! "client_id" = found →
  match found with
  | Some columnInfo =>
      get_prop columnInfo "id" = VStr "col1" ∧ get_prop columnInfo "type" = VStr "text"
  | None => True
  end →
  h !! l0 = Some rule →
  columnMap !! k = None ∨ truthy (get_prop (VObj rule) "in_monday") = false →
  processMapping [("client_id", l)] customer_data boardId this =
    (Return (VObj match found with
                  | Some _ => [("col1", VStr "42")]
                  | None => []
                  end),
     with_objects (objects this ++ [obj_set client_rule "value" (VStr "42")]) this') ∧
  build_columnValues h columnMap ((k, l0) :: rest) columnValues =
    build_columnValues h columnMap rest columnValues.
Proof.
  intros Hl Hfetch Hfound Hcolumn Hl0 Hdrop.
  split; [|by eapply build_columnValues_dropped].
  rewrite (processMapping_steps _ [("client_id", length (objects this))] _ _ _ this'
             (objects this ++ [obj_set client_rule "value" (VStr "42")]) columnMap); [|
    unfold populateConfigValues; cbn [populate_entries]; unfold bind;
    by rewrite (populate_entry_spec _ _ _ _ _ _ Hl)|done].
  f_equal. cbn [build_columnValues].
  rewrite lookup_app_r by lia. rewrite Nat.sub_diag. cbn [lookup list_lookup].
  replace (truthy (get_prop (VObj (obj_set client_rule "value" (VStr "42"))) "in_monday"))
    with true by reflexivity.
  replace (get_prop (VObj (obj_set client_rule "value" (VStr "42"))) "value")
    with (VStr "42") by reflexivity.
  cbn [negb]. rewrite Hfound. destruct found as [columnInfo|]; [|reflexivity].
  destruct Hcolumn as [-> ->]. reflexivity.
Qed.

(** ** The schema cache *)

Lemma fetchBoardColumnSettings_hit (boardId : N) (this : MondayDynamicMapper)
    (columnMap : gmap string value) :
  columnSettingsCache this !! cacheKey boardId = Some columnMap →
  fetchBoardColumnSettings boardId this = (Return columnMap, this).
Proof. intros Hhit. unfold fetchBoardColumnSettings, bind, get. by rewrite Hhit. Qed.

Lemma fetchBoardColumnSettings_miss (boardId : N) (this : MondayDynamicMapper)
    (columns : value) (g : G) (columnMap : gmap string value) :
  columnSettingsCache this !! cacheKey boardId = None →
  gw_getBoardColumns boardId (mondayApiClient (gateway this)) = (Return columns, g) →
  build_columnMap columns = Return columnMap →
  fetchBoardColumnSettings boardId this =
  (Return columnMap,
   {| gateway := {| mondayApiClient := g;
                    calls := calls (gateway this) ++ [GetBoardColumnsCall boardId] |};
      columnSettingsCache := <[cacheKey boardId := columnMap]> (columnSettingsCache this);
      objects := objects this |}).
Proof.
  intros Hmiss Hget Hbuild.
  unfold_fetch.
  rewrite Hmiss. cbn beta. by rewrite Hget, Hbuild.
Qed.

Lemma fetchBoardColumnSettings_returns (boardId : N) (this this' : MondayDynamicMapper)
    (columnMap : gmap string value) :
  columnSettingsCache this !! cacheKey boardId = None →
  fetchBoardColumnSettings boardId this = (Return columnMap, this') →
  ∃ columns g,
    gw_getBoardColumns boardId (mondayApiClient (gateway this)) = (Return columns, g) ∧
    build_columnMap columns = Return columnMap.
Proof.
  intros Hmiss.
  unfold_fetch.
  rewrite Hmiss. cbn beta.
  destruct (gw_getBoardColumns boardId (mondayApiClient (gateway this))) as [[columns|e|] g];
    [|by destruct (message_text e)|done].
  destruct (build_columnMap columns) as [m|e|] eqn:Hbuild;
    [|by destruct (message_text e)|done].
  intros [= <- _]. by exists columns, g.
Qed.

Lemma clearColumnCache_board (boardId : N) (this : @MondayDynamicMapper G) :
  ∃ cache, cache !! cacheKey boardId = None ∧
    clearColumnCache (Some boardId) this =
    (Return tt, {| gateway := gateway this; columnSettingsCache := cache;
                   objects := objects this |}).
Proof.
  destruct boardId as [|p].
  - exists ∅. split; [apply lookup_empty|reflexivity].
  - exists (delete (cacheKey (Npos p)) (columnSettingsCache this)).
    split; [apply lookup_delete_eq|reflexivity].
Qed.

(** C9.  [populateConfigValues], and with it [processMapping], changes no
    object that exists when it is called: the store it leaves is the store it
    found, followed by the copies it made.  The Field Rules of the caller's
    [mappingConfig] are in the store it found, so each keeps every property
    it had, [value] included; this holds when the call throws as well. *)
Theorem mappingConfig_unchanged (mappingConfig : list (string * nat)) (externalData : value)
    (boardId : N) (this : MondayDynamicMapper) :
  objects this `prefix_of` (populateConfigValues mappingConfig externalData (objects this)).2 ∧
  objects this `prefix_of` objects (processMapping mappingConfig externalData boardId this).2.
Proof.
  rewrite processMapping_objects. split; apply populate_entries_frame.
Qed.

End MapperProperties.

Lemma processMapping_example_witness :
  (processMapping (rt := plain_runtime) (gw := sample_gateway)
     [("client_id", O)] customer_data 7 sample_mapper).1 =
  Return (VObj [("col1", VStr "42")]).
Proof.
  eassert (_ ∧ _) as [Hrun _].
  { eapply (processMapping_example (rt := plain_runtime)
              (gw := sample_gateway)
              7 sample_mapper _ _ (Some _) O [client_rule] "absent" O client_rule [] []).
    - reflexivity.
    - vm_compute. reflexivity.
    - vm_compute. reflexivity.
    - split; reflexivity.
    - reflexivity.
    - left. vm_compute. reflexivity. }
  rewrite Hrun. reflexivity.
Defined.

(** ** The API client *)

Section ClientProperties.
Context {rt : Runtime}.
Variable remote : list request → request → fetch_outcome.

(** Inside [query], a response with GraphQL errors does raise the error that
    carries the data and the errors. *)
Lemma query_attempt_graphql_error (q : string) (variables : list (string * value))
    (c : MondayApiClient) (resp : response) (result : value)
    (first : value) (others : list value) (message : string) :
  remote (posted c) (request_of c (query_payload q variables)) = Resolved resp →
  ok resp = true →
  json resp = Parsed result →
  get_prop result "errors" = VArr (first :: others) →
  member first "message" = Return (VStr message) →
  query_attempt remote q variables c =
    (Throw (graphqlError result message (toLowerCase message)),
     after_post c (query_payload q variables)).
Proof.
  intros Hremote Hok Hjson Herrors Hmessage.
  assert (member result "errors" = Return (VArr (first :: others))) as Hread.
  { unfold member. rewrite Herrors. by destruct result. }
  assert (gt_zero (get_prop (VArr (first :: others)) "length") = Return true) as Hlisted.
  { reflexivity. }
  unfold query_attempt, bind, fetch, lift, throw.
  rewrite Hremote, Hok, Hjson, Hread. cbn [negb truthy]. rewrite Hlisted.
  replace (get_prop (VArr (first :: others)) "0") with first by reflexivity.
  rewrite Hmessage. reflexivity.
Qed.

(** C7.  For a response whose error list is not empty, the function that
    [query] runs raises the GraphQL error: it carries the remote errors and
    the partial data, and its [code] is set when the first error's message
    contains "complexity" or "rate limit" in any letter case.  [withRetry]
    catches that error, waits and drops it: [query] itself does not fail, it
    resolves to [undefined]. *)
Theorem query_swallows_graphql_error (q : string) (variables : list (string * value))
    (c : MondayApiClient) (resp : response) (result : value)
    (first : value) (others : list value) (message : string) :
  remote (posted c) (request_of c (query_payload q variables)) = Resolved resp →
  ok resp = true →
  json resp = Parsed result →
  get_prop result "errors" = VArr (first :: others) →
  member first "message" = Return (VStr message) →
  query_attempt remote q variables c =
    (Throw (graphqlError result message (toLowerCase message)),
     after_post c (query_payload q variables)) ∧
  own (e_props (graphqlError result message (toLowerCase message))) "errors" =
    Some (VArr (first :: others)) ∧
  own (e_props (graphqlError result message (toLowerCase message))) "data" =
    Some (get_prop result "data") ∧
  own (e_props (graphqlError result message (toLowerCase message))) "code" =
    (if includes "complexity" (toLowerCase message) || includes "rate limit" (toLowerCase message)
     then Some (VStr "COMPLEXITY_ERROR") else None) ∧
  query remote q variables c =
    (Return VUndef, after_sleep 45000 (after_post c (query_payload q variables))).
Proof.
  intros Hremote Hok Hjson Herrors Hmessage.
  pose proof (query_attempt_graphql_error q variables c resp result first others message
                Hremote Hok Hjson Herrors Hmessage) as Hattempt.
  split; [done|]. split; [|split; [|split]].
  - unfold graphqlError. cbn [e_props]. rewrite Herrors.
    by destruct (includes _ _ || includes _ _).
  - unfold graphqlError. cbn [e_props]. by destruct (includes _ _ || includes _ _).
  - unfold graphqlError. cbn [e_props]. by destruct (includes _ _ || includes _ _).
  - unfold query, withRetry, try_catch. rewrite Hattempt. reflexivity.
Qed.

(** Whatever the outcome, [query] posts exactly one request and leaves the
    columns the client remembers alone. *)
Lemma query_effect (q : string) (variables : list (string * value)) (c : MondayApiClient) :
  board_columns (query remote q variables c).2 = board_columns c ∧
  posted (query remote q variables c).2 = posted c ++ [request_of c (query_payload q variables)].
Proof.
  unfold query, withRetry, try_catch, query_attempt, bind, fetch, lift, throw, ret,
    sleep, modify.
  repeat case_match; simplify_eq; done.
Qed.

(** A call of [getBoardColumns] that returns leaves the columns in the
    client's memory; it posts a request only when they were not there. *)
Lemma getBoardColumns_returns (boardId : N) (c c' : MondayApiClient) (columns : value) :
  getBoardColumns remote boardId c = (Return columns, c') →
  board_columns c' !! boardId = Some columns ∧
  length (posted c') =
    (length (posted c) + match board_columns c !! boardId with Some _ => 0 | None => 1 end)%nat.
Proof.
  unfold getBoardColumns, bind, get.
  destruct (board_columns c !! boardId) as [known|] eqn:Hknown.
  - intros [= <- <-]. split; [done|lia].
  - pose proof (query_effect GetBoardColumns [("boardId", VStr (board_key boardId))] c)
      as [Hcolumns Hposted].
    destruct (query remote GetBoardColumns _ c) as [[response|e|] c1]; [|done..].
    cbn [snd] in *. unfold lift, set_board_columns, modify, ret.
    destruct (member response "data") as [data|e|]; [|done..].
    intros [= <- <-]. cbn [board_columns posted]. split.
    + apply lookup_insert_eq.
    + rewrite Hposted, length_app. reflexivity.
Qed.

Lemma getBoardColumns_known (boardId : N) (c : MondayApiClient) (columns : value) :
  board_columns c !! boardId = Some columns →
  getBoardColumns remote boardId c = (Return columns, c).
Proof. intros Hknown. unfold getBoardColumns, bind, get. by rewrite Hknown. Qed.

(** C2, amended.  When a board is not in the schema cache and a get of it
    succeeds, the get calls the Gateway's [getBoardColumns] exactly once and
    the next get is served from the cache without any call: two consecutive
    gets make one Gateway call, and post one request unless the client had
    the board's columns already.  After [clearColumnCache(boardId)] the next
    get calls [getBoardColumns] exactly once more and returns the same Schema
    Map; [MondayApiClient] answers that call from its own [board_columns]
    without posting a request. *)
Theorem schema_cache_gets (boardId : N) (this this1 : @MondayDynamicMapper MondayApiClient)
    (columnMap : gmap string value) :
  columnSettingsCache this !! cacheKey boardId = None →
  fetchBoardColumnSettings (gw := MondayApiClient_Gateway remote) boardId this =
    (Return columnMap, this1) →
  calls (gateway this1) = calls (gateway this) ++ [GetBoardColumnsCall boardId] ∧
  length (posted (mondayApiClient (gateway this1))) =
    (length (posted (mondayApiClient (gateway this))) +
     match board_columns (mondayApiClient (gateway this)) !! boardId with
     | Some _ => 0
     | None => 1
     end)%nat ∧
  fetchBoardColumnSettings (gw := MondayApiClient_Gateway remote) boardId this1 =
    (Return columnMap, this1) ∧
  ∃ this3,
    fetchBoardColumnSettings (gw := MondayApiClient_Gateway remote) boardId
      (clearColumnCache (Some boardId) this1).2 = (Return columnMap, this3) ∧
    calls (gateway this3) = calls (gateway this1) ++ [GetBoardColumnsCall boardId] ∧
    posted (mondayApiClient (gateway this3)) = posted (mondayApiClient (gateway this1)).
Proof.
  intros Hmiss Hget.
  destruct (fetchBoardColumnSettings_returns (gw := MondayApiClient_Gateway remote)
              boardId this this1 columnMap Hmiss Hget) as (columns & c1 & Hcolumns & Hbuild).
  rewrite (fetchBoardColumnSettings_miss (gw := MondayApiClient_Gateway remote)
             boardId this columns c1 columnMap Hmiss Hcolumns Hbuild) in Hget.
  injection Hget as <-.
  destruct (getBoardColumns_returns boardId _ c1 columns Hcolumns) as [Hknown Hposted].
  cbn [gateway calls mondayApiClient].
  split; [done|]. split; [done|]. split.
  - apply fetchBoardColumnSettings_hit. cbn [columnSettingsCache]. apply lookup_insert_eq.
  - match goal with |- context [clearColumnCache (Some boardId) ?s] =>
      destruct (clearColumnCache_board boardId s) as (cache & Hforgot & ->) end.
    cbn [snd gateway objects].
    eexists. split.
    + apply (fetchBoardColumnSettings_miss (gw := MondayApiClient_Gateway remote)
               boardId _ columns c1 columnMap); [exact Hforgot| |exact Hbuild].
      cbn [gateway mondayApiClient]. by apply getBoardColumns_known.
    + split; reflexivity.
Qed.

End ClientProperties.

Lemma query_swallows_graphql_error_witness :
  query complexity_remote "query { me { id } }" []
        (new_MondayApiClient "key") =
  (Return VUndef,
   after_sleep 45000 (after_post (new_MondayApiClient "key")
                                 (query_payload "query { me { id } }" []))).
Proof.
  eapply (query_swallows_graphql_error complexity_remote
            "query { me { id } }" [] (new_MondayApiClient "key") _ complexity_result
            _ _ "Complexity budget exhausted"); reflexivity.
Defined.

(** C2, as stated, fails on the last point: after two gets of board 7 and an
    invalidation, the next get calls the Gateway again, but the request the
    first get posted remains the only one. *)
Lemma invalidation_posts_nothing :
  let run :=
    (fetchBoardColumnSettings (gw := sample_gateway) 7 ;;
     fetchBoardColumnSettings (gw := sample_gateway) 7 ;;
     clearColumnCache (Some 7%N) ;;
     fetchBoardColumnSettings (gw := sample_gateway) 7) sample_mapper in
  calls (gateway run.2) = [GetBoardColumnsCall 7; GetBoardColumnsCall 7] ∧
  length (posted (mondayApiClient (gateway run.2))) = 1%nat.
Proof. vm_compute. split; reflexivity. Qed.

Lemma schema_cache_gets_witness :
  fetchBoardColumnSettings (gw := sample_gateway) 7
    (fetchBoardColumnSettings (gw := sample_gateway) 7 sample_mapper).2 =
  fetchBoardColumnSettings (gw := sample_gateway) 7 sample_mapper.
Proof.
  eassert (fetchBoardColumnSettings (gw := sample_gateway) 7 sample_mapper = (Return _, _))
    as Hfirst by (vm_compute; reflexivity).
  rewrite Hfirst. cbn [snd].
  eapply (schema_cache_gets (rt := plain_runtime) sample_remote 7 sample_mapper).
  - reflexivity.
  - exact Hfirst.
Defined.

(** ** The error logger *)

Lemma value_ind_nested (P : value → Prop) :
  P VUndef → P VNull → (∀ b, P (VBool b)) → (∀ n, P (VNum n)) → (∀ s, P (VStr s)) →
  (∀ xs, Forall P xs → P (VArr xs)) →
  (∀ props, Forall (fun kv => P kv.2) props → P (VObj props)) →
  ∀ v, P v.
Proof.
  intros Hundef Hnull Hbool Hnum Hstr Harr Hobj. fix IH 1. intros [| |b|n|s|xs|props].
  - exact Hundef.
  - exact Hnull.
  - apply Hbool.
  - apply Hnum.
  - apply Hstr.
  - apply Harr.
    exact ((fix all (xs : list value) : Forall P xs :=
              match xs with
              | [] => @List.Forall_nil value P
              | x :: xs' => @List.Forall_cons value P x xs' (IH x) (all xs')
              end) xs).
  - apply Hobj.
    exact ((fix all (ps : list (string * value)) : Forall (fun kv => P kv.2) ps :=
              match ps with
              | [] => @List.Forall_nil (string * value) (fun kv => P kv.2)
              | (k, x) :: ps' =>
                  @List.Forall_cons (string * value) (fun kv => P kv.2) (k, x) ps' (IH x) (all ps')
              end) props).
Qed.

(** String conversion fails with a [TypeError] only. *)
Lemma to_String_throws (v : value) (t : thrown) :
  to_String v = Throw t → type_error t.
Proof.
  revert t. induction v as [| |b|n|s|xs IH|props _] using value_ind_nested; intros t;
    try discriminate.
  - by destruct b.
  - cbn [to_String].
    assert (∀ t', rmap_list (fun x => if nullish x then Return EmptyString else to_String x) xs
                  = Throw t' → type_error t') as Helems.
    { induction IH as [|x xs Hx _ IHxs]; intros t'; [discriminate|].
      cbn [rmap_list].
      destruct (nullish x); cbn [rbind].
      - destruct (rmap_list _ xs) as [ps|e0|]; [discriminate| |discriminate].
        intros [= <-]. by apply IHxs.
      - destruct (to_String x) as [p|e0|] eqn:Hp; cbn [rbind].
        + destruct (rmap_list _ xs) as [ps|e1|]; [discriminate| |discriminate].
          intros [= <-]. by apply IHxs.
        + intros [= <-]. by apply Hx.
        + discriminate. }
    destruct (rmap_list _ xs) as [ps|e0|]; [discriminate| |discriminate].
    intros [= <-]. by apply Helems.
  - cbn [to_String]. destruct (own props "toString"); [|discriminate].
    intros [= <-]. by eexists.
Qed.

Lemma error_name_throws (data : errorData) (t : thrown) :
  error_name data = Throw t → type_error t.
Proof.
  unfold error_name.
  destruct (to_String (projectName data)) as [p|e0|] eqn:Hp; cbn [rbind];
    [|intros [= <-]; by eapply to_String_throws|discriminate].
  destruct (to_String (clientName data)) as [c|e0|] eqn:Hc; cbn [rbind];
    [|intros [= <-]; by eapply to_String_throws|discriminate].
  destruct (to_String (workflow data)) as [w|e0|] eqn:Hw; cbn [rbind];
    [|intros [= <-]; by eapply to_String_throws|discriminate].
  destruct (to_String (error data)) as [e1|e0|] eqn:He; cbn [rbind];
    [discriminate|intros [= <-]; by eapply to_String_throws|discriminate].
Qed.

(** String conversion stays within the data. *)
Lemma to_String_inside (v : value) : to_String v ≠ Outside.
Proof.
  induction v as [| |b|n|s|xs IH|props _] using value_ind_nested; try discriminate.
  - by destruct b.
  - cbn [to_String].
    assert (rmap_list (fun x => if nullish x then Return EmptyString else to_String x) xs
            ≠ Outside) as Helems.
    { induction IH as [|x xs Hx _ IHxs]; [discriminate|].
      cbn [rmap_list]. destruct (nullish x); cbn [rbind].
      - by destruct (rmap_list _ xs).
      - destruct (to_String x); cbn [rbind]; [|done..]. by destruct (rmap_list _ xs). }
    by destruct (rmap_list _ xs).
  - cbn [to_String]. by destruct (own props "toString").
Qed.

Lemma error_name_inside (data : errorData) : error_name data ≠ Outside.
Proof.
  unfold error_name.
  pose proof (to_String_inside (projectName data)).
  pose proof (to_String_inside (clientName data)).
  pose proof (to_String_inside (workflow data)).
  pose proof (to_String_inside (error data)).
  destruct (to_String (projectName data)); cbn [rbind]; [|done..].
  destruct (to_String (clientName data)); cbn [rbind]; [|done..].
  destruct (to_String (workflow data)); cbn [rbind]; [|done..].
  by destruct (to_String (error data)).
Qed.

Lemma own_obj_set_ne (props : list (string * value)) (k k' : string) (v : value) :
  k ≠ k' → own (obj_set props k v) k' = own props k'.
Proof.
  intros Hne. induction props as [|[k0 v0] props IH].
  - cbn [obj_set own]. destruct (String.eqb k k') eqn:Hk; [|done].
    by apply String.eqb_eq in Hk.
  - cbn [obj_set]. destruct (String.eqb k0 k) eqn:Hk0.
    + apply String.eqb_eq in Hk0 as ->. cbn [own].
      destruct (String.eqb k k') eqn:Hk; [|done]. by apply String.eqb_eq in Hk.
    + cbn [own]. by rewrite IH.
Qed.

(** The clone has the keys of the original at most. *)
Lemma json_data_missing (props : list (string * value)) (k : string) :
  own props k = None →
  ∃ columns, json_data (VObj props) = VObj columns ∧ own columns k = None.
Proof.
  induction props as [|[k0 v0] props IH]; intros Hmissing.
  - by exists [].
  - cbn [own] in Hmissing. destruct (String.eqb k0 k) eqn:Hk0; [done|].
    destruct (IH Hmissing) as (columns & Hclone & Hcolumns).
    cbn [json_data] in Hclone. injection Hclone as Hclone.
    destruct v0; cbn [json_data]; rewrite Hclone;
      (eexists; split; [reflexivity|]); cbn [own]; by rewrite ?Hk0.
Qed.

(** The assignments stop with a [TypeError] at the first key the column
    configuration lacks. *)
Lemma assign_values_missing (todo : list (string * value)) (columns : list (string * value))
    (k : string) :
  k ∈ todo.*1 → own columns k = None →
  ∃ e, e_class e = TypeErrorC ∧ assign_values (VObj columns) todo = Throw e.
Proof.
  revert columns. induction todo as [|[k0 x] todo IH]; intros columns Hin Hmissing.
  - by apply elem_of_nil in Hin.
  - cbn [fmap list_fmap fst] in Hin. cbn [assign_values].
    unfold assign_value, member. cbn [nullish is_null is_undefined orb rbind get_prop].
    destruct (own columns k0) as [column|] eqn:Hk0; cbn [from_option id].
    + assert (k0 ≠ k) as Hne by (intros ->; congruence).
      apply elem_of_cons in Hin as [->|Hin]; [done|].
      destruct column; cbn [rbind]; try (eexists; split; [|reflexivity]; reflexivity).
      * by apply IH.
      * apply IH; [done|]. by rewrite own_obj_set_ne.
    + eexists. split; [|reflexivity]. reflexivity.
Qed.

Section LoggerProperties.
Context {rt : Runtime} {G : Type} {gw : Gateway G}.


(** C10.  When the column configuration is an object that lacks one of the
    eight keys, [logError] throws a [TypeError] and the Gateway is not
    called: the logger is left as it was, its record of calls included. *)
Theorem logError_missing_column (boardId : N) (props : list (string * value))
    (data : errorData) (this : @service G) (k : string) :
  k ∈ required_columns →
  own props k = None →
  ∃ e, e_class e = TypeErrorC ∧
       logError boardId (VObj props) data this = (Throw e, this).
Proof.
  intros Hk Hmissing. unfold logError, bind, lift.
  destruct (error_name data) as [errorName|t|] eqn:Hname.
  - destruct (json_data_missing props k Hmissing) as (columns & Hclone & Hcolumns).
    destruct (assign_values_missing (assignments data errorName) columns k Hk Hcolumns)
      as (e & He & Hassign).
    exists e. split; [done|].
    unfold error_columnValues, json_clone. rewrite Hclone. cbn [rbind].
    by rewrite Hassign.
  - destruct (error_name_throws data t Hname) as (e & -> & He). by exists e.
  - by destruct (error_name_inside data).
Qed.

End LoggerProperties.

Section LoggerOnClient.
Context {rt : Runtime}.
Variable remote : list request → request → fetch_outcome.

(** With [MondayApiClient] itself a failure of the remote call does not reach
    the logger as an exception: [query] has dropped it and hands back
    [undefined], and what the logger catches is the [TypeError] of reading
    [response.data]. *)
Lemma logError_remote_failure (boardId : N) (columns : value) (data : errorData)
    (errorName : string) (columnValues : list (string * value))
    (this : @service MondayApiClient) (failure : exn) :
  error_name data = Return errorName →
  error_columnValues columns data errorName = Return columnValues →
  (∀ req, remote (posted (mondayApiClient this)) req = Rejected failure) →
  (logError (gw := MondayApiClient_Gateway remote) boardId columns data this).1 =
  Return (VObj [("monday_id", VNum (Dec 0 O));
                ("error", VStr ("***ERROR SAVING TO MONDAY - " +:+ errorName));
                ("description",
                 VStr "Failed to save: Cannot read properties of undefined (reading 'data')")]).
Proof.
  intros Hname Hvalues Hremote.
  unfold logError, bind, lift, try_catch, invoke, ret. rewrite Hname, Hvalues.
  cbn [gw_createItem MondayApiClient_Gateway].
  unfold createItem, query, withRetry, try_catch, query_attempt, bind, fetch, throw, sleep,
    modify, ret, lift.
  by rewrite Hremote.
Qed.

End LoggerOnClient.



Lemma logError_missing_column_witness :
  ∃ e, e_class e = TypeErrorC ∧
       logError (rt := plain_runtime) (gw := failing_gateway) 42
         (VObj [("client", VObj [("monday_id", VStr "text1")])]) sample_error
         {| mondayApiClient := tt; calls := [] |} =
       (Throw e, {| mondayApiClient := tt; calls := [] |}).
Proof.
  apply (logError_missing_column (rt := plain_runtime) (gw := failing_gateway) 42
           [("client", VObj [("monday_id", VStr "text1")])] sample_error
           {| mondayApiClient := tt; calls := [] |} "erreur").
  - unfold required_columns. repeat constructor.
  - reflexivity.
Defined.

(** * Further properties of the code *)

(** ** The sanitizers *)

Lemma string_rev_onto_app (s acc : string) :
  string_rev_onto s acc = string_rev s +:+ acc.
Proof.
  unfold string_rev. revert acc. induction s as [|c s IH]; intros acc; [reflexivity|].
  cbn [string_rev_onto]. rewrite IH, (IH (String c "")), string_app_assoc. reflexivity.
Qed.

Lemma string_rev_app (a b : string) : string_rev (a +:+ b) = string_rev b +:+ string_rev a.
Proof.
  induction a as [|c a IH].
  - change ("" +:+ b) with b. by rewrite string_app_empty_r.
  - rewrite string_app_cons. unfold string_rev at 1 3. cbn [string_rev_onto].
    rewrite !string_rev_onto_app, IH, string_app_assoc. reflexivity.
Qed.

Lemma trimStart_split (s : string) : ∃ spaces, s = spaces +:+ trimStart s.
Proof.
  induction s as [|c s [spaces IH]]; [by exists ""|].
  cbn [trimStart]. destruct (is_space c).
  - exists (String c spaces). rewrite string_app_cons. by rewrite <- IH.
  - by exists "".
Qed.

Lemma trimStart_head (s : string) : head_fails is_space (trimStart s).
Proof.
  induction s as [|c s IH]; [done|].
  cbn [trimStart]. by destruct (is_space c) eqn:Hc.
Qed.

Lemma trimStart_fixed (s : string) : head_fails is_space s → trimStart s = s.
Proof. destruct s as [|c s]; [done|]. cbn. by intros ->. Qed.

(** What [trim] gives has no white space left at either end. *)
Lemma trim_idem (s : string) : trim (trim s) = trim s.
Proof.
  unfold trim.
  set (t := trimStart s). set (u := trimStart (string_rev t)).
  assert (head_fails is_space (string_rev u)) as Hend.
  { destruct (trimStart_split (string_rev t)) as [spaces Hsplit]. fold u in Hsplit.
    assert (t = string_rev u +:+ string_rev spaces) as Ht.
    { by rewrite <- string_rev_app, <- Hsplit, string_rev_involutive. }
    pose proof (trimStart_head s) as Hhead. fold t in Hhead. rewrite Ht in Hhead.
    by destruct (string_rev u). }
  rewrite (trimStart_fixed _ Hend), string_rev_involutive.
  by rewrite (trimStart_fixed u (trimStart_head _)).
Qed.

(** X1.  [sanitizeText] is idempotent: what it returns, [null] or a trimmed
    string, it returns unchanged when applied again.  It returns [null] for
    [null] and [undefined] only. *)
Theorem sanitizeText_idempotent (v r : value) :
  sanitizeText v = Return r →
  sanitizeText r = Return r ∧ is_null r = nullish v.
Proof.
  unfold sanitizeText. fold (nullish v).
  destruct (nullish v) eqn:Hv; [by intros [= <-]|].
  destruct (toString v) as [s|e|]; [|done..]. cbn [rbind]. intros [= <-].
  cbn [is_null is_undefined orb toString to_String rbind]. by rewrite trim_idem.
Qed.

(** X2.  For each of the eleven column types it knows,
    [sanitizeValueForColumnType] turns [null] and [undefined] into [null]; for
    any other type it returns the value as it is, whatever the value. *)
Theorem sanitize_missing_value `{rt : Runtime} (v w columnType : value) :
  nullish v = true →
  sanitizeValueForColumnType v columnType =
    Return (if known_type columnType then VNull else v) ∧
  (known_type columnType = false → sanitizeValueForColumnType w columnType = Return w).
Proof.
  intros Hv. unfold sanitizeValueForColumnType, known_type, column_types. cbn [existsb].
  split.
  - repeat (destruct (is_str _ columnType); [by destruct v|]). reflexivity.
  - repeat (destruct (is_str _ columnType); [done|]). reflexivity.
Qed.

Lemma plus_k_complete (p : ascii → bool) (k : string → option string) (run t r : string) :
  string_forallb p run = true → run ≠ "" → k t = Some r →
  ∃ r', plus_k p k (run +:+ t) = Some r'.
Proof.
  intros Hrun Hne Hk. induction run as [|c run IH]; [done|].
  cbn [string_forallb] in Hrun. apply andb_true_iff in Hrun as [Hc Hrun].
  rewrite string_app_cons. cbn [plus_k]. rewrite Hc.
  destruct (plus_k p k (run +:+ t)) as [r'|] eqn:Hmore; [by eexists|].
  destruct run as [|c' run]; [by eexists|].
  by destruct (IH Hrun) as [r' ?].
Qed.

Lemma scan_anchored_later (atoms : list atom) (skip : nat) (s : string) :
  matches_of (scan [ABol :: atoms] false skip s) = [].
Proof.
  revert skip. induction s as [|c s IH]; intros skip; [by destruct skip|].
  destruct skip as [|skip]; [|apply IH]. cbn [scan exec_at match_seq]. apply IH.
Qed.

(** A pattern that begins with [^] is tried at the start of the input only. *)
Lemma test_anchored (atoms : list atom) (s : string) :
  js_test [ABol :: atoms] s = match match_seq atoms true s with Some _ => true | None => false end.
Proof.
  unfold js_test. destruct s as [|c s].
  - cbn [scan exec_at match_seq]. by destruct (match_seq atoms true "").
  - cbn [scan exec_at match_seq]. destruct (match_seq atoms true (String c s)) as [rest|].
    + by destruct (_ - _)%nat.
    + change (matches_of (Lit c :: ?xs)) with (matches_of xs).
      by rewrite scan_anchored_later.
Qed.

(** The e-mail pattern matches exactly the texts [local@domain.tld]. *)
Lemma emailRegex_spec (s : string) : js_test emailRegex s = true ↔ well_formed_email s.
Proof.
  unfold emailRegex. rewrite test_anchored. cbn [match_seq]. split.
  - destruct (plus_k _ _ s) as [r|] eqn:Hmatch; [intros _|done].
    apply plus_k_inv in Hmatch as (local & t1 & -> & Hne1 & Hrun1 & Hat).
    destruct t1 as [|c1 t1]; [done|].
    destruct (is_char "@" c1) eqn:Hc1; [|done]. apply Ascii.eqb_eq in Hc1 as <-.
    apply plus_k_inv in Hat as (domain & t2 & -> & Hne2 & Hrun2 & Hdot).
    destruct t2 as [|c2 t2]; [done|].
    destruct (is_char "." c2) eqn:Hc2; [|done]. apply Ascii.eqb_eq in Hc2 as <-.
    apply plus_k_inv in Hdot as (tld & t3 & -> & Hne3 & Hrun3 & Hend).
    destruct t3; [|done]. rewrite string_app_empty_r.
    by exists local, domain, tld.
  - intros (local & domain & tld & -> & [Hne1 Hrun1] & [Hne2 Hrun2] & [Hne3 Hrun3]).
    destruct (plus_k_complete (not_in [is_space; is_char "@"])
                (fun s => match s with "" => Some s | String _ _ => None end) tld "" ""
                Hrun3 Hne3 eq_refl) as [r3 Hr3].
    rewrite string_app_empty_r in Hr3.
    edestruct (plus_k_complete (not_in [is_space; is_char "@"])
                 (fun s => match s with
                           | String c s' =>
                               if is_char "." c
                               then plus_k (not_in [is_space; is_char "@"])
                                      (fun s => match s with "" => Some s | String _ _ => None end) s'
                               else None
                           | "" => None
                           end) domain ("." +:+ tld) r3 Hrun2 Hne2 Hr3) as [r2 Hr2].
    edestruct (plus_k_complete (not_in [is_space; is_char "@"])
                 (fun s => match s with
                           | String c s' =>
                               if is_char "@" c
                               then plus_k (not_in [is_space; is_char "@"])
                                      (fun s => match s with
                                                | String c s' =>
                                                    if is_char "." c
                                                    then plus_k (not_in [is_space; is_char "@"])
                                                           (fun s => match s with
                                                                     | "" => Some s
                                                                     | String _ _ => None
                                                                     end) s'
                                                    else None
                                                | "" => None
                                                end) s'
                               else None
                           | "" => None
                           end) local ("@" +:+ domain +:+ "." +:+ tld) r2 Hrun1 Hne1 Hr2)
      as [r1 Hr1].
    by rewrite Hr1.
Qed.

(** X3.  On a string, [sanitizeEmail] never throws; [text] is the input
    trimmed and in lower case, and [email] is that text when it has the form
    [local@domain.tld], each part non-empty and without white space and [@],
    and the empty string otherwise. *)
Theorem sanitizeEmail_address (s : string) :
  ∃ email,
    sanitizeEmail (VStr s) =
      Return (VObj [("email", VStr email); ("text", VStr (toLowerCase (trim s)))]) ∧
    (email = toLowerCase (trim s) ∧ well_formed_email email ∨
     email = "" ∧ ¬ well_formed_email (toLowerCase (trim s))).
Proof.
  destruct s as [|c s].
  - exists "". split; [reflexivity|]. right. split; [done|].
    intros (local & domain & tld & Hs & [Hne _] & _). by destruct local.
  - unfold sanitizeEmail. cbn [is_null is_undefined orb truthy typeof negb String.eqb].
    replace (String.eqb "string" "string") with true by reflexivity. cbn [negb orb].
    destruct (js_test emailRegex (toLowerCase (trim (String c s)))) eqn:Hvalid.
    + eexists. split; [reflexivity|]. left. split; [done|]. by apply emailRegex_spec.
    + exists "". split; [reflexivity|]. right. split; [done|].
      intros Hwf%emailRegex_spec. congruence.
Qed.

Lemma filter_ext (p q : ascii → bool) (s : string) :
  (∀ c, p c = q c) → string_filter p s = string_filter q s.
Proof.
  intros Hpq. induction s as [|c s IH]; [reflexivity|].
  cbn [string_filter]. by rewrite Hpq, IH.
Qed.

(** X4.  On a string, [sanitizePhone] keeps the digits of the input, in
    their order, and nothing else; the country is always [US].  Its phone
    sanitizes to itself. *)
Theorem sanitizePhone_digits (s : string) :
  sanitizePhone (VStr s) =
    Return (VObj [("phone", VStr (string_filter is_digit s)); ("countryShortName", VStr "US")]) ∧
  string_forallb is_digit (string_filter is_digit s) = true ∧
  sanitizePhone (VStr (string_filter is_digit s)) = sanitizePhone (VStr s).
Proof.
  assert (∀ s, sanitizePhone (VStr s) =
    Return (VObj [("phone", VStr (string_filter is_digit s)); ("countryShortName", VStr "US")]))
    as Hphone.
  { clear. intros [|c s]; [reflexivity|].
    unfold sanitizePhone. cbn [is_null is_undefined orb truthy negb String.eqb toString
      to_String rbind].
    unfold nonDigit. rewrite replace_class_filter.
    by rewrite (filter_ext _ is_digit) by (intros ?; apply negb_involutive). }
  split; [apply Hphone|]. split; [apply forallb_filter|].
  rewrite !Hphone. by rewrite (filter_id is_digit _ (forallb_filter is_digit s)).
Qed.

Lemma includes_char_rev_onto (a : ascii) (s acc : string) :
  includes_char a (string_rev_onto s acc) = includes_char a s || includes_char a acc.
Proof.
  revert acc. induction s as [|c s IH]; intros acc; [reflexivity|].
  cbn [string_rev_onto includes_char]. rewrite IH. cbn [includes_char].
  by destruct (Ascii.eqb a c), (includes_char a s), (includes_char a acc).
Qed.

Lemma includes_char_trimStart (a : ascii) (s : string) :
  includes_char a s = false → includes_char a (trimStart s) = false.
Proof.
  induction s as [|c s IH]; [done|].
  cbn [trimStart]. destruct (is_space c); [|done].
  cbn [includes_char]. intros [_ Hs]%orb_false_iff. auto.
Qed.

Lemma includes_char_trim (a : ascii) (s : string) :
  includes_char a s = false → includes_char a (trim s) = false.
Proof.
  intros Hs. unfold trim, string_rev.
  rewrite includes_char_rev_onto, orb_false_r. apply includes_char_trimStart.
  rewrite includes_char_rev_onto, orb_false_r. by apply includes_char_trimStart.
Qed.

Lemma split_on_pieces (sep : ascii) (s : string) :
  Forall (fun p => includes_char sep p = false) (split_on sep s).
Proof.
  induction s as [|c s IH]; [by repeat constructor|].
  cbn [split_on]. destruct (Ascii.eqb sep c) eqn:Hc; [by constructor|].
  destruct (split_on sep s) as [|p ps].
  - repeat constructor. cbn [includes_char]. by rewrite Hc.
  - inversion IH; subst. constructor; [|done]. cbn [includes_char]. by rewrite Hc.
Qed.

Lemma labels_filter (ls : list string) :
  filter (fun l => nonEmptyLabel l = true) (VStr <$> ls) = VStr <$> filter (fun l => l ≠ "") ls.
Proof.
  induction ls as [|l ls IH]; [done|].
  rewrite fmap_cons, !filter_cons, IH.
  destruct l as [|c l]; cbn; repeat case_decide; done.
Qed.

Lemma labels_fixed (ls : list string) :
  Forall (fun l => l ≠ "" ∧ trim l = l) ls →
  rmap_list (fun x => let? s := toString x in Return (VStr (trim s))) (VStr <$> ls) =
  Return (VStr <$> ls).
Proof.
  induction 1 as [|l ls [Hne Htrim] _ IH]; [done|].
  rewrite fmap_cons. cbn [rmap_list toString to_String rbind]. by rewrite IH, Htrim.
Qed.

Lemma filter_all {A} (P : A → Prop) `{∀ x, Decision (P x)} (l : list A) :
  Forall P l → filter P l = l.
Proof. induction 1 as [|x l Hx _ IH]; [done|]. by rewrite filter_cons_True, IH. Qed.

(** X5.  On a string, [sanitizeDropdown] returns the pieces between the
    commas, trimmed, without the empty ones: every label is non-empty, has no
    white space at its ends and no comma.  The array of these labels
    sanitizes to the same labels. *)
Theorem sanitizeDropdown_labels (s : string) :
  let labels := filter (fun l => l ≠ "") (trim <$> split_on "," s) in
  sanitizeDropdown (VStr s) = Return (VObj [("labels", VArr (VStr <$> labels))]) ∧
  Forall (fun l => l ≠ "" ∧ trim l = l ∧ includes_char "," l = false) labels ∧
  sanitizeDropdown (VArr (VStr <$> labels)) = Return (VObj [("labels", VArr (VStr <$> labels))]).
Proof.
  intros labels.
  assert (Forall (fun l => l ≠ "" ∧ trim l = l ∧ includes_char "," l = false) labels) as Hlabels.
  { apply Forall_forall. intros l [Hne Hin]%list_elem_of_filter.
    apply list_elem_of_fmap in Hin as (p & -> & Hp).
    split; [done|]. split; [apply trim_idem|].
    apply includes_char_trim.
    by apply (proj1 (Forall_forall _ _) (split_on_pieces "," s)). }
  split; [|split; [done|]].
  - destruct s as [|c s]; [reflexivity|].
    unfold sanitizeDropdown. cbn [is_null is_undefined orb truthy negb String.eqb].
    subst labels. rewrite <- labels_filter. by rewrite <- list_fmap_compose.
  - unfold sanitizeDropdown. cbn [is_null is_undefined orb truthy negb].
    rewrite labels_fixed by (eapply Forall_impl; [exact Hlabels|]; by intros l (? & ? & ?)).
    cbn [rbind]. rewrite labels_filter.
    rewrite (filter_all (fun l => l ≠ "") labels); [done|].
    eapply Forall_impl; [exact Hlabels|]. by intros l (? & ? & ?).
Qed.

(** X6.  What [sanitizeStatus] returns is [null], for [null] and
    [undefined] only, or one label without white space at its ends; that
    label sanitizes to the same result. *)
Theorem sanitizeStatus_label (v r : value) :
  sanitizeStatus v = Return r →
  (r = VNull ∧ nullish v = true) ∨
  (∃ l, r = VObj [("label", VStr l)] ∧ nullish v = false ∧ trim l = l ∧
        sanitizeStatus (VStr l) = Return r).
Proof.
  assert (∀ l, trim l = l → sanitizeStatus (VStr l) = Return (VObj [("label", VStr l)]))
    as Hfixed.
  { intros [|c l] Hl; [reflexivity|].
    unfold sanitizeStatus. cbn [is_null is_undefined orb truthy negb String.eqb toString
      to_String rbind]. by rewrite Hl. }
  unfold sanitizeStatus, nullish.
  destruct (is_null v || is_undefined v); [intros [= <-]; by left|].
  destruct (truthy v); cbn [negb].
  - destruct (toString v) as [s|e|]; [|done..]. cbn [rbind]. intros [= <-]. right.
    exists (trim s). split; [done|]. split; [done|]. split; [apply trim_idem|].
    apply Hfixed, trim_idem.
  - intros [= <-]. right. exists "". split; [done|]. split; [done|]. split; [done|].
    by apply Hfixed.
Qed.

Lemma items_strings (xs ys : list value) :
  rmap_list (fun id => let? s := toString id in Return (VStr s)) xs = Return ys →
  ∃ ids, ys = VStr <$> ids ∧ length ids = length xs.
Proof.
  revert ys. induction xs as [|x xs IH]; intros ys.
  - intros [= <-]. by exists [].
  - cbn [rmap_list]. destruct (toString x) as [s|e|]; [|done..]. cbn [rbind].
    destruct (rmap_list _ xs) as [ys'|e|]; [|done..]. cbn [rbind]. intros [= <-].
    destruct (IH ys' eq_refl) as (ids & -> & Hlen).
    exists (s :: ids). split; [done|]. cbn [length]. by rewrite Hlen.
Qed.

Lemma items_fixed (ids : list string) :
  rmap_list (fun id => let? s := toString id in Return (VStr s)) (VStr <$> ids) =
  Return (VStr <$> ids).
Proof.
  induction ids as [|i ids IH]; [done|].
  rewrite fmap_cons. cbn [rmap_list toString to_String rbind]. by rewrite IH.
Qed.

(** X7.  [sanitizeBoardRelation] is idempotent.  What it returns is [null]
    or an object whose only property [item_ids] lists strings, as many as the
    [item_ids] of the input has elements. *)
Theorem sanitizeBoardRelation_idempotent (v r : value) :
  sanitizeBoardRelation v = Return r →
  sanitizeBoardRelation r = Return r ∧
  (r = VNull ∨
   ∃ ids xs, r = VObj [("item_ids", VArr (VStr <$> ids))] ∧
             get_prop v "item_ids" = VArr xs ∧ length ids = length xs).
Proof.
  unfold sanitizeBoardRelation at 1.
  destruct (is_null v || is_undefined v); [intros [= <-]; split; [done|by left]|].
  destruct (truthy v && truthy (get_prop v "item_ids")); [|intros [= <-]; split; [done|by left]].
  destruct (get_prop v "item_ids") as [| | | | |xs|]; try done.
  destruct (rmap_list _ xs) as [ys|e|] eqn:Hitems; [|done..]. cbn [rbind]. intros [= <-].
  destruct (items_strings xs ys Hitems) as (ids & -> & Hlen).
  split; [|right; by exists ids, xs].
  unfold sanitizeBoardRelation.
  cbn [is_null is_undefined orb truthy andb get_prop own String.eqb Ascii.eqb Bool.eqb
       from_option id].
  by rewrite items_fixed.
Qed.

Lemma negate_number (n : number) : isNaN (negate n) = isNaN n.
Proof. by destruct n. Qed.

Lemma numbers_or_null (v : value) :
  match sanitizeNumbers v with
  | Return r => r = VNull ∨ ∃ n, r = VNum n ∧ isNaN n = false
  | Throw _ => isArray v = true
  | Outside => False
  end.
Proof.
  unfold sanitizeNumbers.
  destruct (is_null v || is_undefined v); [by left|].
  destruct (is_str "" v); [by left|].
  destruct (String.eqb (typeof v) "object" && negb (isArray v) && negb (instanceof_Date v))
    eqn:Hobject; [by left|].
  pose proof (to_String_inside v) as Hinside.
  destruct (to_String v) as [strValue|e|] eqn:Hstring; cbn [rbind]; [| |done].
  - destruct (String.eqb _ ""); [by left|]. cbv zeta.
    match goal with |- context [isNaN ?n] => destruct (isNaN n) eqn:Hnumber end; [by left|].
    right. eexists. split; [reflexivity|].
    destruct (startsWith _ _); [by rewrite negate_number|done].
  - by destruct v as [| |[]| | | |].
Qed.

(** X8.  [cleanNumbers] returns a number that is not [NaN], whatever it is
    given; it can throw on an array only.  For a value in which
    [sanitizeNumbers] finds no digit ([null], [undefined], a boolean, an
    object, [NaN], a string without digits) the number is 0. *)
Theorem cleanNumbers_number (v : value) :
  match cleanNumbers v with
  | Return r => ∃ n, r = VNum n ∧ isNaN n = false
  | Throw _ => isArray v = true
  | Outside => False
  end ∧
  (digitless v = true → cleanNumbers v = Return (VNum (Dec 0 O))).
Proof.
  split.
  - unfold cleanNumbers. pose proof (numbers_or_null v) as Hresult.
    destruct (sanitizeNumbers v) as [r|e|]; [|done..]. cbn [rbind].
    destruct Hresult as [->|(n & -> & Hn)]; by eexists.
  - unfold cleanNumbers. destruct v as [| |[]|[|negative|m e]|s|xs|props]; try done.
    cbn [digitless]. intros Hs. rewrite sanitizeNumbers_filter.
    rewrite sanitizeNumbers_dots by (by apply no_digit_dots). reflexivity.
Qed.

(** X9.  A string that is no JSON text is taken by [sanitizeLocation] for
    an address.  A string that is one is replaced by what it denotes, which is
    never parsed again: an object or array is sanitized as such, a string, a
    number and a boolean give [null], and the text [null] makes the function
    throw, at the read of [lat]. *)
Theorem sanitizeLocation_text `{rt : Runtime} (s : string) :
  sanitizeLocation (VStr s) =
    match JSON_parse s with
    | None => Return (VObj [("address", VStr s)])
    | Some VNull => Throw (TypeError "Cannot read properties of null (reading 'lat')")
    | Some (VArr xs) => sanitizeLocation (VArr xs)
    | Some (VObj props) => sanitizeLocation (VObj props)
    | Some _ => Return VNull
    end.
Proof.
  unfold sanitizeLocation. cbn [is_null is_undefined orb].
  destruct (JSON_parse s) as [[]|]; reflexivity.
Qed.

(** ** The API client *)

Section ClientOutcomes.
Context {rt : Runtime}.
Variable remote : list request → request → fetch_outcome.

Lemma gt_zero_throws (v : value) (t : thrown) : gt_zero v = Throw t → type_error t.
Proof.
  unfold gt_zero.
  destruct v as [| |b|n|s|xs|props]; try done;
    (destruct (to_String _) as [text|t'|] eqn:Htext; cbn [rbind]; [done| |done];
     intros [= <-]; by eapply to_String_throws).
Qed.

Lemma gt_zero_inside (v : value) : gt_zero v ≠ Outside.
Proof.
  unfold gt_zero.
  destruct v as [| |b|n|s|xs|props]; try done;
    (match goal with |- context [to_String ?x] => pose proof (to_String_inside x) end;
     by destruct (to_String _)).
Qed.

Lemma toString_inside (v : value) : toString v ≠ Outside.
Proof.
  destruct v as [| |b|n|s|xs|props]; try done; cbn [toString].
  - by destruct b.
  - apply to_String_inside.
  - by destruct (own props "toString").
Qed.

(** An accepted body is not [null]: its properties can be read. *)
Lemma accepted_body (outcome : fetch_outcome) (body : value) (k : string) :
  accepted outcome = Some body → member body k = Return (get_prop body k).
Proof.
  unfold accepted, lists_errors, member.
  destruct outcome as [failure|resp]; [done|].
  destruct (ok resp); [|done]. destruct (json resp) as [answer|failure]; [|done].
  destruct (nullish answer) eqn:Hnull; [done|]. intros Haccepted.
  assert (body = answer) as -> by (repeat case_match; congruence).
  by rewrite Hnull.
Qed.

(** What [query] hands to [withRetry] posts one request; it returns an
    accepted body and throws an Error object in every other case. *)
Lemma query_attempt_run (q : string) (variables : list (string * value)) (c : MondayApiClient) :
  match accepted (remote (posted c) (request_of c (query_payload q variables))) with
  | Some body =>
      query_attempt remote q variables c = (Return body, after_post c (query_payload q variables))
  | None =>
      ∃ e : exn,
        query_attempt remote q variables c = (Throw e, after_post c (query_payload q variables))
  end.
Proof.
  unfold query_attempt, bind, fetch, lift, throw, ret, accepted, lists_errors.
  destruct (remote _ _) as [failure|resp]; [by eexists|].
  destruct (ok resp); cbn [negb]; [|by eexists].
  destruct (json resp) as [body|failure]; [|by eexists].
  destruct (nullish body) eqn:Hnull.
  { unfold member. rewrite Hnull. by eexists. }
  assert (member body "errors" = Return (get_prop body "errors")) as ->
    by (unfold member; by rewrite Hnull).
  destruct (truthy (get_prop body "errors")); [|reflexivity].
  pose proof (gt_zero_throws (get_prop (get_prop body "errors") "length")) as Hthrows.
  pose proof (gt_zero_inside (get_prop (get_prop body "errors") "length")) as Hinside.
  destruct (gt_zero _) as [[]|t|]; [|reflexivity| |done].
  - unfold member. destruct (nullish (get_prop (get_prop body "errors") "0")); [by eexists|].
    pose proof (to_String_throws
                  (get_prop (get_prop (get_prop body "errors") "0") "message")) as Htext.
    pose proof (to_String_inside
                  (get_prop (get_prop (get_prop body "errors") "0") "message")) as Hin.
    destruct (to_String _) as [shown|t|]; [| |done].
    + destruct (get_prop (get_prop (get_prop body "errors") "0") "message"); by eexists.
    + destruct (Htext t eq_refl) as (e & -> & _). by eexists.
  - destruct (Hthrows t eq_refl) as (e & -> & _). by eexists.
Qed.

Lemma query_run (q : string) (variables : list (string * value)) (c : MondayApiClient) :
  query remote q variables c =
    match accepted (remote (posted c) (request_of c (query_payload q variables))) with
    | Some body => (Return body, after_post c (query_payload q variables))
    | None => (Return VUndef, after_sleep 45000 (after_post c (query_payload q variables)))
    end.
Proof.
  pose proof (query_attempt_run q variables c) as Hattempt.
  unfold query, withRetry, try_catch.
  destruct (accepted _) as [body|]; [by rewrite Hattempt|].
  destruct Hattempt as [e ->]. reflexivity.
Qed.

(** X10.  [query] never fails.  It posts exactly one request and resolves to
    the value the response body denotes when the status is a success, the
    body parses, is not [null] and lists no error; in every other case (no
    connection, an HTTP error, a body that is no JSON or is [null], GraphQL
    errors) it waits 45 seconds and resolves to [undefined].  [fetchMonday] is
    that on a new client, without variables. *)
Theorem query_outcome (q : string) (variables : list (string * value)) (c : MondayApiClient)
    (key : string) :
  query remote q variables c =
    match accepted (remote (posted c) (request_of c (query_payload q variables))) with
    | Some body => (Return body, after_post c (query_payload q variables))
    | None => (Return VUndef, after_sleep 45000 (after_post c (query_payload q variables)))
    end ∧
  fetchMonday remote key q =
    match accepted (remote [] (request_of (new_MondayApiClient key) (VObj [("query", VStr q)]))) with
    | Some body => (Return body,
                    after_post (new_MondayApiClient key) (VObj [("query", VStr q)]))
    | None => (Return VUndef,
               after_sleep 45000 (after_post (new_MondayApiClient key) (VObj [("query", VStr q)])))
    end.
Proof. split; [apply query_run|]. apply (query_run q [] (new_MondayApiClient key)). Qed.

Lemma js_or_truthy (a b : value) : truthy b = true → truthy (js_or a b) = true.
Proof. intros Hb. unfold js_or. by destruct (truthy a) eqn:Ha. Qed.

(** X11.  [getBoardColumns] asks the remote system once per board.  A call for
    a board the client does not remember, when it returns, has posted one
    request, returns the columns of the first board of the response, an empty
    list when there are none (never [null] or [undefined]), and every later
    call for the board returns the same columns without posting anything. *)
Theorem getBoardColumns_once (boardId : N) (c c' : MondayApiClient) (columns : value) :
  board_columns c !! boardId = None →
  getBoardColumns remote boardId c = (Return columns, c') →
  (∃ body,
     accepted (remote (posted c)
                 (request_of c (query_payload GetBoardColumns
                                  [("boardId", VStr (board_key boardId))]))) = Some body ∧
     columns = js_or (opt_member (opt_member (opt_member (get_prop body "data") "boards") "0")
                                 "columns")
                     (VArr [])) ∧
  truthy columns = true ∧
  posted c' = posted c ++ [request_of c (query_payload GetBoardColumns
                                           [("boardId", VStr (board_key boardId))])] ∧
  getBoardColumns remote boardId c' = (Return columns, c').
Proof.
  intros Hnew. unfold getBoardColumns at 1. unfold bind at 1, get. rewrite Hnew.
  unfold bind. rewrite query_run.
  destruct (accepted _) as [body|] eqn:Haccepted; [|done].
  unfold lift, set_board_columns, modify, ret. rewrite (accepted_body _ _ "data" Haccepted).
  intros [= <- <-]. split; [by exists body|].
  split; [by apply js_or_truthy|]. split; [reflexivity|].
  apply getBoardColumns_known. cbn [board_columns]. apply lookup_insert_eq.
Qed.

(** X12.  When the request for the columns of a board fails in any way,
    [getBoardColumns] throws the [TypeError] of reading [data] on the
    [undefined] that [query] resolved to, whatever the failure was, after the
    wait of 45 seconds; it remembers nothing, so the next call posts again. *)
Theorem getBoardColumns_failure (boardId : N) (c : MondayApiClient) :
  board_columns c !! boardId = None →
  accepted (remote (posted c)
              (request_of c (query_payload GetBoardColumns
                               [("boardId", VStr (board_key boardId))]))) = None →
  getBoardColumns remote boardId c =
    (Throw (TypeError "Cannot read properties of undefined (reading 'data')"),
     after_sleep 45000
       (after_post c (query_payload GetBoardColumns [("boardId", VStr (board_key boardId))]))) ∧
  board_columns (getBoardColumns remote boardId c).2 !! boardId = None.
Proof.
  intros Hnew Hfailed.
  assert (getBoardColumns remote boardId c =
    (Throw (TypeError "Cannot read properties of undefined (reading 'data')"),
     after_sleep 45000
       (after_post c (query_payload GetBoardColumns [("boardId", VStr (board_key boardId))]))))
    as Hrun.
  { unfold getBoardColumns, bind, get. rewrite Hnew.
    rewrite query_run, Hfailed. reflexivity. }
  split; [exact Hrun|]. by rewrite Hrun.
Qed.

(** X13.  [logErrorToMonday] on a prepared item posts one request, the
    [CreateItem] mutation, in the name of the configured key, and its result
    is decided by the answer alone.  An accepted answer with an item id gives
    that id and the error name; one without gives id 0 and the name behind
    ["***NOT SAVED IN MONDAY - "].  Every failure of the request, whatever its
    cause, gives id 0, the name behind ["***ERROR SAVING TO MONDAY - "] and as
    description the [TypeError] of reading [data] on [undefined]: the cause is
    not reported. *)
Theorem logErrorToMonday_outcome (config : errorConfig) (data : errorData)
    (errorName : string) (columnValues : list (string * value)) :
  error_name data = Return errorName →
  error_columnValues (columns config) data errorName = Return columnValues →
  let request :=
    request_of (new_MondayApiClient (mondayApiKey config))
      (query_payload CreateItem
         [("boardId", VStr (board_key (boardId config)));
          ("itemName", VStr errorName);
          ("columnValues", VStr (JSON_stringify (VObj columnValues)));
          ("createLabels", VBool true)]) in
  (logErrorToMonday remote config data).1 =
    Return
      match accepted (remote [] request) with
      | Some body =>
          let mondayId :=
            js_or (opt_member (opt_member (get_prop body "data") "create_item") "id")
                  (VNum (Dec 0 O)) in
          VObj [("monday_id", mondayId);
                ("error", VStr (if truthy mondayId then errorName
                                else "***NOT SAVED IN MONDAY - " +:+ errorName));
                ("description", js_or (description data) (VStr errorName))]
      | None =>
          VObj [("monday_id", VNum (Dec 0 O));
                ("error", VStr ("***ERROR SAVING TO MONDAY - " +:+ errorName));
                ("description",
                 VStr "Failed to save: Cannot read properties of undefined (reading 'data')")]
      end ∧
  posted (mondayApiClient (logErrorToMonday remote config data).2) = [request].
Proof.
  intros Hname Hvalues request.
  unfold logErrorToMonday, logError, bind, lift, try_catch, invoke, ret.
  rewrite Hname, Hvalues. cbn [gw_createItem MondayApiClient_Gateway mondayApiClient].
  unfold createItem. cbn [from_option id]. rewrite query_run.
  cbn [posted new_MondayApiClient]. fold request.
  destruct (accepted (remote [] request)) as [body|] eqn:Haccepted; [|split; reflexivity].
  rewrite (accepted_body _ _ "data" Haccepted). cbn [fst snd].
  split; [|done]. by destruct (truthy (js_or _ _)).
Qed.

(** X14.  [createItem] never throws and posts exactly one request, the
    [CreateItem] mutation with the board id as text and the column values
    serialised.  [updateItem] throws before it posts anything when the item id
    has no text ([null], [undefined], an object whose [toString] is not
    callable); otherwise it does not throw either and posts exactly one
    [UpdateItem] mutation. *)
Theorem mutations_post_once (boardId : N) (itemName : string) (columnValues itemId : value)
    (createLabels : bool) (c : MondayApiClient) :
  (∃ v, (createItem remote boardId itemName columnValues createLabels c).1 = Return v) ∧
  posted (createItem remote boardId itemName columnValues createLabels c).2 =
    posted c ++ [request_of c (query_payload CreateItem
                                 [("boardId", VStr (board_key boardId));
                                  ("itemName", VStr itemName);
                                  ("columnValues", VStr (JSON_stringify columnValues));
                                  ("createLabels", VBool createLabels)])] ∧
  match toString itemId with
  | Return id =>
      (∃ v, (updateItem remote itemId boardId columnValues c).1 = Return v) ∧
      posted (updateItem remote itemId boardId columnValues c).2 =
        posted c ++ [request_of c (query_payload UpdateItem
                                     [("itemId", VStr id);
                                      ("boardId", VStr (board_key boardId));
                                      ("columnValues", VStr (JSON_stringify columnValues))])]
  | Throw failure => updateItem remote itemId boardId columnValues c = (Throw failure, c)
  | Outside => False
  end.
Proof.
  unfold createItem, updateItem, bind, lift. rewrite query_run.
  split; [destruct (accepted _); by eexists|].
  split; [by destruct (accepted _)|].
  pose proof (toString_inside itemId) as Hinside.
  destruct (toString itemId) as [id|failure|]; [|done..]. rewrite query_run.
  split; [destruct (accepted _); by eexists|]. by destruct (accepted _).
Qed.

(** X20.  [createOrUpdateItem] on the repository's own client makes one
    mutation with the payload of [processMapping]: [updateItem] when [itemId]
    is truthy, [createItem] otherwise, so also for the item id 0 or the empty
    string.  [createItem] is called with three arguments, without
    [createLabels]; its default is what turns label creation on, and the one
    request the creation posts carries [createLabels] as [true].  When
    [processMapping] throws, no mutation is called. *)
Theorem createOrUpdateItem_mutation (boardId : N) (mappingConfig : list (string * nat))
    (externalData : value) (itemName : string) (itemId : value)
    (this this1 : @MondayDynamicMapper MondayApiClient) (outcome : result value) :
  processMapping (gw := MondayApiClient_Gateway remote)
    mappingConfig externalData boardId this = (outcome, this1) →
  createOrUpdateItem (gw := MondayApiClient_Gateway remote)
    boardId mappingConfig externalData itemName itemId this =
    match outcome with
    | Throw failure => (Throw failure, this1)
    | Outside => (Outside, this1)
    | Return columnValues =>
        let '(r, c) :=
          (if truthy itemId then updateItem remote itemId boardId columnValues
           else createItem remote boardId itemName columnValues true)
            (mondayApiClient (gateway this1)) in
        (r, {| gateway :=
                 {| mondayApiClient := c;
                    calls := calls (gateway this1) ++
                             [if truthy itemId then UpdateItemCall itemId boardId columnValues
                              else CreateItemCall boardId itemName columnValues None] |};
               columnSettingsCache := columnSettingsCache this1;
               objects := objects this1 |})
    end ∧
  ∀ columnValues : value,
    outcome = Return columnValues → truthy itemId = false →
    posted (mondayApiClient (gateway (createOrUpdateItem (gw := MondayApiClient_Gateway remote)
                                        boardId mappingConfig externalData itemName itemId
                                        this).2)) =
      posted (mondayApiClient (gateway this1)) ++
      [request_of (mondayApiClient (gateway this1))
         (query_payload CreateItem
            [("boardId", VStr (board_key boardId));
             ("itemName", VStr itemName);
             ("columnValues", VStr (JSON_stringify columnValues));
             ("createLabels", VBool true)])].
Proof.
  intros Hmap. unfold createOrUpdateItem, bind. rewrite Hmap. split.
  - destruct outcome as [columnValues|failure|]; [|reflexivity..].
    unfold on_gateway, invoke. cbn [gw_updateItem gw_createItem MondayApiClient_Gateway].
    cbn [from_option id]. destruct (truthy itemId).
    + by destruct (updateItem _ _ _ _ _).
    + by destruct (createItem _ _ _ _ _ _).
  - intros columnValues -> Hfalsy. rewrite Hfalsy.
    unfold on_gateway, invoke. cbn [gw_createItem MondayApiClient_Gateway from_option id].
    unfold createItem. rewrite query_run. by destruct (accepted _).
Qed.

End ClientOutcomes.

(** ** The schema cache and the mapper *)

Lemma board_key_inj (a b : N) : board_key a = board_key b → a = b.
Proof.
  unfold board_key, nat_digits. rewrite !N2Z.id. intros Hkey.
  apply DecimalN.Unsigned.to_uint_inj.
  assert (∀ n, DecimalString.NilZero.uint_of_string
                 (DecimalString.NilZero.string_of_uint (N.to_uint n)) = Some (N.to_uint n))
    as Hread.
  { intros n. apply DecimalString.NilZero.usu. destruct n as [|p]; [done|].
    apply DecimalPos.Unsigned.to_uint_nonnil. }
  pose proof (Hread a) as Ha. rewrite Hkey, Hread in Ha. by injection Ha.
Qed.

Lemma cacheKey_inj (a b : N) : cacheKey a = cacheKey b → a = b.
Proof. unfold cacheKey. intros Hkey. apply board_key_inj. by simplify_eq. Qed.

(** ** Paths and the populate step *)

Lemma split_on_app (sep : ascii) (p q : string) :
  split_on sep (p +:+ String sep q) = split_on sep p ++ split_on sep q.
Proof.
  induction p as [|c p IH].
  - change ("" +:+ String sep q) with (String sep q). cbn [split_on].
    by rewrite Ascii.eqb_refl.
  - rewrite string_app_cons. cbn [split_on]. rewrite IH.
    destruct (Ascii.eqb sep c); [reflexivity|].
    by destruct (split_on_cons sep p) as (p0 & ps & ->).
Qed.

(** X15.  Dotted paths compose: resolving [p.q] is resolving [q] in what
    [p] resolves to, and fails as resolving [p] does.  From a falsy start,
    [null] and [undefined] included, [getNestedValue] reads nothing and gives
    [undefined], whatever the path. *)
Theorem getNestedValue_compose (obj blank : value) (p q : string) :
  truthy blank = false →
  getNestedValue obj (VStr (p +:+ "." +:+ q)) =
    (let? v := getNestedValue obj (VStr p) in getNestedValue v (VStr q)) ∧
  getNestedValue blank (VStr p) = Return VUndef.
Proof.
  intros Hblank. split.
  - unfold getNestedValue.
    change (p +:+ "." +:+ q) with (p +:+ String "." q).
    rewrite split_on_app, fold_left_app.
    destruct (fold_left nested_step (split_on "." p) (Return obj)) as [v|e|];
      [reflexivity|by apply fold_stopped..].
  - unfold getNestedValue.
    destruct (split_on_cons "." p) as (key & rest & ->).
    cbn [fold_left]. rewrite nested_step_return, Hblank. apply fold_undefined.
Qed.


Lemma populate_entry_config (externalData : value) (pc pc1 : list (string * nat))
    (k : string) (l : nat) (h h1 : list (list (string * value))) :
  populate_entry externalData pc (k, l) h = (Return pc1, h1) →
  pc1 = entry_set pc k (length h).
Proof.
  intros Hhead. unfold populate_entry, bind, get, spread, throw, ret in Hhead.
  destruct (h !! l); [|done]. repeat case_match; by simplify_eq.
Qed.



Section MapperOutcomes.
Context {rt : Runtime} {G : Type} {gw : Gateway G}.

(** X17.  A get of the schema cache that fails, because the Gateway call
    throws or because what it returns is no list of columns, reads the message
    of what was thrown.  For an Error object, and for any other value whose
    [message] can be read and has a text, it throws an [Error] whose message
    is ["Failed to fetch column settings for board "], the board id, [": "]
    and that message; when the Gateway rejects with [null] or [undefined], it
    throws the [TypeError] of reading the message.  Nothing is put into the
    cache, so the next get calls the Gateway again. *)
Theorem fetchBoardColumnSettings_failure (boardId : N) (this : MondayDynamicMapper)
    (outcome : result value) (g : G) (failure : thrown) :
  columnSettingsCache this !! cacheKey boardId = None →
  gw_getBoardColumns boardId (mondayApiClient (gateway this)) = (outcome, g) →
  (let? columns := outcome in build_columnMap columns) = Throw failure →
  fetchBoardColumnSettings boardId this =
    ((let? message := message_text failure in
      Throw (Error ("Failed to fetch column settings for board " +:+ board_key boardId +:+
                    ": " +:+ message))),
     {| gateway := {| mondayApiClient := g;
                      calls := calls (gateway this) ++ [GetBoardColumnsCall boardId] |};
        columnSettingsCache := columnSettingsCache this;
        objects := objects this |}) ∧
  match failure with
  | ErrorObject e => message_text failure = Return (e_message e)
  | OtherValue VNull =>
      message_text failure =
      Throw (TypeError "Cannot read properties of null (reading 'message')")
  | OtherValue VUndef =>
      message_text failure =
      Throw (TypeError "Cannot read properties of undefined (reading 'message')")
  | OtherValue v => message_text failure = to_String (get_prop v "message")
  end.
Proof.
  intros Hmiss Hget Hfailure. split; [|by destruct failure as [e|[]]].
  unfold_fetch. rewrite Hmiss. cbn beta. rewrite Hget.
  destruct outcome as [columns|e|]; cbn [rbind] in Hfailure; [| |done].
  - rewrite Hfailure. by destruct (message_text failure).
  - injection Hfailure as ->. by destruct (message_text failure).
Qed.

(** X18.  [clearColumnCache(boardId)] forgets the Schema Map of that board and
    keeps those of all other boards; without an argument, and with the board
    id 0, it forgets every board.  It never touches the Gateway. *)
Theorem clearColumnCache_scope (this : @MondayDynamicMapper G) (boardId other : N) :
  boardId ≠ 0%N →
  other ≠ boardId →
  columnSettingsCache (clearColumnCache (Some boardId) this).2 !! cacheKey boardId = None ∧
  columnSettingsCache (clearColumnCache (Some boardId) this).2 !! cacheKey other =
    columnSettingsCache this !! cacheKey other ∧
  columnSettingsCache (clearColumnCache (Some 0%N) this).2 = ∅ ∧
  columnSettingsCache (clearColumnCache None this).2 = ∅ ∧
  gateway (clearColumnCache (Some boardId) this).2 = gateway this ∧
  gateway (clearColumnCache None this).2 = gateway this.
Proof.
  intros Hboard Hother. destruct boardId as [|p]; [done|].
  cbn [clearColumnCache]. unfold on_cache, modify. cbn [snd columnSettingsCache gateway].
  split; [apply lookup_delete_eq|]. split; [|done].
  apply lookup_delete_ne. intros Hkey. by apply cacheKey_inj in Hkey.
Qed.

Lemma fetchBoardColumnSettings_cached (boardId : N) (this this' : MondayDynamicMapper)
    (columnMap : gmap string value) :
  fetchBoardColumnSettings boardId this = (Return columnMap, this') →
  columnSettingsCache this' !! cacheKey boardId = Some columnMap.
Proof.
  destruct (columnSettingsCache this !! cacheKey boardId) as [known|] eqn:Hcache.
  - rewrite (fetchBoardColumnSettings_hit _ _ _ Hcache). by intros [= <- <-].
  - intros Hget.
    destruct (fetchBoardColumnSettings_returns _ _ _ _ Hcache Hget)
      as (columns & g & Hcolumns & Hbuild).
    rewrite (fetchBoardColumnSettings_miss _ _ _ _ _ Hcache Hcolumns Hbuild) in Hget.
    injection Hget as <-. cbn [columnSettingsCache]. apply lookup_insert_eq.
Qed.

Lemma Forall_obj_set (P : string * value → Prop) (props : list (string * value))
    (k : string) (v : value) :
  Forall P props → P (k, v) → Forall P (obj_set props k v).
Proof.
  intros Hprops Hnew. induction Hprops as [|[k0 v0] props H0 Hprops IH].
  - by repeat constructor.
  - cbn [obj_set]. destruct (String.eqb k0 k); by constructor.
Qed.

Lemma entry_set_keys (config : list (string * nat)) (k k' : string) (l : nat) :
  k' ∈ (entry_set config k l).*1 → k' = k ∨ k' ∈ config.*1.
Proof.
  induction config as [|[k0 l0] config IH]; cbn [entry_set fmap list_fmap fst].
  - intros [->|Hin%elem_of_nil]%elem_of_cons; [by left|done].
  - destruct (String.eqb k0 k) eqn:Hk0; cbn [fmap list_fmap fst].
    + intros [->|Hin]%elem_of_cons; [by left|]. right. by right.
    + intros [->|Hin]%elem_of_cons; [right; by left|].
      destruct (IH Hin) as [->|Hrest]; [by left|]. right. by right.
Qed.

Lemma populate_entries_subset (externalData : value) (entries pc pc' : list (string * nat))
    (h h' : list (list (string * value))) (k : string) :
  populate_entries entries externalData pc h = (Return pc', h') →
  k ∈ pc'.*1 → k ∈ pc.*1 ∨ k ∈ entries.*1.
Proof.
  revert pc h. induction entries as [|[k0 l0] rest IH]; intros pc h.
  - intros [= <- _]. by left.
  - cbn [populate_entries]. unfold bind.
    destruct (populate_entry externalData pc (k0, l0) h) as [[pc1|e|] h1] eqn:Hhead; [|done..].
    apply populate_entry_config in Hhead as ->. intros Hrest Hin.
    cbn [fmap list_fmap fst].
    destruct (IH _ _ Hrest Hin) as [Hset|Hlater]; [|right; by right].
    destruct (entry_set_keys _ _ _ _ Hset) as [->|Hold]; [right; by left|by left].
Qed.

(** What is in the payload comes from a configuration key that is a tag of
    the Schema Map, under the id of the tagged column, and is not [null]. *)
Lemma build_columnValues_entries (h : list (list (string * value)))
    (columnMap : gmap string value) (keys : list string)
    (entries : list (string * nat)) (columnValues payload : list (string * value)) :
  let sound (kv : string * value) :=
    is_null kv.2 = false ∧
    ∃ configKey columnInfo, configKey ∈ keys ∧ columnMap !! configKey = Some columnInfo ∧
                            to_String (get_prop columnInfo "id") = Return kv.1 in
  (∀ k, k ∈ entries.*1 → k ∈ keys) →
  Forall sound columnValues →
  build_columnValues h columnMap entries columnValues = Return payload →
  Forall sound payload.
Proof.
  intros sound. revert columnValues.
  induction entries as [|[k l] rest IH]; intros columnValues Hkeys Hsound.
  - by intros [= <-].
  - cbn [build_columnValues].
    assert (∀ k', k' ∈ rest.*1 → k' ∈ keys) as Hrest.
    { intros k' Hin. apply Hkeys. cbn [fmap list_fmap fst]. by right. }
    destruct (h !! l) as [configData|]; [|done].
    destruct (truthy (get_prop (VObj configData) "in_monday")); cbn [negb]; [|by apply IH].
    destruct (columnMap !! k) as [columnInfo|] eqn:Hcolumn; [|by apply IH].
    destruct (sanitizeValueForColumnType _ _) as [sanitizedValue|e|]; [|done..]. cbn [rbind].
    destruct (is_null sanitizedValue) eqn:Hnull; cbn [negb]; [by apply IH|].
    destruct (to_String (get_prop columnInfo "id")) as [id|e|] eqn:Hid; [|done..]. cbn [rbind].
    apply IH; [done|]. apply Forall_obj_set; [done|].
    split; [done|]. exists k, columnInfo. split; [|done].
    apply Hkeys. cbn [fmap list_fmap fst]. by left.
Qed.

(** X19.  What [processMapping] returns is an object in which no value is
    [null] and every key is the id of a column of the board's Schema Map that
    is tagged with a key of the mapping configuration; the board's Schema Map
    is in the cache afterwards. *)
Theorem processMapping_payload (mappingConfig : list (string * nat)) (externalData : value)
    (boardId : N) (this this' : MondayDynamicMapper) (payload : value) :
  processMapping mappingConfig externalData boardId this = (Return payload, this') →
  ∃ columnValues columnMap,
    payload = VObj columnValues ∧
    columnSettingsCache this' !! cacheKey boardId = Some columnMap ∧
    Forall (fun kv =>
              is_null kv.2 = false ∧
              ∃ configKey columnInfo,
                configKey ∈ mappingConfig.*1 ∧ columnMap !! configKey = Some columnInfo ∧
                to_String (get_prop columnInfo "id") = Return kv.1) columnValues.
Proof.
  unfold processMapping, bind at 1, on_objects.
  destruct (populateConfigValues mappingConfig externalData (objects this))
    as [[populatedConfig|e|] h] eqn:Hpopulate; [|done..].
  unfold bind at 1. fold (with_objects h this).
  rewrite fetchBoardColumnSettings_with_objects.
  destruct (fetchBoardColumnSettings boardId this) as [[columnMap|e|] this1] eqn:Hget; [|done..].
  unfold bind, get, lift, ret. cbn [objects with_objects].
  destruct (build_columnValues h columnMap populatedConfig []) as [columnValues|e|] eqn:Hbuild;
    [|done..].
  intros [= <- <-]. exists columnValues, columnMap. split; [done|].
  split; [by apply fetchBoardColumnSettings_cached in Hget|].
  eapply (build_columnValues_entries h columnMap (mappingConfig.*1)); [|constructor|exact Hbuild].
  intros k Hin.
  by destruct (populate_entries_subset _ _ _ _ _ _ _ Hpopulate Hin) as [?%elem_of_nil|?].
Qed.

End MapperOutcomes.

(** ** Mapping configurations *)




Section ExtraOptions.
Variable options : list (string * value).




End ExtraOptions.


(** X22.  A retry configuration can be made from everything but [null],
    and each of its four properties is truthy: a given 0 for [maxRetries], like
    every other falsy option, is replaced by the default. *)
Theorem RetryConfig_fields (options : value) :
  match RetryConfig options with
  | Return this =>
      options ≠ VNull ∧
      this.*1 = ["maxRetries"; "delays"; "retryableErrors"; "board_columns"] ∧
      Forall (fun kv => truthy kv.2 = true) this
  | Throw failure => options = VNull ∧ type_error failure
  | Outside => False
  end.
Proof.
  unfold RetryConfig, member.
  destruct options; cbn [is_undefined nullish is_null orb rbind]; try done;
    try (split; [done|]; by eexists);
    (split; [done|]); (split; [done|]); repeat constructor; by apply js_or_truthy.
Qed.

(** ** Retryable errors *)

Lemma toLowerCase_app (a b : string) :
  toLowerCase (a +:+ b) = toLowerCase a +:+ toLowerCase b.
Proof.
  unfold toLowerCase. induction a as [|c a IH]; [done|].
  rewrite string_app_cons. cbn [string_map]. by rewrite IH, string_app_cons.
Qed.

Lemma prefix_app (p s : string) : String.prefix p (p +:+ s) = true.
Proof.
  induction p as [|c p IH]; [by destruct s|].
  rewrite string_app_cons. cbn [String.prefix]. by destruct (ascii_dec c c).
Qed.

Lemma includes_app (p pre post : string) : includes p (pre +:+ p +:+ post) = true.
Proof.
  induction pre as [|c pre IH].
  - change ("" +:+ p +:+ post) with (p +:+ post).
    pose proof (prefix_app p post) as Hprefix.
    destruct (p +:+ post); cbn [includes]; by rewrite Hprefix.
  - rewrite string_app_cons. cbn [includes]. by rewrite IH, orb_true_r.
Qed.

(** X23.  An error whose message contains one of the eight phrases, in any
    letter case and anywhere in the message, is retryable, whatever the
    status code. *)
Theorem isRetryableError_message (error : exn) (statusCode : option Z)
    (pre mid post pattern : string) :
  In pattern retryablePatterns →
  e_message error = pre +:+ mid +:+ post →
  toLowerCase mid = pattern →
  isRetryableError error statusCode = true.
Proof.
  intros Hpattern Hmessage Hmid. unfold isRetryableError.
  destruct (_ || _); [done|]. destruct (match statusCode with Some _ => _ | None => _ end); [done|].
  apply existsb_exists. exists pattern. split; [done|].
  rewrite Hmessage, !toLowerCase_app, Hmid. apply includes_app.
Qed.

(** X24.  For an error that is not retryable by itself, the status codes
    that make it retryable are the codes from 500 to 599 and 429: the
    separate test for 502, 503 and 504 adds nothing, and a status of 0 counts
    as none. *)
Theorem isRetryableError_status (error : exn) (statusCode : Z) :
  isRetryableError error None = false →
  (isRetryableError error (Some statusCode) = true ↔
   500 ≤ statusCode < 600 ∨ statusCode = 429).
Proof.
  unfold isRetryableError. destruct (_ || _); [done|]. intros ->.
  destruct (statusCode =? 0) eqn:Hzero; cbn [negb]; [split; [done|lia]|].
  destruct ((500 <=? statusCode) && (statusCode <? 600)) eqn:Hserver.
  { split; [|done]. intros _. left. apply andb_true_iff in Hserver. lia. }
  apply andb_false_iff in Hserver.
  destruct (statusCode =? 429) eqn:Hrate; [split; [|done]; intros _; right; lia|].
  destruct ((statusCode =? 502) || (statusCode =? 503) || (statusCode =? 504)) eqn:Hgateway.
  { apply orb_true_iff in Hgateway as [Hgateway|Hgateway];
      [apply orb_true_iff in Hgateway as [Hgateway|Hgateway]|]; lia. }
  split; [done|]. lia.
Qed.

(** X25.  The code [COMPLEXITY_ERROR] that [query] sets on the error of a
    complexity or rate-limit response plays no part in [isRetryableError]:
    the error is retryable exactly when the plain error with its message
    is. *)
Theorem isRetryableError_flag (result : value) (shown errorMsg : string)
    (statusCode : option Z) :
  isRetryableError (graphqlError result shown errorMsg) statusCode =
  isRetryableError (Error ("Monday GraphQL error: " +:+ shown)) statusCode.
Proof.
  unfold isRetryableError, graphqlError. cbn [e_props e_message Error].
  by destruct (includes "complexity" errorMsg || includes "rate limit" errorMsg).
Qed.

(** ** The error logger *)



Lemma getBoardColumns_once_witness :
  getBoardColumns sample_remote 7
    (getBoardColumns sample_remote 7 (new_MondayApiClient "key")).2 =
  (Return sample_columns, (getBoardColumns sample_remote 7 (new_MondayApiClient "key")).2).
Proof.
  eassert (getBoardColumns sample_remote 7 (new_MondayApiClient "key") = (Return _, _))
    as Hfirst by (vm_compute; reflexivity).
  rewrite Hfirst. cbn [snd].
  eapply (getBoardColumns_once sample_remote 7 (new_MondayApiClient "key")).
  - reflexivity.
  - exact Hfirst.
Defined.

Lemma getBoardColumns_failure_witness :
  board_columns (getBoardColumns dead_remote 7 (new_MondayApiClient "key")).2 !! 7%N = None.
Proof.
  apply (getBoardColumns_failure dead_remote 7 (new_MondayApiClient "key")); reflexivity.
Defined.

Lemma fetchBoardColumnSettings_failure_witness :
  (fetchBoardColumnSettings (gw := failing_gateway) 7
     {| gateway := {| mondayApiClient := tt; calls := [] |};
        columnSettingsCache := ∅; objects := [] |}).1 =
  Throw (Error "Failed to fetch column settings for board 7: connect ECONNREFUSED") ∧
  (fetchBoardColumnSettings (gw := rejecting_gateway) 7
     {| gateway := {| mondayApiClient := tt; calls := [] |};
        columnSettingsCache := ∅; objects := [] |}).1 =
  Throw (TypeError "Cannot read properties of null (reading 'message')").
Proof.
  split.
  - rewrite (proj1 (fetchBoardColumnSettings_failure (gw := failing_gateway) 7
                      {| gateway := {| mondayApiClient := tt; calls := [] |};
                         columnSettingsCache := ∅; objects := [] |}
                      (Throw (Error "connect ECONNREFUSED")) tt (Error "connect ECONNREFUSED")
                      (lookup_empty _) eq_refl eq_refl)).
    reflexivity.
  - rewrite (proj1 (fetchBoardColumnSettings_failure (gw := rejecting_gateway) 7
                      {| gateway := {| mondayApiClient := tt; calls := [] |};
                         columnSettingsCache := ∅; objects := [] |}
                      (Throw (OtherValue VNull)) tt (OtherValue VNull)
                      (lookup_empty _) eq_refl eq_refl)).
    reflexivity.
Defined.

Lemma clearColumnCache_scope_witness :
  columnSettingsCache
    (clearColumnCache (Some 7%N)
       {| gateway := {| mondayApiClient := tt; calls := [] |};
          columnSettingsCache := {[ cacheKey 7 := ∅; cacheKey 8 := ∅ ]};
          objects := [] |}).2 !! cacheKey 8 = Some ∅.
Proof.
  rewrite (proj1 (proj2 (clearColumnCache_scope
             {| gateway := {| mondayApiClient := tt; calls := [] |};
                columnSettingsCache := {[ cacheKey 7 := ∅; cacheKey 8 := ∅ ]};
                objects := [] |} 7 8 ltac:(discriminate) ltac:(discriminate)))).
  vm_compute. reflexivity.
Defined.

Lemma createOrUpdateItem_mutation_witness :
  calls (gateway (createOrUpdateItem (rt := plain_runtime) (gw := sample_gateway) 7
                    [("client_id", O)] customer_data "Acme" (VNum (Dec 0 O)) sample_mapper).2) =
  [GetBoardColumnsCall 7; CreateItemCall 7 "Acme" (VObj [("col1", VStr "42")]) None].
Proof.
  eassert (processMapping (rt := plain_runtime) (gw := sample_gateway)
             [("client_id", O)] customer_data 7 sample_mapper = (_, _)) as Hmap
    by (vm_compute; reflexivity).
  unfold sample_gateway.
  rewrite (proj1 (createOrUpdateItem_mutation (rt := plain_runtime) sample_remote 7
                    [("client_id", O)] customer_data "Acme" (VNum (Dec 0 O)) sample_mapper
                    _ _ Hmap)).
  vm_compute. reflexivity.
Defined.

Lemma getNestedValue_compose_witness :
  getNestedValue customer_data (VStr "Customer.Id") =
  (let? v := getNestedValue customer_data (VStr "Customer") in getNestedValue v (VStr "Id")).
Proof.
  apply (getNestedValue_compose customer_data VNull "Customer" "Id"). reflexivity.
Defined.


Lemma processMapping_payload_witness :
  ∃ columnValues columnMap,
    VObj [("col1", VStr "42")] = VObj columnValues ∧
    columnSettingsCache
      (processMapping (rt := plain_runtime) (gw := sample_gateway)
         [("client_id", O)] customer_data 7 sample_mapper).2 !! cacheKey 7 = Some columnMap ∧
    Forall (fun kv =>
              is_null kv.2 = false ∧
              ∃ configKey columnInfo,
                configKey ∈ [("client_id", O)].*1 ∧ columnMap !! configKey = Some columnInfo ∧
                to_String (get_prop columnInfo "id") = Return kv.1) columnValues.
Proof.
  eapply (processMapping_payload (rt := plain_runtime) (gw := sample_gateway)
            [("client_id", O)] customer_data 7 sample_mapper).
  vm_compute. reflexivity.
Defined.

Lemma sanitizeText_idempotent_witness :
  sanitizeText (VStr "Acme Inc.") = Return (VStr "Acme Inc.").
Proof.
  apply (sanitizeText_idempotent (VStr "  Acme Inc. ") (VStr "Acme Inc.")). reflexivity.
Defined.

Lemma sanitize_missing_value_witness :
  sanitizeValueForColumnType (rt := plain_runtime) VUndef (VStr "date") = Return VNull.
Proof.
  exact (proj1 (sanitize_missing_value (rt := plain_runtime) VUndef VNull (VStr "date")
                  eq_refl)).
Defined.

Lemma sanitizeStatus_label_witness :
  ∃ l, sanitizeStatus (VStr " Done ") = Return (VObj [("label", VStr l)]) ∧ trim l = l.
Proof.
  destruct (sanitizeStatus_label (VStr " Done ") (VObj [("label", VStr "Done")]) eq_refl)
    as [[Hnull _]|(l & Hl & _ & Htrim & _)]; [discriminate Hnull|].
  exists l. split; [|exact Htrim]. by rewrite <- Hl.
Defined.

Lemma sanitizeBoardRelation_idempotent_witness :
  sanitizeBoardRelation (VObj [("item_ids", VArr [VStr "12"; VStr "7"])]) =
  Return (VObj [("item_ids", VArr [VStr "12"; VStr "7"])]).
Proof.
  exact (proj1 (sanitizeBoardRelation_idempotent
                  (VObj [("item_ids", VArr [VNum (Dec 12 O); VStr "7"])])
                  (VObj [("item_ids", VArr [VStr "12"; VStr "7"])]) eq_refl)).
Defined.

Lemma cleanNumbers_number_witness : cleanNumbers (VStr "n/a") = Return (VNum (Dec 0 O)).
Proof. exact (proj2 (cleanNumbers_number (VStr "n/a")) eq_refl). Defined.

Lemma logErrorToMonday_outcome_witness :
  (logErrorToMonday (rt := plain_runtime) dead_remote
     (createErrorConfig "key" 42 error_columns VNull) sample_error).1 =
  Return (VObj [("monday_id", VNum (Dec 0 O));
                ("error", VStr "***ERROR SAVING TO MONDAY - Sync - Acme - invoices - boom");
                ("description",
                 VStr "Failed to save: Cannot read properties of undefined (reading 'data')")]).
Proof.
  eassert (error_columnValues (rt := plain_runtime) error_columns sample_error
             "Sync - Acme - invoices - boom" = Return _) as Hvalues
    by (vm_compute; reflexivity).
  exact (proj1 (logErrorToMonday_outcome (rt := plain_runtime) dead_remote
                  (createErrorConfig "key" 42 error_columns VNull) sample_error
                  "Sync - Acme - invoices - boom" _ eq_refl Hvalues)).
Defined.

Lemma isRetryableError_message_witness :
  isRetryableError (Error "Monday says: Rate Limit exceeded") None = true.
Proof.
  apply (isRetryableError_message (Error "Monday says: Rate Limit exceeded") None
           "Monday says: " "Rate Limit" " exceeded" "rate limit").
  - cbn. tauto.
  - reflexivity.
  - reflexivity.
Defined.

Lemma isRetryableError_status_witness :
  isRetryableError (Error "boom") (Some 503) = true.
Proof.
  apply (isRetryableError_status (Error "boom") 503); [reflexivity|]. left. lia.
Defined.

